(** * SSE conformance scenarios (SEP-1699): a shallow embedding

    This development embeds the three SSE scenarios of the conformance
    suite and proves properties of them:

    - [SSERetryScenario]: the server-role harness that closes a
      [tools/call] stream and observes how the client reconnects;
    - [ServerSSEMultipleStreamsScenario] and [ServerSSEPollingScenario]:
      the client-role probes run against a server under test.

    It also embeds the scenario registry and the route handlers of the
    mock authorization server.

    Conventions of the embedding.

    - JavaScript numbers that hold counters, HTTP status codes and
      millisecond constants are integers ([Z]); [performance.now()]
      instants are rationals ([Q]): every finite double is a rational and
      the comparisons [<] and [>] of the source agree with the order of
      [Q].  Arithmetic on integers is taken exact, as it is below 2^53,
      which no counter of a scenario run comes near; the difference of
      two instants is rounded to the nearest double ([round64]), as the
      subtraction of the source does.
    - Strings are byte strings: the UTF-8 encoding of the text.
    - A [ConformanceCheck] keeps [id], [name], [status] and
      [errorMessage]; the diagnostic payload ([description], [timestamp],
      [specReferences], [details]) never influences control flow and is
      left out.
    - Operations on [http.ServerResponse] objects are recorded, in the
      order in which they happen, in a log of response operations; the
      text written with [res.write] is kept as the template it was built
      from ([chunk]).
    - [performance.now()], the parsed request body, the outcome of
      [fetch] and of stream reads are inputs of the model. *)

From Stdlib Require Import QArith Qround Qabs Qpower Lqa.
From stdpp Require Import base list list_numbers sorting gmap strings pretty.

Open Scope Z_scope.
Open Scope string_scope.
Open Scope list_scope.

(** ** Checks *)

(** [CheckStatus] of [types.ts]. *)
Inductive CheckStatus := SUCCESS | FAILURE | WARNING | SKIPPED | INFO.

Global Instance CheckStatus_eq_dec : EqDecision CheckStatus.
Proof. solve_decision. Defined.

(** [ConformanceCheck] of [types.ts], with the fields the scenarios'
    control flow and verdicts depend on. *)
Record ConformanceCheck := mkCheck {
  ck_id : string;
  ck_name : string;
  ck_status : CheckStatus;
  ck_errorMessage : option string
}.

Global Instance ConformanceCheck_eq_dec : EqDecision ConformanceCheck.
Proof. solve_decision. Defined.

(** ** JavaScript values that cross the models *)

(** The result of [JSON.parse]. *)
#[local] Unset Elimination Schemes.
Inductive json :=
  | JNull
  | JBool (b : bool)
  | JNumber (n : Q)
  | JString (s : string)
  | JArray (items : list json)
  | JObject (fields : list (string * json)).
#[local] Set Elimination Schemes.

(** A JavaScript value that is either [undefined] or a JSON value
    ([null] is [Value JNull]). *)
Inductive jsvalue :=
  | Undefined
  | Value (v : json).

(** A thrown value: an [Error] with its [message], or anything else with
    the text [String(error)] gives for it. *)
Inductive exn :=
  | ErrorObject (message : string)
  | Thrown (text : string).

Inductive result (A : Type) :=
  | Ok (a : A)
  | Throw (e : exn).
Arguments Ok {A} a.
Arguments Throw {A} e.

(** [error instanceof Error ? error.message : String(error)] *)
Definition error_text (e : exn) : string :=
  match e with
  | ErrorObject message => message
  | Thrown text => text
  end.

Fixpoint assoc (k : string) (fields : list (string * json)) : option json :=
  match fields with
  | [] => None
  | (k', v) :: rest => if decide (k' = k) then Some v else assoc k rest
  end.

(** Property read [v.k] for the keys the scenarios read ([method], [id],
    [result], [isError]): reading a property of [null] throws a
    [TypeError]; an object yields its field or [undefined]; numbers,
    booleans, strings and arrays have no such property. *)
Definition get_prop (v : json) (k : string) : result jsvalue :=
  match v with
  | JNull =>
      Throw (ErrorObject ("Cannot read properties of null (reading '" +:+ k +:+ "')"))
  | JObject fields =>
      Ok (match assoc k fields with Some x => Value x | None => Undefined end)
  | _ => Ok Undefined
  end.

(** The conversion to a string of a value made by [JSON.parse], as a
    template literal applies it, throws a [TypeError] for an object with
    an own member named [toString] (the member is not callable and hides
    [Object.prototype.toString], and [valueOf] returns the object
    itself), and for an array one of whose elements is such a value
    ([Array.prototype.toString] joins the converted elements). *)
Fixpoint unconvertible (v : json) : bool :=
  match v with
  | JObject fields => bool_decide ("toString" ∈ fields.*1)
  | JArray items => existsb unconvertible items
  | _ => false
  end.

(** [`${v}`], where the text goes into the [description] of a check
    only: what matters is whether the conversion throws. *)
Definition interpolate (v : jsvalue) : result unit :=
  match v with
  | Value x =>
      if unconvertible x
      then Throw (ErrorObject "Cannot convert object to primitive value")
      else Ok ()
  | Undefined => Ok ()
  end.

(** [v === 'lit'] *)
Definition is_string (lit : string) (v : jsvalue) : bool :=
  match v with
  | Value (JString s) => bool_decide (s = lit)
  | _ => false
  end.

(** [v === undefined] and [v !== null] *)
Definition is_undefined (v : jsvalue) : bool :=
  match v with Undefined => true | _ => false end.

Definition not_null (v : jsvalue) : bool :=
  match v with Value JNull => false | _ => true end.

(** A [string | undefined] used as a condition: present and not the
    empty string. *)
Definition truthy (v : option string) : bool :=
  match v with
  | Some s => negb (bool_decide (s = ""))
  | None => false
  end.

(** ** Numbers *)

Definition Qltb (x y : Q) : bool := negb (Qle_bool y x).
Definition Qgtb (x y : Q) : bool := Qltb y x.

(** [⌊log2 x⌋] for a positive rational [x]. *)
Definition Qlog2 (x : Q) : Z :=
  let e := Z.log2 (Qnum x) - Z.log2 (Z.pos (Qden x)) in
  if Qle_bool (2 ^ e) x then e else e - 1.

(** The integer nearest to a rational that is not negative, the even one
    on a tie. *)
Definition nearest_even (x : Q) : Z :=
  let f := Qfloor x in
  let r := (x - inject_Z f)%Q in
  if Qltb r (1 # 2) then f
  else if Qltb (1 # 2) r then f + 1
  else if Z.even f then f
  else f + 1.

(** The double nearest to [x], the one with the even significand on a
    tie: the result of an operation on doubles whose exact result is [x].
    The last place of the result has the exponent [e]: 52 binary places
    below the leading bit of [x], and not below 2^-1074.  Magnitudes
    stay below 2^1024 here (the instants of [performance.now()] are not
    negative), so that no result is infinite. *)
Definition round64 (x : Q) : Q :=
  if Qeq_bool x 0 then 0
  else
    let e := Z.max (Qlog2 (Qabs x) - 52) (-1074) in
    let m := nearest_even (Qabs x / 2 ^ e) in
    (if Qltb x 0 then - inject_Z m else inject_Z m) * 2 ^ e.

(** [x.toFixed(0)] for magnitudes below 10^21: the sign first, then the
    integer nearest to the magnitude, the larger one on a tie. *)
Definition toFixed0 (x : Q) : string :=
  (if Qltb x 0 then "-" else "") +:+ pretty (Qfloor (Qabs x + (1 # 2))).

(** ** The SSE retry scenario: the server-role harness *)

Module SSERetryScenario.

(** *** HTTP objects *)

(** An incoming request.  [body] is what [JSON.parse] makes of the
    complete request body ([Throw] when it raises), read by the [end]
    listener of a POST. *)
Record IncomingMessage := mkRequest {
  method : string;
  url : string;
  headers : gmap string string;
  body : result json
}.

(** The JSON documents the harness serialises with [JSON.stringify]. *)
Inductive document :=
  | ToolResponse (id : jsvalue)
      (* { jsonrpc, id, result: { content: [{ type: 'text', text }] } } *)
  | InitializeResponse (id : jsvalue)
      (* { jsonrpc, id, result: { protocolVersion, serverInfo, capabilities } } *)
  | ToolsListResponse (id : jsvalue)
      (* { jsonrpc, id, result: { tools: [test_reconnection] } } *)
  | EmptyResult (id : jsvalue)
      (* { jsonrpc, id, result: {} } *)
  | ParseError (error : exn).
      (* { jsonrpc, error: { code: -32700, message: `Parse error: ${error}` } } *)

(** What is handed to [res.write] and [res.end]. *)
Inductive chunk :=
  | PrimingContent (eventId : string) (retry : Z)
      (* `id: ${eventId}\nretry: ${retry}\ndata: \n\n` *)
  | ResponseContent (responseEventId : string) (toolResponse : document)
      (* `event: message\nid: ${responseEventId}\ndata: ${JSON.stringify(toolResponse)}\n\n` *)
  | Stringified (d : document)
      (* JSON.stringify(d) *)
  | Text (s : string).

Inductive res_op :=
  | WriteHead (statusCode : Z) (hs : list (string * string))
  | Write (c : chunk)
  | End (c : option chunk).

(** Response objects are named by a number; the closure given to
    [setTimeout] keeps the one it captured. *)
Definition ServerResponse := nat.

Record timer := mkTimer { delay : Z; captured : ServerResponse }.

Global Instance timer_eq_dec : EqDecision timer.
Proof. solve_decision. Defined.

(** *** The fields of the scenario instance *)

Record t := mkState {
  checks : list ConformanceCheck;
  toolStreamCloseTime : option Q;
  getReconnectionTime : option Q;
  getConnectionCount : Z;
  lastEventIds : list (option string);
  retryValue : Z;
  eventIdCounter : Z;
  sessionId : string;
  pendingToolCallId : jsvalue;
  getResponseStream : option ServerResponse;
  (* the world the instance acts on *)
  wire : list (ServerResponse * res_op);
  timers : list timer
}.

Definition EARLY_TOLERANCE : Z := 50.
Definition LATE_TOLERANCE : Z := 200.
Definition VERY_LATE_MULTIPLIER : Z := 2.

(** Field initialisers; [dateNow] is the value of [Date.now()]. *)
Definition init (dateNow : Z) : t :=
  {| checks := [];
     toolStreamCloseTime := None;
     getReconnectionTime := None;
     getConnectionCount := 0;
     lastEventIds := [];
     retryValue := 500;
     eventIdCounter := 0;
     sessionId := "session-" +:+ pretty dateNow;
     pendingToolCallId := Value JNull;
     getResponseStream := None;
     wire := [];
     timers := [] |}.

(** Field updates. *)
Definition set_checks (v : list ConformanceCheck) (s : t) : t :=
  mkState v (toolStreamCloseTime s) (getReconnectionTime s)
    (getConnectionCount s) (lastEventIds s) (retryValue s) (eventIdCounter s)
    (sessionId s) (pendingToolCallId s) (getResponseStream s) (wire s) (timers s).

(** [this.checks.push(c)] *)
Definition push_check (c : ConformanceCheck) (s : t) : t :=
  set_checks (checks s ++ [c]) s.

Definition set_toolStreamCloseTime (v : option Q) (s : t) : t :=
  mkState (checks s) v (getReconnectionTime s)
    (getConnectionCount s) (lastEventIds s) (retryValue s) (eventIdCounter s)
    (sessionId s) (pendingToolCallId s) (getResponseStream s) (wire s) (timers s).

Definition set_getReconnectionTime (v : option Q) (s : t) : t :=
  mkState (checks s) (toolStreamCloseTime s) v
    (getConnectionCount s) (lastEventIds s) (retryValue s) (eventIdCounter s)
    (sessionId s) (pendingToolCallId s) (getResponseStream s) (wire s) (timers s).

Definition set_getConnectionCount (v : Z) (s : t) : t :=
  mkState (checks s) (toolStreamCloseTime s) (getReconnectionTime s)
    v (lastEventIds s) (retryValue s) (eventIdCounter s)
    (sessionId s) (pendingToolCallId s) (getResponseStream s) (wire s) (timers s).

Definition push_lastEventId (v : option string) (s : t) : t :=
  mkState (checks s) (toolStreamCloseTime s) (getReconnectionTime s)
    (getConnectionCount s) (lastEventIds s ++ [v]) (retryValue s) (eventIdCounter s)
    (sessionId s) (pendingToolCallId s) (getResponseStream s) (wire s) (timers s).

Definition set_eventIdCounter (v : Z) (s : t) : t :=
  mkState (checks s) (toolStreamCloseTime s) (getReconnectionTime s)
    (getConnectionCount s) (lastEventIds s) (retryValue s) v
    (sessionId s) (pendingToolCallId s) (getResponseStream s) (wire s) (timers s).

Definition set_pendingToolCallId (v : jsvalue) (s : t) : t :=
  mkState (checks s) (toolStreamCloseTime s) (getReconnectionTime s)
    (getConnectionCount s) (lastEventIds s) (retryValue s) (eventIdCounter s)
    (sessionId s) v (getResponseStream s) (wire s) (timers s).

Definition set_getResponseStream (v : option ServerResponse) (s : t) : t :=
  mkState (checks s) (toolStreamCloseTime s) (getReconnectionTime s)
    (getConnectionCount s) (lastEventIds s) (retryValue s) (eventIdCounter s)
    (sessionId s) (pendingToolCallId s) v (wire s) (timers s).

(** [res.writeHead], [res.write], [res.end]: one more entry of the log. *)
Definition respond (res : ServerResponse) (op : res_op) (s : t) : t :=
  mkState (checks s) (toolStreamCloseTime s) (getReconnectionTime s)
    (getConnectionCount s) (lastEventIds s) (retryValue s) (eventIdCounter s)
    (sessionId s) (pendingToolCallId s) (getResponseStream s)
    (wire s ++ [(res, op)]) (timers s).

Definition set_timers (v : list timer) (s : t) : t :=
  mkState (checks s) (toolStreamCloseTime s) (getReconnectionTime s)
    (getConnectionCount s) (lastEventIds s) (retryValue s) (eventIdCounter s)
    (sessionId s) (pendingToolCallId s) (getResponseStream s) (wire s) v.

(** [setTimeout(callback, ms)] with a callback that captured [res]. *)
Definition setTimeout (res : ServerResponse) (ms : Z) (s : t) : t :=
  set_timers (timers s ++ [mkTimer ms res]) s.

Definition info (id name : string) : ConformanceCheck :=
  mkCheck id name INFO None.

Definition sse_headers (s : t) : list (string * string) :=
  [("Content-Type", "text/event-stream"); ("Cache-Control", "no-cache");
   ("Connection", "keep-alive"); ("mcp-session-id", sessionId s)].

Definition json_headers (s : t) : list (string * string) :=
  [("Content-Type", "application/json"); ("mcp-session-id", sessionId s)].

(** `event-${n}` *)
Definition event_id (n : Z) : string := "event-" +:+ pretty n.

(** *** Handlers *)

Definition handleGetSSEStream (res : ServerResponse) (s : t) : t :=
  (* Set SSE headers *)
  let s := respond res (WriteHead 200 (sse_headers s)) s in
  (* Generate event ID *)
  let s := set_eventIdCounter (eventIdCounter s + 1) s in
  let eventId := event_id (eventIdCounter s) in
  (* Send priming event with ID and retry field *)
  let s := respond res (Write (PrimingContent eventId (retryValue s))) s in
  let s := push_check (info "outgoing-sse-event" "OutgoingSseEvent") s in
  (* Store the GET stream to send pending tool response *)
  let s := set_getResponseStream (Some res) s in
  (* If we have a pending tool call, send the response now *)
  if not_null (pendingToolCallId s) then
    let toolResponse := ToolResponse (pendingToolCallId s) in
    let s := set_eventIdCounter (eventIdCounter s + 1) s in
    let responseEventId := event_id (eventIdCounter s) in
    let s := respond res (Write (ResponseContent responseEventId toolResponse)) s in
    let s := push_check (info "outgoing-sse-event" "OutgoingSseEvent") s in
    set_pendingToolCallId (Value JNull) s
  else s.

Definition handleInitialize (res : ServerResponse) (request_id : jsvalue) (s : t) : t :=
  let s := respond res (WriteHead 200 (json_headers s)) s in
  let s := respond res (End (Some (Stringified (InitializeResponse request_id)))) s in
  push_check (info "outgoing-response" "OutgoingResponse") s.

Definition handleToolsList (res : ServerResponse) (request_id : jsvalue) (s : t) : t :=
  let s := respond res (WriteHead 200 (json_headers s)) s in
  let s := respond res (End (Some (Stringified (ToolsListResponse request_id)))) s in
  push_check (info "outgoing-response" "OutgoingResponse") s.

Definition handleToolsCall (res : ServerResponse) (request_id : jsvalue) (s : t) : t :=
  (* Store the request ID so we can respond after reconnection *)
  let s := set_pendingToolCallId request_id s in
  (* Start SSE stream *)
  let s := respond res (WriteHead 200 (sse_headers s)) s in
  (* Send priming event with retry field *)
  let s := set_eventIdCounter (eventIdCounter s + 1) s in
  let primingEventId := event_id (eventIdCounter s) in
  let s := respond res (Write (PrimingContent primingEventId (retryValue s))) s in
  let s := push_check (info "outgoing-sse-event" "OutgoingSseEvent") s in
  (* Close the stream after a short delay to trigger reconnection *)
  setTimeout res 50 s.

(** The callback [handleToolsCall] gives to [setTimeout]; [now] is the
    value of [performance.now()] when it runs. *)
Definition closeToolsCallStream (res : ServerResponse) (now : Q) (s : t) : t :=
  let s := set_toolStreamCloseTime (Some now) s in
  let s := push_check (info "outgoing-stream-close" "OutgoingStreamClose") s in
  respond res (End None) s.

(** The [end] listener of [handlePostRequest], run on the whole body. *)
Definition handlePostRequest (req : IncomingMessage) (res : ServerResponse) (s : t) : t :=
  let parse_error (error : exn) :=
    let s := respond res (WriteHead 400 [("Content-Type", "application/json")]) s in
    respond res (End (Some (Stringified (ParseError error)))) s in
  match body req with
  | Throw error => parse_error error
  | Ok request =>
      match get_prop request "method", get_prop request "id" with
      | Ok request_method, Ok request_id =>
          (* description: `... (method: ${request.method})` *)
          match interpolate request_method with
          | Throw error => parse_error error
          | Ok _ =>
              let s := push_check (info "incoming-request" "IncomingRequest") s in
              if is_string "initialize" request_method then
                handleInitialize res request_id s
              else if is_string "tools/list" request_method then
                handleToolsList res request_id s
              else if is_string "tools/call" request_method then
                handleToolsCall res request_id s
              else if is_undefined request_id then
                (* Notifications (no id) - return 202 Accepted *)
                let s := respond res (WriteHead 202 []) s in
                respond res (End None) s
              else
                (* For other requests, send a simple JSON response *)
                let s := respond res (WriteHead 200 (json_headers s)) s in
                respond res (End (Some (Stringified (EmptyResult request_id)))) s
          end
      | Throw error, _ | _, Throw error => parse_error error
      end
  end.

Definition handleRequest (req : IncomingMessage) (res : ServerResponse) (now : Q) (s : t) : t :=
  if bool_decide (method req = "GET") then
    (* Track GET reconnection timing and Last-Event-ID *)
    let s := set_getConnectionCount (getConnectionCount s + 1) s in
    let s := set_getReconnectionTime (Some now) s in
    let lastEventId := headers req !! "last-event-id" in
    let s := push_check (info "incoming-request" "IncomingRequest") s in
    let s := if truthy lastEventId then push_lastEventId lastEventId s else s in
    (* Handle GET SSE stream request (reconnection) *)
    handleGetSSEStream res s
  else if bool_decide (method req = "POST") then
    (* Handle POST JSON-RPC requests *)
    handlePostRequest req res s
  else
    let s := respond res (WriteHead 405 []) s in
    respond res (End (Some (Text "Method Not Allowed"))) s.

(** *** Verdicts *)

(** Check 2 of [generateChecks] for a measured delay: status and error
    message of the [ClientRespectsRetryField] check. *)
Definition retryTiming (s : t) (actualDelay : Q) : ConformanceCheck :=
  let minExpected := retryValue s - EARLY_TOLERANCE in
  let maxExpected := retryValue s + LATE_TOLERANCE in
  let tooEarly := Qltb actualDelay (inject_Z minExpected) in
  let slightlyLate := Qgtb actualDelay (inject_Z maxExpected) in
  let veryLate := Qgtb actualDelay (inject_Z (retryValue s * VERY_LATE_MULTIPLIER)) in
  let instead :=
    "(" +:+ toFixed0 actualDelay +:+ "ms instead of " +:+ pretty (retryValue s) +:+ "ms). " in
  let '(status, errorMessage) :=
    if tooEarly then
      (* Client reconnected too soon - MUST violation *)
      (FAILURE,
       Some ("Client reconnected too early " +:+ instead +:+
             "Client MUST respect the retry field and wait the specified time."))
    else if veryLate then
      (* Client reconnected way too late - likely ignoring retry field entirely *)
      (FAILURE,
       Some ("Client reconnected very late " +:+ instead +:+
             "Client appears to be ignoring the retry field and using its own backoff strategy."))
    else if slightlyLate then
      (* Client reconnected slightly late - not a spec violation but suspicious *)
      (WARNING,
       Some ("Client reconnected slightly late " +:+ instead +:+
             "This is acceptable but may indicate network delays."))
    else (SUCCESS, None) in
  mkCheck "client-sse-retry-timing" "ClientRespectsRetryField" status errorMessage.

Definition generateChecks (s : t) : t :=
  (* Check 1: Client should have reconnected via GET after tool call stream close *)
  if bool_decide (getConnectionCount s < 1) then
    push_check
      (mkCheck "client-sse-graceful-reconnect" "ClientGracefulReconnect" FAILURE
         (Some "Client did not attempt GET reconnection after stream closure. Client should treat graceful stream close as reconnectable."))
      s
  else
    (* Client did reconnect - SUCCESS for graceful reconnection *)
    let s :=
      push_check
        (mkCheck "client-sse-graceful-reconnect" "ClientGracefulReconnect" SUCCESS None) s in
    (* Check 2: Client MUST respect retry field timing *)
    let s :=
      match toolStreamCloseTime s, getReconnectionTime s with
      | Some closeTime, Some reconnectionTime =>
          let actualDelay := round64 (reconnectionTime - closeTime) in
          push_check (retryTiming s actualDelay) s
      | _, _ =>
          push_check
            (mkCheck "client-sse-retry-timing" "ClientRespectsRetryField" WARNING
               (Some "Could not measure timing - tool stream close time or GET reconnection time not recorded"))
            s
      end in
    (* Check 3: Client SHOULD send Last-Event-ID header on reconnection *)
    let hasLastEventId :=
      match lastEventIds s with
      | [] => false
      | first :: _ => bool_decide (first <> None)
      end in
    push_check
      (mkCheck "client-sse-last-event-id" "ClientSendsLastEventId"
         (if hasLastEventId then SUCCESS else WARNING)
         (if negb hasLastEventId
          then Some "Client did not send Last-Event-ID header on reconnection. This is a SHOULD requirement for resumability."
          else None))
      s.

(** [getChecks] returns the array held in [this.checks]: the returned
    list is the [checks] field of the state it leaves. *)
Definition getChecks (s : t) : list ConformanceCheck * t :=
  let s := generateChecks s in
  (checks s, s).

(** *** The harness as a transition system *)

Inductive input :=
  | Request (req : IncomingMessage) (res : ServerResponse) (now : Q)
  | Timeout (tm : timer) (now : Q).

(** A timer that was set fires once and runs its callback. *)
Fixpoint remove_first (tm : timer) (l : list timer) : list timer :=
  match l with
  | [] => []
  | x :: rest => if decide (x = tm) then rest else x :: remove_first tm rest
  end.

Definition step (s : t) (i : input) : t :=
  match i with
  | Request req res now => handleRequest req res now s
  | Timeout tm now =>
      if bool_decide (tm ∈ timers s) then
        closeToolsCallStream (captured tm) now (set_timers (remove_first tm (timers s)) s)
      else s
  end.

Definition run (s : t) (inputs : list input) : t := foldl step s inputs.

(** What a response object received, in order. *)
Definition received (res : ServerResponse) (s : t) : list res_op :=
  (filter (λ e, e.1 = res) (wire s)).*2.

(** *** Observations *)

(** The two kinds of timing failure, told apart by the error message. *)
Definition too_early (c : ConformanceCheck) : Prop :=
  exists m, ck_errorMessage c = Some m /\
            String.prefix "Client reconnected too early" m = true.

Definition very_late (c : ConformanceCheck) : Prop :=
  exists m, ck_errorMessage c = Some m /\
            String.prefix "Client reconnected very late" m = true.

(** The status line of a response: the code of its first [writeHead]. *)
Definition statusCode (res : ServerResponse) (s : t) : option Z :=
  head (omap (λ op, match op with WriteHead code _ => Some code | _ => None end)
          (received res s)).

(** The [id:] field of an SSE event written to some response. *)
Definition emitted_id (e : ServerResponse * res_op) : option string :=
  match e.2 with
  | Write (PrimingContent eventId _) => Some eventId
  | Write (ResponseContent responseEventId _) => Some responseEventId
  | _ => None
  end.

Definition emitted_ids (s : t) : list string := omap emitted_id (wire s).

(** The deferred tool responses written so far, with the JSON-RPC id each
    one answers and the response object it went to. *)
Definition delivery (e : ServerResponse * res_op) : option (ServerResponse * jsvalue) :=
  match e.2 with
  | Write (ResponseContent _ (ToolResponse id)) => Some (e.1, id)
  | _ => None
  end.

Definition deliveries (s : t) : list (ServerResponse * jsvalue) :=
  omap delivery (wire s).

(** A POST whose parsed body has [method === 'tools/call']. *)
Definition is_tools_call (i : input) : bool :=
  match i with
  | Request req _ _ =>
      bool_decide (method req = "POST") &&
      match body req with
      | Ok request =>
          match get_prop request "method" with
          | Ok m => is_string "tools/call" m
          | Throw _ => false
          end
      | Throw _ => false
      end
  | Timeout _ _ => false
  end.

(** Direct calls of the two handlers that mint event ids. *)
Inductive invocation :=
  | GetSSEStream (res : ServerResponse)
  | ToolsCall (res : ServerResponse) (request_id : jsvalue).

Definition invoke (s : t) (c : invocation) : t :=
  match c with
  | GetSSEStream res => handleGetSSEStream res s
  | ToolsCall res request_id => handleToolsCall res request_id s
  end.

(** Two states that agree on what the SSE side of the harness reads. *)
Definition same_session (s s' : t) : Prop :=
  wire s' = wire s /\ eventIdCounter s' = eventIdCounter s /\
  pendingToolCallId s' = pendingToolCallId s /\ retryValue s' = retryValue s /\
  sessionId s' = sessionId s /\ timers s' = timers s.

(** The response object an input acts on. *)
Definition target (i : input) : ServerResponse :=
  match i with
  | Request _ res _ => res
  | Timeout tm _ => captured tm
  end.

(** The inputs that are GET requests, and the Last-Event-ID a GET request
    carried, if it carried a non-empty one. *)
Definition is_get (i : input) : bool :=
  match i with
  | Request req _ _ => bool_decide (method req = "GET")
  | Timeout _ _ => false
  end.

Definition sent_last_event_id (i : input) : option string :=
  match i with
  | Request req _ _ =>
      if bool_decide (method req = "GET") && truthy (headers req !! "last-event-id")
      then headers req !! "last-event-id"
      else None
  | Timeout _ _ => None
  end.

(** The ids written so far are [event-1] ... [event-n], in this order,
    for [n] the value of the counter. *)
Definition ids_minted (s : t) : Prop :=
  0 <= eventIdCounter s /\
  emitted_ids s = event_id <$> seqZ 1 (eventIdCounter s).

End SSERetryScenario.

(** ** Client-role scenarios: what they share *)

(** *** Control flow of an [async] function body

    A statement completes normally, by [return checks], or by throwing.
    A computation reads and updates the locals that outlive the [try]
    block: the [checks] array, whether [client] has been assigned, and (to
    observe the cleanup) how often [client.close()] has been called. *)

Module Probe.

Record locals := mkLocals {
  checks : list ConformanceCheck;
  client : bool;
  closeCalls : nat
}.

Inductive completion (A : Type) :=
  | Normal (a : A)
  | Returned
  | Raised (e : exn).
Arguments Normal {A} a.
Arguments Returned {A}.
Arguments Raised {A} e.

Definition M (A : Type) : Type := locals -> completion A * locals.

Definition ret {A} (a : A) : M A := λ st, (Normal a, st).

Definition bind {A B} (m : M A) (k : A -> M B) : M B :=
  λ st,
    match m st with
    | (Normal a, st') => k a st'
    | (Returned, st') => (Returned, st')
    | (Raised e, st') => (Raised e, st')
    end.

(** [return checks;] *)
Definition return_checks {A} : M A := λ st, (Returned, st).

(** [throw e], and awaiting a promise or calling a function of the
    environment whose outcome is [r]. *)
Definition raise {A} (e : exn) : M A := λ st, (Raised e, st).

Definition await {A} (r : result A) : M A :=
  match r with
  | Ok a => ret a
  | Throw e => raise e
  end.

(** [checks.push(c)] *)
Definition push (c : ConformanceCheck) : M unit :=
  λ st, (Normal tt, mkLocals (checks st ++ [c]) (client st) (closeCalls st)).

(** [client = new Client(...)], once the constructor has returned. *)
Definition assign_client : M unit :=
  λ st, (Normal tt, mkLocals (checks st) true (closeCalls st)).

Definition get_client : M bool := λ st, (Normal (client st), st).

(** [await client.close()] with outcome [r]. *)
Definition close (r : result unit) : M unit :=
  λ st,
    (match r with Ok _ => Normal tt | Throw e => Raised e end,
     mkLocals (checks st) (client st) (S (closeCalls st))).

(** [try { body } catch (error) { handler(error) }] *)
Definition try_catch (body : M unit) (handler : exn -> M unit) : M unit :=
  λ st,
    match body st with
    | (Raised e, st') => handler e st'
    | other => other
    end.

(** [try { body } finally { finalizer }]: the finalizer runs on every
    exit of the body; if it completes normally the completion of the
    body stands, otherwise its own completion replaces it. *)
Definition try_finally (body : M unit) (finalizer : M unit) : M unit :=
  λ st,
    match body st with
    | (c, st') =>
        match finalizer st' with
        | (Normal _, st'') => (c, st'')
        | abrupt => abrupt
        end
    end.

Definition when (b : bool) (m : M unit) : M unit :=
  if b then m else ret tt.

(** An [async] function whose body is [const checks = []; body; return
    checks;]: the promise it returns is fulfilled with the [checks] array
    or rejected with what the body threw. *)
Definition async_checks (body : M unit) : result (list ConformanceCheck) * locals :=
  match body (mkLocals [] false 0%nat) with
  | (Raised e, st) => (Throw e, st)
  | (_, st) => (Ok (checks st), st)
  end.

(** A computation that never calls [client.close()] and never unsets
    [client]. *)
Definition keeps_client {A} (m : M A) : Prop :=
  forall st,
    closeCalls (m st).2 = closeCalls st /\
    (client st = true -> client (m st).2 = true).

End Probe.

Global Instance probe_ret : MRet Probe.M := @Probe.ret.
Global Instance probe_bind : MBind Probe.M := λ A B k m, Probe.bind m k.

(** [const x = await m; k]: the bound computation is read first. *)
Notation "'let*' x ':=' m 'in' k" := (Probe.bind m (λ x, k))
  (at level 10, x name, k at level 200, only parsing).

(** *** What [fetch] resolves to *)

(** A [Response] whose body, when there is one, is described by [B]. *)
Record Response (B : Type) := mkResponse {
  status : Z;
  contentType : option string;      (* headers.get('content-type') *)
  responseBody : option B           (* body, null when absent *)
}.
Arguments mkResponse {B}.
Arguments status {B}.
Arguments contentType {B}.
Arguments responseBody {B}.

(** [response.ok] *)
Definition ok {B} (r : Response B) : bool :=
  bool_decide (200 <= status r <= 299).

(** [haystack.includes(needle)] *)
Fixpoint includes (needle haystack : string) : bool :=
  String.prefix needle haystack ||
  match haystack with
  | EmptyString => false
  | String _ rest => includes needle rest
  end.

(** [ct?.includes('text/event-stream')] as a condition *)
Definition is_event_stream (ct : option string) : bool :=
  match ct with
  | Some ct => includes "text/event-stream" ct
  | None => false
  end.

(** An event produced by [EventSourceParserStream]; [parsed] is what
    [JSON.parse(event.data)] gives. *)
Record EventSourceMessage := mkEvent {
  ev_id : option string;
  ev_event : option string;
  ev_data : string;
  parsed : result json
}.

(** What the common part of the two [run] methods meets in the world. *)
Record Session := mkSession {
  newClient : result unit;            (* new Client(...) *)
  newTransport : result unit;         (* new StreamableHTTPClientTransport(new URL(serverUrl)) *)
  connect : result unit;              (* await client.connect(transport) *)
  transportSessionId : option string; (* transport.sessionId *)
  closeOutcome : result unit          (* await client.close() *)
}.

(** Step 1 of both scenarios, up to reading the session id. *)
Definition initialize_session (w : Session) : Probe.M (option string) :=
  Probe.await (newClient w);;
  Probe.assign_client;;
  Probe.await (newTransport w);;
  Probe.await (connect w);;
  mret (transportSessionId w).

(** The [finally] block of both scenarios. *)
Definition cleanup (w : Session) : Probe.M unit :=
  let* client := Probe.get_client in
  Probe.when client
    (Probe.try_catch (Probe.close (closeOutcome w)) (λ _, Probe.ret tt)).

(** ** The SSE multiple-streams scenario *)

Module ServerSSEMultipleStreamsScenario.

(** What racing the first [reader.read()] against the 2000 ms timer
    gives: the value read ([None] for [undefined], at the end of the
    stream), [null] from the timer, or a rejection (also of anything
    thrown while the reader is set up). *)
Inductive firstRead :=
  | ReadValue (value : option EventSourceMessage)
  | TimedOut
  | ReadFailed (e : exn).

(** The body of a POST response as the scenario uses it. *)
Record body := mkBody {
  raced : firstRead;
  cancelled : result unit           (* await reader.cancel() *)
}.

Record world := mkWorld {
  session : Session;
  post : nat -> result (Response body);   (* the fetch of request 1000 + i *)
  firstRejected : nat                      (* the fetch that rejects first, if any does *)
}.

Definition numStreams : nat := 3.

(** [await Promise.all(promises)]: the values in order, or the reason of
    the promise that rejected first. *)
Fixpoint fulfilled {A} (promises : list (result A)) : result (list A) :=
  match promises with
  | [] => Ok []
  | Ok a :: rest =>
      match fulfilled rest with
      | Ok values => Ok (a :: values)
      | Throw e => Throw e
      end
  | Throw e :: _ => Throw e
  end.

Definition Promise_all {A} (first : nat) (promises : list (result A)) : result (list A) :=
  match fulfilled promises with
  | Ok values => Ok values
  | Throw e =>
      match promises !! first with
      | Some (Throw e') => Throw e'
      | _ => Throw e
      end
  end.

(** The entries of [eventResults]. *)
Inductive eventResult :=
  | JsonSkipped (index : nat)                   (* { index, type: 'json', skipped: true } *)
  | SseError (index : nat) (error : string)     (* { index, type: 'sse', error } *)
  | SseEvent (index : nat) (event : firstRead). (* { index, type: 'sse', event } *)

(** [r.type === 'sse'] and ['error' in r] *)
Definition is_sse (r : eventResult) : bool :=
  match r with JsonSkipped _ => false | _ => true end.

Definition has_error (r : eventResult) : bool :=
  match r with SseError _ _ => true | _ => false end.

(** The callback mapped over [streamResponses] in step 3. *)
Definition readOneEvent (response : Response body) (index : nat) : eventResult :=
  (* Skip non-SSE responses (JSON responses are also valid) *)
  if negb (is_event_stream (contentType response)) then JsonSkipped index
  else
    match responseBody response with
    | Some b =>
        if negb (ok response) then SseError index "Stream not available"
        else
          match raced b with
          | ReadFailed e => SseError index (error_text e)
          | event =>
              (* Cancel reader *)
              match cancelled b with
              | Ok _ => SseEvent index event
              | Throw e => SseError index (error_text e)
              end
          end
    | None => SseError index "Stream not available"
    end.

Definition join (sep : string) (parts : list string) : string :=
  match parts with
  | [] => ""
  | first :: rest => foldl (λ acc part, acc +:+ sep +:+ part) first rest
  end.

(** The [server-accepts-multiple-post-streams] check. *)
Definition acceptsCheck (streamResponses : list (Response body)) : ConformanceCheck :=
  let allAccepted := forallb ok streamResponses in
  let statuses := status <$> streamResponses in
  mkCheck "server-accepts-multiple-post-streams" "ServerAcceptsMultiplePostStreams"
    (if allAccepted then SUCCESS else FAILURE)
    (if negb allAccepted
     then Some ("Server rejected some requests. Statuses: " +:+ join ", " (pretty <$> statuses))
     else None).

(** The [server-sse-streams-functional] check. *)
Definition functionalCheck (streamResponses : list (Response body)) : ConformanceCheck :=
  let contentTypes := contentType <$> streamResponses in
  (* Count how many returned SSE streams vs JSON *)
  let sseStreams := length (filter (λ ct, is_event_stream ct = true) contentTypes) in
  let eventResults := imap (λ index response, readOneEvent response index) streamResponses in
  (* Count functional SSE streams (received event or timed out waiting - both are valid) *)
  let sseResults := filter (λ r, is_sse r = true) eventResults in
  let functionalSseStreams := length (filter (λ r, has_error r = false) sseResults) in
  (* If server returned SSE streams, they should be functional *)
  if bool_decide (0 < sseStreams)%nat then
    mkCheck "server-sse-streams-functional" "ServerSSEStreamsFunctional"
      (if bool_decide (functionalSseStreams = sseStreams) then SUCCESS
       else if bool_decide (0 < functionalSseStreams)%nat then WARNING
       else FAILURE)
      (if bool_decide (functionalSseStreams < sseStreams)%nat
       then Some ("Only " +:+ pretty functionalSseStreams +:+ "/" +:+ pretty sseStreams +:+
                  " SSE streams were functional")
       else None)
  else
    (* Server returned JSON for all requests - this is valid but worth noting *)
    mkCheck "server-sse-streams-functional" "ServerSSEStreamsFunctional" INFO None.

(** The [try] block of [run]. *)
Definition probe (w : world) : Probe.M unit :=
  (* Step 1: Initialize session with the server *)
  let* sessionId := initialize_session (session w) in
  if negb (truthy sessionId) then
    Probe.push
      (mkCheck "server-sse-multiple-streams-session" "ServerSSEMultipleStreamsSession"
         WARNING None);;
    Probe.return_checks
  else
    (* Step 2: Open multiple POST SSE streams concurrently *)
    let postPromises := post w <$> seq 0 numStreams in
    (* Wait for all responses *)
    let* streamResponses := Probe.await (Promise_all (firstRejected w) postPromises) in
    Probe.push (acceptsCheck streamResponses);;
    (* Step 3: Verify SSE streams are functional by reading events *)
    Probe.push (functionalCheck streamResponses).

(** The [catch] block of [run]. *)
Definition on_error (error : exn) : Probe.M unit :=
  Probe.push
    (mkCheck "server-sse-multiple-streams-error" "ServerSSEMultipleStreamsTest" FAILURE
       (Some ("Error: " +:+ error_text error))).

Definition run (w : world) : result (list ConformanceCheck) * Probe.locals :=
  Probe.async_checks
    (Probe.try_finally
       (Probe.try_catch (probe w) on_error)
       (cleanup (session w))).

(** *** Observations *)

(** The responses that count as SSE streams. *)
Definition sse (response : Response body) : bool :=
  is_event_stream (contentType response).

(** What the claim calls an event or a clean timeout, and more generally
    a read that left no error: the response was answered 2xx and has a
    body, the race of the first read against the timer did not reject
    (it gave an event, the end of the stream, or the timer's [null]), and
    cancelling the reader succeeded. *)
Definition read_without_error (response : Response body) : bool :=
  ok response &&
  match responseBody response with
  | Some b =>
      match raced b with ReadFailed _ => false | _ => true end &&
      match cancelled b with Ok _ => true | Throw _ => false end
  | None => false
  end.

(** An SSE stream is functional when it was read without error, and
    errored otherwise: when it was not answered 2xx, or has no body, or
    the read or the cancellation failed. *)
Definition functional (response : Response body) : bool :=
  sse response && read_without_error response.

Definition errored (response : Response body) : bool :=
  sse response && negb (read_without_error response).

(** The response was usable and the race produced an event or ran into
    the timer, and cancelling the reader succeeded. *)
Definition event_or_clean_timeout (response : Response body) : Prop :=
  ok response = true /\
  exists b, responseBody response = Some b /\
            (raced b = TimedOut \/ exists event, raced b = ReadValue (Some event)) /\
            cancelled b = Ok ().

End ServerSSEMultipleStreamsScenario.

(** ** The SSE polling scenario (scenarios/server/sse-polling.ts) *)

Module ServerSSEPollingScenario.

(** What the consumer of a parsed stream sees, in order: calls of the
    [onRetry] callback and events handed out by [reader.read()]. *)
Inductive item :=
  | OnRetry (retryMs : Z)
  | Event (event : EventSourceMessage).

(** A response body: the items delivered until the stream is done (closed
    by the server, or cancelled by the read timeout), and how the last
    [read()] settles: [done], or a rejection. *)
Record stream := mkStream {
  items : list item;
  ending : result unit
}.

Record world := mkWorld {
  session : Session;
  post : result (Response stream);   (* fetch of the tools/call POST *)
  get : result (Response stream)     (* fetch of the GET with Last-Event-ID *)
}.

Definition info (id name : string) : ConformanceCheck := mkCheck id name INFO None.

(** The function [createLoggingFetch] returns, applied to a request whose
    [fetch] settles as [outcome]. *)
Definition loggingFetch (outcome : result (Response stream)) : Probe.M (Response stream) :=
  Probe.push (info "outgoing-request" "OutgoingRequest");;
  let* response := Probe.await outcome in
  Probe.push (info "incoming-response" "IncomingResponse");;
  mret response.

(** The white space and the line terminators that [trim] removes, by
    their UTF-8 encoding.  One byte: U+0009 to U+000D and U+0020. *)
Definition is_space (c : Ascii.ascii) : bool :=
  let n := Ascii.nat_of_ascii c in
  bool_decide (n = 32 \/ 9 <= n <= 13)%nat.

(** Two bytes: U+00A0 (C2 A0). *)
Definition is_space2 (c1 c2 : Ascii.ascii) : bool :=
  bool_decide (Ascii.nat_of_ascii c1 = 194 /\ Ascii.nat_of_ascii c2 = 160)%nat.

(** Three bytes: U+1680 (E1 9A 80); U+2000 to U+200A, U+2028, U+2029 and
    U+202F (E2 80 80 to 8A, A8, A9, AF); U+205F (E2 81 9F); U+3000
    (E3 80 80); U+FEFF (EF BB BF). *)
Definition is_space3 (c1 c2 c3 : Ascii.ascii) : bool :=
  let n1 := Ascii.nat_of_ascii c1 in
  let n2 := Ascii.nat_of_ascii c2 in
  let n3 := Ascii.nat_of_ascii c3 in
  bool_decide
    ((n1 = 225 /\ n2 = 154 /\ n3 = 128) \/
     (n1 = 226 /\ n2 = 128 /\ (128 <= n3 <= 138 \/ n3 = 168 \/ n3 = 169 \/ n3 = 175)) \/
     (n1 = 226 /\ n2 = 129 /\ n3 = 159) \/
     (n1 = 227 /\ n2 = 128 /\ n3 = 128) \/
     (n1 = 239 /\ n2 = 187 /\ n3 = 191))%nat.

(** [s.trim() === '']: [s] is made of such characters only. *)
Fixpoint blank (s : string) : bool :=
  match s with
  | EmptyString => true
  | String c1 rest1 =>
      if is_space c1 then blank rest1
      else
        match rest1 with
        | EmptyString => false
        | String c2 rest2 =>
            if is_space2 c1 c2 then blank rest2
            else
              match rest2 with
              | EmptyString => false
              | String c3 rest3 => is_space3 c1 c2 c3 && blank rest3
              end
        end
  end.

(** A JSON value used as a condition. *)
Definition truthy_value (v : jsvalue) : bool :=
  match v with
  | Undefined => false
  | Value JNull => false
  | Value (JBool b) => b
  | Value (JNumber n) => negb (Qeq_bool n 0)
  | Value (JString s) => negb (bool_decide (s = ""))
  | Value (JArray _) | Value (JObject _) => true
  end.

(** [v === 1] and [v === true] *)
Definition is_one (v : jsvalue) : bool :=
  match v with Value (JNumber n) => Qeq_bool n 1 | _ => false end.

Definition is_true (v : jsvalue) : bool :=
  match v with Value (JBool b) => b | _ => false end.

(** The test for the tool response made on an event with data:
    [parsed.id === 1 && parsed.result], inside a [try] that ignores what
    is thrown; on success, the value of [parsed.result?.isError === true]. *)
Definition toolResponse (event : EventSourceMessage) : option bool :=
  if bool_decide (ev_data event = "") then None
  else
    match parsed event with
    | Ok p =>
        match get_prop p "id", get_prop p "result" with
        | Ok id, Ok result =>
            if is_one id && truthy_value result then
              match result with
              | Value r =>
                  match get_prop r "isError" with
                  | Ok isError => Some (is_true isError)
                  | Throw _ => None
                  end
              | Undefined => None
              end
            else None
        | _, _ => None
        end
    | Throw _ => None
    end.

(** The variables of step 3. *)
Record scan := mkScan {
  hasEventId : bool;
  hasPrimingEvent : bool;
  primingEventIsFirst : bool;
  hasRetryField : bool;
  retryValue : option Z;
  lastEventId : option string;
  eventCount : nat;
  receivedToolResponse : bool
}.

Definition scan0 : scan := mkScan false false false false None None 0 false.

(** One turn of the [while (true)] loop over the POST stream, or one call
    of [onRetry]. *)
Definition scan_item (v : scan) (i : item) : Probe.M scan :=
  match i with
  | OnRetry retryMs =>
      mret (mkScan (hasEventId v) (hasPrimingEvent v) (primingEventIsFirst v)
              true (Some retryMs) (lastEventId v) (eventCount v) (receivedToolResponse v))
  | Event event =>
      let count := S (eventCount v) in
      (* Track the last event ID for reconnection *)
      let* v := (if truthy (ev_id event) then
             (* Check if this is a priming event (empty or minimal data) *)
             let isPriming :=
               bool_decide (ev_data event = "") || bool_decide (ev_data event = "{}")
               || blank (ev_data event) in
             Probe.push (info "incoming-sse-event" "IncomingSseEvent");;
             mret (mkScan true
                     (isPriming || hasPrimingEvent v)
                     ((isPriming && bool_decide (count = 1%nat)) || primingEventIsFirst v)
                     (hasRetryField v) (retryValue v) (ev_id event) count
                     (receivedToolResponse v))
           else
             mret (mkScan (hasEventId v) (hasPrimingEvent v) (primingEventIsFirst v)
                     (hasRetryField v) (retryValue v) (lastEventId v) count
                     (receivedToolResponse v))) in
      (* Check if this is the tool response *)
      match toolResponse event with
      | Some isError =>
          Probe.push
            (mkCheck "incoming-sse-event" "IncomingSseEvent"
               (if isError then FAILURE else INFO)
               (if isError then Some "Tool call failed" else None));;
          mret (mkScan (hasEventId v) (hasPrimingEvent v) (primingEventIsFirst v)
                  (hasRetryField v) (retryValue v) (lastEventId v) (eventCount v)
                  true)
      | None => mret v
      end
  end.

Fixpoint scan_items (v : scan) (l : list item) : Probe.M scan :=
  match l with
  | [] => mret v
  | i :: rest => let* v := scan_item v i in scan_items v rest
  end.

(** The loop over the GET stream: [Some true] once the tool response has
    arrived (the loop breaks), the end of the list when it has not. *)
Fixpoint resume_items (l : list item) : Probe.M bool :=
  match l with
  | [] => mret false
  | OnRetry _ :: rest => resume_items rest
  | Event event :: rest =>
      (* Log each event received on GET stream *)
      Probe.push (info "incoming-sse-event" "IncomingSseEvent");;
      match toolResponse event with
      | Some _ => mret true
      | None => resume_items rest
      end
  end.

Definition resume_stream (s : stream) : Probe.M bool :=
  let* received := resume_items (items s) in
  if received then mret true
  else Probe.await (ending s);; mret false.

(** Step 4 of [run]. *)
Definition reconnect (w : world) (sessionId : option string) (v : scan) : Probe.M unit :=
  if negb (receivedToolResponse v) && truthy (lastEventId v) && truthy sessionId then
    (* Make a GET request with Last-Event-ID to get the tool response *)
    let* getResponse := loggingFetch (get w) in
    match (if ok getResponse then responseBody getResponse else None) with
    | Some body =>
        let* receivedToolResponse := resume_stream body in
        Probe.push
          (mkCheck "server-sse-disconnect-resume" "ServerDisconnectResume"
             (if receivedToolResponse then SUCCESS else WARNING)
             (if negb receivedToolResponse
              then Some "Server did not send tool response after client reconnected with Last-Event-ID"
              else None))
    | None =>
        (* Check if server doesn't support standalone GET streams *)
        if bool_decide (status getResponse = 405) then
          Probe.push (info "server-sse-disconnect-resume" "ServerDisconnectResume")
        else
          Probe.push
            (mkCheck "server-sse-disconnect-resume" "ServerDisconnectResume" WARNING
               (Some ("Server did not accept reconnection with Last-Event-ID (HTTP " +:+
                      pretty (status getResponse) +:+ ")")))
    end
  else if receivedToolResponse v then
    (* Tool response was received on the initial POST stream (server didn't disconnect) *)
    Probe.push (info "server-sse-disconnect-resume" "ServerDisconnectResume")
  else
    Probe.push (info "server-sse-disconnect-resume" "ServerDisconnectResume").

(** The [try] block of [run]. *)
Definition probe (w : world) : Probe.M unit :=
  (* Step 1: Initialize session with the server *)
  let* sessionId := initialize_session (session w) in
  Probe.when (negb (truthy sessionId))
    (Probe.push (mkCheck "server-sse-polling-session" "ServerSSEPollingSession" WARNING None));;
  (* Step 2: Call test_reconnection tool via raw fetch to observe SSE behavior *)
  let* postResponse := loggingFetch (post w) in
  if negb (ok postResponse) then
    (* Check if tool doesn't exist (method not found or similar) *)
    if bool_decide (status postResponse = 400 \/ status postResponse = 404) then
      Probe.push
        (mkCheck "server-sse-test-reconnection-tool" "ServerTestReconnectionTool" WARNING
           (Some ("Server does not implement test_reconnection tool (HTTP " +:+
                  pretty (status postResponse) +:+
                  "). This tool is recommended for testing SSE polling behavior.")));;
      Probe.return_checks
    else
      Probe.push
        (mkCheck "server-sse-post-request" "ServerSSEPostRequest" FAILURE
           (Some ("Server returned HTTP " +:+ pretty (status postResponse))));;
      Probe.return_checks
  else if negb (is_event_stream (contentType postResponse)) then
    (* Check if server returned SSE stream *)
    Probe.push (info "server-sse-content-type" "ServerSSEContentType");;
    Probe.return_checks
  else
    match responseBody postResponse with
    | None =>
        Probe.push
          (mkCheck "server-sse-polling-stream" "ServerSSEPollingStream" FAILURE
             (Some "Response body is null"));;
        Probe.return_checks
    | Some body =>
        (* Step 3: Parse SSE stream for priming event and tool response *)
        let* v := scan_items scan0 (items body) in
        Probe.await (ending body);;
        (* Log stream closure *)
        Probe.push (info "stream-closed" "StreamClosed");;
        (* Check 1: Server SHOULD send priming event with ID on POST SSE stream *)
        Probe.push
          (if negb (hasPrimingEvent v) then
             mkCheck "server-sse-priming-event" "ServerSendsPrimingEvent" WARNING
               (Some "Server did not send priming event with id and empty data on POST SSE stream. This is recommended for resumability.")
           else if negb (primingEventIsFirst v) then
             mkCheck "server-sse-priming-event" "ServerSendsPrimingEvent" WARNING
               (Some "Priming event was not sent first. It should be sent immediately when the SSE stream is established.")
           else
             mkCheck "server-sse-priming-event" "ServerSendsPrimingEvent" SUCCESS None);;
        (* Check 2: Server SHOULD send retry field in priming event *)
        Probe.push
          (mkCheck "server-sse-retry-field" "ServerSendsRetryField"
             (if hasRetryField v then SUCCESS else WARNING)
             (if negb (hasRetryField v)
              then Some "Server did not send retry field. This is recommended for controlling client reconnection timing."
              else None));;
        (* Step 4: If tool response wasn't received, reconnect with Last-Event-ID *)
        reconnect w sessionId v
    end.

(** The [catch] block of [run]. *)
Definition on_error (error : exn) : Probe.M unit :=
  Probe.push
    (mkCheck "server-sse-polling-error" "ServerSSEPollingTest" FAILURE
       (Some ("Error: " +:+ error_text error))).

Definition run (w : world) : result (list ConformanceCheck) * Probe.locals :=
  Probe.async_checks
    (Probe.try_finally
       (Probe.try_catch (probe w) on_error)
       (cleanup (session w))).

End ServerSSEPollingScenario.

(** ** Further observations *)

(** A check whose error message fits its status: a FAILURE says why, a
    SUCCESS or INFO carries no error message. *)
Definition explained (c : ConformanceCheck) : Prop :=
  (ck_status c = FAILURE -> ck_errorMessage c <> None) /\
  (ck_status c = SUCCESS \/ ck_status c = INFO -> ck_errorMessage c = None).

Module RetryTrace.
Import SSERetryScenario.

(** The state a request leaves when only the response log grows. *)
Definition logged (res : ServerResponse) (ops : list res_op) (s : t) : t :=
  mkState (checks s) (toolStreamCloseTime s) (getReconnectionTime s)
    (getConnectionCount s) (lastEventIds s) (retryValue s) (eventIdCounter s)
    (sessionId s) (pendingToolCallId s) (getResponseStream s)
    (wire s ++ ((λ op, (res, op)) <$> ops)) (timers s).

(** The status codes the harness answers with. *)
Definition is_head (op : res_op) : bool :=
  match op with WriteHead _ _ => true | _ => false end.

Definition is_end (op : res_op) : bool :=
  match op with End _ => true | _ => false end.

(** A head of status 200 names the session. *)
Definition names_session (sid : string) (e : ServerResponse * res_op) : Prop :=
  match e.2 with
  | WriteHead 200 hs => ("mcp-session-id", sid) ∈ hs
  | _ => True
  end.

(** The inputs that are timer callbacks. *)
Definition is_timeout (i : input) : bool :=
  match i with Timeout _ _ => true | Request _ _ _ => false end.

(** The instant of a GET request. *)
Definition get_instant (i : input) : option Q :=
  match i with
  | Request req _ now => if bool_decide (method req = "GET") then Some now else None
  | Timeout _ _ => None
  end.

End RetryTrace.

(** ** Further observations of the probes *)

Module ProbeTrace.

(** A computation that keeps a property of all recorded checks. *)
Definition records {A} (P : ConformanceCheck -> Prop) (m : Probe.M A) : Prop :=
  forall st, Forall P (Probe.checks st) -> Forall P (Probe.checks (m st).2).

(** The locals after [cs] more checks. *)
Definition pushed (cs : list ConformanceCheck) (st : Probe.locals) : Probe.locals :=
  Probe.mkLocals (Probe.checks st ++ cs) (Probe.client st) (Probe.closeCalls st).

End ProbeTrace.

Module StreamsTrace.
Import ServerSSEMultipleStreamsScenario.

(** The check of the [catch] block and the check on a missing session
    id. *)
Definition error_check (e : exn) : ConformanceCheck :=
  mkCheck "server-sse-multiple-streams-error" "ServerSSEMultipleStreamsTest" FAILURE
    (Some ("Error: " +:+ error_text e)).

Definition session_check : ConformanceCheck :=
  mkCheck "server-sse-multiple-streams-session" "ServerSSEMultipleStreamsSession"
    WARNING None.

End StreamsTrace.

Module PollingTrace.
Import ServerSSEPollingScenario.

(** The events and the retry hints among the items of a stream. *)
Definition events (l : list item) : list EventSourceMessage :=
  omap (λ i, match i with Event e => Some e | OnRetry _ => None end) l.

Definition retries (l : list item) : list Z :=
  omap (λ i, match i with OnRetry ms => Some ms | Event _ => None end) l.

(** An event the POST loop takes for a priming event: it has an id and
    its data is empty, [{}] or blank. *)
Definition is_priming (e : EventSourceMessage) : bool :=
  truthy (ev_id e) &&
  (bool_decide (ev_data e = "") || bool_decide (ev_data e = "{}") || blank (ev_data e)).

(** An event that carries the result of request 1. *)
Definition is_tool_response (e : EventSourceMessage) : bool :=
  match toolResponse e with Some _ => true | None => false end.

(** The variables of step 3 after one more item of the POST stream. *)
Definition advance (v : scan) (i : item) : scan :=
  match i with
  | OnRetry retryMs =>
      mkScan (hasEventId v) (hasPrimingEvent v) (primingEventIsFirst v)
        true (Some retryMs) (lastEventId v) (eventCount v) (receivedToolResponse v)
  | Event e =>
      mkScan (hasEventId v || truthy (ev_id e))
        (hasPrimingEvent v || is_priming e)
        (primingEventIsFirst v || (is_priming e && bool_decide (eventCount v = 0%nat)))
        (hasRetryField v) (retryValue v)
        (if truthy (ev_id e) then ev_id e else lastEventId v)
        (S (eventCount v))
        (receivedToolResponse v || is_tool_response e)
  end.

(** The checks the POST loop records for an item. *)
Definition logged (i : item) : list ConformanceCheck :=
  match i with
  | OnRetry _ => []
  | Event e =>
      (if truthy (ev_id e) then [info "incoming-sse-event" "IncomingSseEvent"] else []) ++
      match toolResponse e with
      | Some isError =>
          [mkCheck "incoming-sse-event" "IncomingSseEvent"
             (if isError then FAILURE else INFO)
             (if isError then Some "Tool call failed" else None)]
      | None => []
      end
  end.

(** The checks recorded before the stream is read: the session WARNING if
    there is no session id, and the log of the POST. *)
Definition preamble (sessionId : option string) : list ConformanceCheck :=
  (if truthy sessionId then []
   else [mkCheck "server-sse-polling-session" "ServerSSEPollingSession" WARNING None]) ++
  [info "outgoing-request" "OutgoingRequest"; info "incoming-response" "IncomingResponse"].

(** The events the GET loop reads: up to and including the first one that
    carries the result. *)
Fixpoint read_until_response (l : list EventSourceMessage) : list EventSourceMessage :=
  match l with
  | [] => []
  | e :: rest => e :: if is_tool_response e then [] else read_until_response rest
  end.

(** The scenario reconnects when the result did not arrive on the POST
    stream and both a last event id and a session id are at hand. *)
Definition reconnects (sessionId : option string) (v : scan) : bool :=
  negb (receivedToolResponse v) && truthy (lastEventId v) && truthy sessionId.

(** The two verdicts on the POST stream, as functions of the variables of
    step 3. *)
Definition priming_verdict (v : scan) : ConformanceCheck :=
  if negb (hasPrimingEvent v) then
    mkCheck "server-sse-priming-event" "ServerSendsPrimingEvent" WARNING
      (Some "Server did not send priming event with id and empty data on POST SSE stream. This is recommended for resumability.")
  else if negb (primingEventIsFirst v) then
    mkCheck "server-sse-priming-event" "ServerSendsPrimingEvent" WARNING
      (Some "Priming event was not sent first. It should be sent immediately when the SSE stream is established.")
  else
    mkCheck "server-sse-priming-event" "ServerSendsPrimingEvent" SUCCESS None.

Definition retry_verdict (v : scan) : ConformanceCheck :=
  mkCheck "server-sse-retry-field" "ServerSendsRetryField"
    (if hasRetryField v then SUCCESS else WARNING)
    (if negb (hasRetryField v)
     then Some "Server did not send retry field. This is recommended for controlling client reconnection timing."
     else None).

(** The check of the [catch] block. *)
Definition error_check (e : exn) : ConformanceCheck :=
  mkCheck "server-sse-polling-error" "ServerSSEPollingTest" FAILURE
    (Some ("Error: " +:+ error_text e)).

(** The checks with a given id. *)
Definition with_id (id : string) (cs : list ConformanceCheck) : list ConformanceCheck :=
  filter (λ c, ck_id c = id) cs.

(** The ids of the checks that log traffic, the session, the end of the
    stream, the reconnection and a caught error: all but the two verdicts
    on the POST stream and the early exits. *)
Definition log_ids : list string :=
  ["server-sse-polling-session"; "outgoing-request"; "incoming-response";
   "incoming-sse-event"; "stream-closed"; "server-sse-disconnect-resume";
   "server-sse-polling-error"].

(** What a run has recorded when the POST stream has ended in order and
    step 4 begins. *)
Definition post_report (sessionId : option string) (l : list item) : list ConformanceCheck :=
  let v := foldl advance scan0 l in
  preamble sessionId ++ concat (logged <$> l) ++
  [info "stream-closed" "StreamClosed"; priming_verdict v; retry_verdict v].

(** The check recorded before one of the early [return checks]. *)
Definition early_check (r : Response stream) : ConformanceCheck :=
  if negb (ok r) then
    if bool_decide (status r = 400 \/ status r = 404) then
      mkCheck "server-sse-test-reconnection-tool" "ServerTestReconnectionTool" WARNING
        (Some ("Server does not implement test_reconnection tool (HTTP " +:+
               pretty (status r) +:+
               "). This tool is recommended for testing SSE polling behavior."))
    else
      mkCheck "server-sse-post-request" "ServerSSEPostRequest" FAILURE
        (Some ("Server returned HTTP " +:+ pretty (status r)))
  else if negb (is_event_stream (contentType r)) then
    info "server-sse-content-type" "ServerSSEContentType"
  else
    mkCheck "server-sse-polling-stream" "ServerSSEPollingStream" FAILURE
      (Some "Response body is null").

(** An event with an id that can serve as [Last-Event-ID]. *)
Definition has_id (e : EventSourceMessage) : bool := truthy (ev_id e).

(** The POST was answered by an event stream with a body. *)
Definition stream_opened (w : world) (body : stream) : Prop :=
  newClient (session w) = Ok () /\
  newTransport (session w) = Ok () /\
  connect (session w) = Ok () /\
  exists postResponse,
    post w = Ok postResponse /\
    ok postResponse = true /\
    is_event_stream (contentType postResponse) = true /\
    responseBody postResponse = Some body.

End PollingTrace.


(** ** The scenario registry ([scenarios/index.ts]) *)

Module Registry.
Section registry.
Context {Scenario : Type}.

(** [new Map([['initialize', new InitializeScenario()]])].  A [Map] is
    kept as its entries in insertion order. *)
Definition scenarios (initialize : Scenario) : list (string * Scenario) :=
  [("initialize", initialize)].

(** [map.set(name, scenario)]: the value of a key that is present is
    replaced where it stands, a new key is added at the end. *)
Fixpoint map_set (name : string) (scenario : Scenario) (m : list (string * Scenario))
    : list (string * Scenario) :=
  match m with
  | [] => [(name, scenario)]
  | (k, v) :: rest =>
      if bool_decide (k = name) then (k, scenario) :: rest
      else (k, v) :: map_set name scenario rest
  end.

(** [map.get(name)] *)
Fixpoint map_get (name : string) (m : list (string * Scenario)) : option Scenario :=
  match m with
  | [] => None
  | (k, v) :: rest => if bool_decide (k = name) then Some v else map_get name rest
  end.

Definition registerScenario (name : string) (scenario : Scenario)
    (m : list (string * Scenario)) : list (string * Scenario) :=
  map_set name scenario m.

Definition getScenario (name : string) (m : list (string * Scenario)) : option Scenario :=
  map_get name m.

(** [Array.from(scenarios.keys())] *)
Definition listScenarios (m : list (string * Scenario)) : list string := m.*1.

(** The registry after a series of [registerScenario] calls. *)
Definition registered (initialize : Scenario) (calls : list (string * Scenario))
    : list (string * Scenario) :=
  foldl (λ m call, registerScenario call.1 call.2 m) (scenarios initialize) calls.

End registry.
End Registry.

(** ** The mock authorization server ([createAuthServer]) *)

(** The four route handlers and the variables they share.  A request is
    taken as express hands it to its handler: query and body are parsed,
    query parameters are strings or absent, as the handlers' casts say.
    [getAuthBaseUrl()] is the parameter [authBaseUrl].  The request
    logger installed when [loggingEnabled] is set is not part of the
    model. *)
Module AuthServer.

(** A parameter of [req.query] as the query parser gives it: a string,
    an array when the name is repeated, an object when the name has
    brackets. *)
#[local] Unset Elimination Schemes.
Inductive query_value :=
  | QText (s : string)
  | QList (items : list query_value)
  | QObject (fields : list (string * query_value)).
#[local] Set Elimination Schemes.

Record TokenRequestResult := mkTokenResult {
  token : string;
  scopes : list string
}.

Record TokenRequestError := mkTokenError {
  error : string;
  errorDescription : option string;
  statusCode : option Z
}.

(** What [onTokenRequest] returns; ['error' in result] tells the two
    apart. *)
Inductive tokenOutcome :=
  | Issued (result : TokenRequestResult)
  | Refused (result : TokenRequestError).

(** The argument of [onTokenRequest]. *)
Record tokenRequestData := mkTokenRequestData {
  rd_scope : jsvalue;
  rd_grantType : jsvalue;
  rd_timestamp : string;
  rd_body : jsvalue;
  rd_authBaseUrl : string;
  rd_tokenEndpoint : string;
  rd_authorizationHeader : option string
}.

(** The options after the defaults of the destructuring are applied;
    [tokenVerifier] tells whether a verifier was given. *)
Record AuthServerOptions := mkOptions {
  isOpenIdConfiguration : bool;
  routePrefix : string;
  scopesSupported : option (list string);
  grantTypesSupported : list string;
  tokenEndpointAuthMethodsSupported : list string;
  tokenEndpointAuthSigningAlgValuesSupported : option (list string);
  clientIdMetadataDocumentSupported : option bool;
  tokenVerifier : bool;
  onTokenRequest : option (tokenRequestData -> result tokenOutcome);
  (* called with [clientId], [scope] and [timestamp] *)
  onAuthorizationRequest :
    option (option query_value -> option query_value -> string -> result unit)
}.

Definition default_options : AuthServerOptions :=
  mkOptions false "" None ["authorization_code"; "refresh_token"] ["none"] None None
    false None None.

(** A parsed URL: what precedes the query, and its search parameters. *)
Record URL := mkURL {
  url_base : string;
  searchParams : list (string * string)
}.

(** [searchParams.set(name, value)]: the first parameter of that name
    takes the value and the others of that name are removed; if there is
    none the parameter is added at the end. *)
Fixpoint searchParams_set (name value : string) (params : list (string * string))
    : list (string * string) :=
  match params with
  | [] => [(name, value)]
  | (k, v) :: rest =>
      if bool_decide (k = name)
      then (k, value) :: filter (λ p, p.1 <> name) rest
      else (k, v) :: searchParams_set name value rest
  end.

(** A request as routed to one of the four handlers, with what the
    handler reads from it and from the clock.  A parameter that the query
    does not have is [None]; a request whose body no parser has read has
    the body [Undefined]. *)
Inductive request :=
  | GetMetadata
  | GetAuthorize
      (client_id : option query_value)  (* req.query.client_id *)
      (scope : option query_value)      (* req.query.scope *)
      (state : option query_value)      (* req.query.state *)
      (redirect_uri : result URL)       (* new URL(req.query.redirect_uri) *)
      (timestamp : string)              (* new Date().toISOString() *)
  | PostToken
      (body : jsvalue)                  (* req.body *)
      (authorization : option string)
      (timestamp : string)              (* new Date().toISOString() *)
      (now : Z)                         (* Date.now() *)
  | PostRegister (body : jsvalue).

Inductive response :=
  | Json (status : Z) (body : json)
  | Redirect (location : URL)
  | Failed (e : exn).               (* the handler throws or its promise rejects *)

(** The variables the handlers close over: the checks that the handlers
    push on the [checks] array that was passed in (those of the request
    logger are left out), [lastAuthorizationScopes], and the calls of
    [tokenVerifier.registerToken]. *)
Record vars := mkVars {
  checks : list ConformanceCheck;
  lastAuthorizationScopes : list string;
  registeredTokens : list (string * list string)
}.

Definition init (checks : list ConformanceCheck) : vars := mkVars checks [] [].

Definition success (id name : string) : ConformanceCheck := mkCheck id name SUCCESS None.

(** [s.split(' ')] *)
Fixpoint split_space (s : string) : list string :=
  match s with
  | EmptyString => [""]
  | String c rest =>
      if bool_decide (Ascii.nat_of_ascii c = 32%nat) then "" :: split_space rest
      else
        match split_space rest with
        | first :: others => String c first :: others
        | [] => [String c ""]
        end
  end.

Definition strings (l : list string) : json := JArray (JString <$> l).

(** A field of [req.body], for the keys the handlers read ([scope],
    [grant_type], [client_name], [redirect_uris]); reading it throws when
    there is no body. *)
Definition field (k : string) (body : jsvalue) : result jsvalue :=
  match body with
  | Undefined =>
      Throw (ErrorObject ("Cannot read properties of undefined (reading '" +:+ k +:+ "')"))
  | Value v => get_prop v k
  end.

(** A query parameter used as a condition. *)
Definition given (v : option query_value) : bool :=
  match v with
  | Some (QText s) => negb (bool_decide (s = ""))
  | Some _ => true
  | None => false
  end.

(** A query parameter converted to a string, as [searchParams.set]
    does: an array is its elements joined by commas, and an object with
    a field [toString] of its own cannot be converted. *)
Fixpoint to_text (v : query_value) : result string :=
  match v with
  | QText s => Ok s
  | QList items =>
      match
        (fix texts (l : list query_value) : result (list string) :=
           match l with
           | [] => Ok []
           | x :: rest =>
               match to_text x with
               | Throw e => Throw e
               | Ok first =>
                   match texts rest with
                   | Throw e => Throw e
                   | Ok others => Ok (first :: others)
                   end
               end
           end) items
      with
      | Throw e => Throw e
      | Ok parts => Ok (ServerSSEMultipleStreamsScenario.join "," parts)
      end
  | QObject fields =>
      if bool_decide ("toString" ∈ fields.*1)
      then Throw (ErrorObject "Cannot convert object to primitive value")
      else Ok "[object Object]"
  end.

(** [scopeParam ? scopeParam.split(' ') : []]: only a string has a
    method [split]. *)
Definition split_scope (scopeParam : option query_value) : result (list string) :=
  if given scopeParam then
    match scopeParam with
    | Some (QText s) => Ok (split_space s)
    | _ => Throw (ErrorObject "scopeParam.split is not a function")
    end
  else Ok [].

(** [v || d] where [d] is a JSON value *)
Definition or_else (v : jsvalue) (d : json) : json :=
  match v with
  | Value x => if ServerSSEPollingScenario.truthy_value v then x else d
  | Undefined => d
  end.

(** The handler of [app.get(metadataPath, ...)]. *)
Definition handleMetadata (o : AuthServerOptions) (authBaseUrl : string) (s : vars)
    : vars * response :=
  let metadata :=
    [("issuer", JString authBaseUrl);
     ("authorization_endpoint", JString (authBaseUrl +:+ routePrefix o +:+ "/authorize"));
     ("token_endpoint", JString (authBaseUrl +:+ routePrefix o +:+ "/token"));
     ("registration_endpoint", JString (authBaseUrl +:+ routePrefix o +:+ "/register"));
     ("response_types_supported", strings ["code"]);
     ("grant_types_supported", strings (grantTypesSupported o));
     ("code_challenge_methods_supported", strings ["S256"]);
     ("token_endpoint_auth_methods_supported", strings (tokenEndpointAuthMethodsSupported o))] ++
    match tokenEndpointAuthSigningAlgValuesSupported o with
    | Some algs => [("token_endpoint_auth_signing_alg_values_supported", strings algs)]
    | None => []
    end ++
    (* Add scopes_supported if provided *)
    match scopesSupported o with
    | Some supported => [("scopes_supported", strings supported)]
    | None => []
    end ++
    (* Add client_id_metadata_document_supported if provided *)
    match clientIdMetadataDocumentSupported o with
    | Some b => [("client_id_metadata_document_supported", JBool b)]
    | None => []
    end ++
    (* Add OpenID Configuration specific fields *)
    (if isOpenIdConfiguration o then
       [("jwks_uri", JString (authBaseUrl +:+ "/.well-known/jwks.json"));
        ("subject_types_supported", strings ["public"]);
        ("id_token_signing_alg_values_supported", strings ["RS256"])]
     else []) in
  (mkVars (checks s ++ [success "authorization-server-metadata" "AuthorizationServerMetadata"])
     (lastAuthorizationScopes s) (registeredTokens s),
   Json 200 (JObject metadata)).

(** The handler of the authorization endpoint. *)
Definition handleAuthorize (o : AuthServerOptions)
    (client_id scope state : option query_value)
    (redirect_uri : result URL) (timestamp : string) (s : vars) : vars * response :=
  let s :=
    mkVars (checks s ++ [success "authorization-request" "AuthorizationRequest"])
      (lastAuthorizationScopes s) (registeredTokens s) in
  (* Track scopes from authorization request for token issuance *)
  match split_scope scope with
  | Throw e => (s, Failed e)
  | Ok scopes =>
      let s := mkVars (checks s) scopes (registeredTokens s) in
      match (match onAuthorizationRequest o with
             | Some hook => hook client_id scope timestamp
             | None => Ok ()
             end) with
      | Throw e => (s, Failed e)
      | Ok _ =>
          match redirect_uri with
          | Throw e => (s, Failed e)
          | Ok redirectUrl =>
              let params :=
                searchParams_set "code" "test-auth-code" (searchParams redirectUrl) in
              match state with
              | Some st =>
                  if given state then
                    match to_text st with
                    | Throw e => (s, Failed e)
                    | Ok text =>
                        (s, Redirect (mkURL (url_base redirectUrl)
                                        (searchParams_set "state" text params)))
                    end
                  else (s, Redirect (mkURL (url_base redirectUrl) params))
              | None => (s, Redirect (mkURL (url_base redirectUrl) params))
              end
          end
      end
  end.

(** The handler of the token endpoint. *)
Definition handleToken (o : AuthServerOptions) (authBaseUrl : string)
    (body : jsvalue) (authorization : option string)
    (timestamp : string) (now : Z) (s : vars) : vars * response :=
  match field "scope" body, field "grant_type" body with
  | Throw e, _ | _, Throw e => (s, Failed e)
  | Ok requestedScope, Ok grantType =>
  let s :=
    mkVars (checks s ++ [success "token-request" "TokenRequest"])
      (lastAuthorizationScopes s) (registeredTokens s) in
  let outcome :=
    match onTokenRequest o with
    | Some hook =>
        hook (mkTokenRequestData requestedScope grantType timestamp body authBaseUrl
                (authBaseUrl +:+ routePrefix o +:+ "/token") authorization)
    | None =>
        Ok (Issued (mkTokenResult ("test-token-" +:+ pretty now) (lastAuthorizationScopes s)))
    end in
  match outcome with
  | Throw e => (s, Failed e)
  | Ok (Refused result) =>
      (* Check if result is an error *)
      (s,
       Json (match statusCode result with
             | Some code => if bool_decide (code = 0) then 400 else code
             | None => 400
             end)
         (JObject
            ([("error", JString (error result))] ++
             match errorDescription result with
             | Some d => [("error_description", JString d)]
             | None => []
             end)))
  | Ok (Issued result) =>
      (* Register token with verifier if provided *)
      let s :=
        if tokenVerifier o then
          mkVars (checks s) (lastAuthorizationScopes s)
            (registeredTokens s ++ [(token result, scopes result)])
        else s in
      (s,
       Json 200
         (JObject
            ([("access_token", JString (token result));
              ("token_type", JString "Bearer");
              ("expires_in", JNumber 3600)] ++
             if bool_decide (0 < length (scopes result))%nat
             then [("scope",
                    JString (ServerSSEMultipleStreamsScenario.join " " (scopes result)))]
             else [])))
  end
  end.

(** The handler of the registration endpoint. *)
Definition handleRegister (body : jsvalue) (s : vars) : vars * response :=
  match field "client_name" body, field "redirect_uris" body with
  | Throw e, _ | _, Throw e => (s, Failed e)
  | Ok client_name, Ok redirect_uris =>
      (mkVars (checks s ++ [success "client-registration" "ClientRegistration"])
         (lastAuthorizationScopes s) (registeredTokens s),
       Json 201
         (JObject
            [("client_id", JString "test-client-id");
             ("client_secret", JString "test-client-secret");
             ("client_name", or_else client_name (JString "test-client"));
             ("redirect_uris", or_else redirect_uris (JArray []))]))
  end.

Definition handle (o : AuthServerOptions) (authBaseUrl : string) (s : vars) (r : request)
    : vars * response :=
  match r with
  | GetMetadata => handleMetadata o authBaseUrl s
  | GetAuthorize client_id scope state redirect_uri timestamp =>
      handleAuthorize o client_id scope state redirect_uri timestamp s
  | PostToken body authorization timestamp now =>
      handleToken o authBaseUrl body authorization timestamp now s
  | PostRegister body => handleRegister body s
  end.

(** The state after a series of requests, and the responses given. *)
Definition serve (o : AuthServerOptions) (authBaseUrl : string) (s : vars)
    (requests : list request) : vars * list response :=
  foldl (λ acc r, let '(s', out) := handle o authBaseUrl acc.1 r in (s', acc.2 ++ [out]))
    (s, []) requests.

(** *** Observations *)

(** The [scope] parameters of the authorization requests, in order,
    those requests left out whose [scope] is not a string: arrays and
    objects. *)
Definition asked_scopes (requests : list request) : list (option string) :=
  omap (λ r, match r with
             | GetAuthorize _ None _ _ _ => Some None
             | GetAuthorize _ (Some (QText scope)) _ _ _ => Some (Some scope)
             | _ => None
             end) requests.

(** The [scope] parameter of the latest of these authorization requests,
    when it had one that is not empty. *)
Definition granted_scope (requests : list request) : option string :=
  match last (asked_scopes requests) with
  | Some (Some scope) => if bool_decide (scope = "") then None else Some scope
  | _ => None
  end.

(** The access token and the scope a response hands out. *)
Definition issued (r : response) : option (string * option string) :=
  match r with
  | Json 200 (JObject fields) =>
      match assoc "access_token" fields with
      | Some (JString t) =>
          Some (t, match assoc "scope" fields with
                   | Some (JString s) => Some s
                   | _ => None
                   end)
      | _ => None
      end
  | _ => None
  end.

(** The same for a call of [registerToken]. *)
Definition registration (call : string * list string) : string * option string :=
  (call.1,
   if bool_decide (0 < length call.2)%nat
   then Some (ServerSSEMultipleStreamsScenario.join " " call.2)
   else None).

End AuthServer.
(** * Properties *)

Import SSERetryScenario.

(** ** Comparisons of instants *)

Lemma Qltb_lt (x y : Q) : Qltb x y = true <-> (x < y)%Q.
Proof.
  unfold Qltb. rewrite negb_true_iff. split.
  - intros H. apply Qnot_le_lt. intros Hle.
    apply Qle_bool_iff in Hle. congruence.
  - intros H. destruct (Qle_bool y x) eqn:E; [|done].
    apply Qle_bool_iff in E. lra.
Qed.

Lemma Qltb_ge (x y : Q) : Qltb x y = false <-> (y <= x)%Q.
Proof.
  unfold Qltb. rewrite negb_false_iff. apply Qle_bool_iff.
Qed.

(** *** Rounding to a double *)

Lemma nearest_even_nonneg (x : Q) : (0 <= x)%Q -> 0 <= nearest_even x.
Proof.
  intros Hx. unfold nearest_even.
  assert (0 <= Qfloor x) as Hf by (by apply (Qfloor_resp_le 0 x)).
  repeat case_match; lia.
Qed.

(** Rounding keeps the sign: a difference that is not positive gives a
    delay that is not positive, and the other way round. *)
Lemma round64_sign (x : Q) :
  ((x <= 0)%Q -> (round64 x <= 0)%Q) /\ ((0 <= x)%Q -> (0 <= round64 x)%Q).
Proof.
  unfold round64. destruct (Qeq_bool x 0) eqn:E0; [split; intros; lra|].
  set (e := Z.max (Qlog2 (Qabs x) - 52) (-1074)).
  assert (0 < 2 ^ e)%Q as Hp by (by apply Qpower_0_lt).
  assert (0 <= Qabs x / 2 ^ e)%Q as Hs.
  { apply Qle_shift_div_l; [exact Hp|]. rewrite Qmult_0_l. apply Qabs_nonneg. }
  apply nearest_even_nonneg in Hs.
  assert (0 <= inject_Z (nearest_even (Qabs x / 2 ^ e)))%Q as Hm
    by (change 0%Q with (inject_Z 0); by rewrite <- Zle_Qle).
  assert (~ x == 0)%Q as Hne by (by apply Qeq_bool_neq).
  destruct (Qltb x 0) eqn:E; [apply Qltb_lt in E | apply Qltb_ge in E]; split; intros Hx.
  - assert (0 <= inject_Z (nearest_even (Qabs x / 2 ^ e)) * 2 ^ e)%Q as Hprod
      by (apply Qmult_le_0_compat; lra).
    revert Hprod. generalize (inject_Z (nearest_even (Qabs x / 2 ^ e))) (2 ^ e)%Q.
    intros m p Hprod. nra.
  - lra.
  - destruct Hne. lra.
  - apply Qmult_le_0_compat; lra.
Qed.

Ltac Qcases :=
  repeat match goal with
  | |- context [Qltb ?x ?y] =>
      let E := fresh "E" in
      destruct (Qltb x y) eqn:E;
      [apply Qltb_lt in E | apply Qltb_ge in E]
  end.

(** ** The timing decision *)

Lemma retryTiming_cases (s : t) (d : Q) :
  retryValue s = 500 ->
  let c := retryTiming s d in
  ((d < 450)%Q -> ck_status c = FAILURE /\ too_early c) /\
  ((1000 < d)%Q -> ck_status c = FAILURE /\ very_late c) /\
  ((700 < d)%Q /\ (d <= 1000)%Q -> ck_status c = WARNING) /\
  ((450 <= d)%Q /\ (d <= 700)%Q -> ck_status c = SUCCESS).
Proof.
  intros Hr c. subst c. unfold retryTiming, Qgtb. rewrite Hr.
  change (inject_Z (500 - EARLY_TOLERANCE)) with 450%Q.
  change (inject_Z (500 + LATE_TOLERANCE)) with 700%Q.
  change (inject_Z (500 * VERY_LATE_MULTIPLIER)) with 1000%Q.
  Qcases; cbn [ck_status ck_errorMessage]; repeat split; intros; try lra;
    eexists; (split; [reflexivity | reflexivity]).
Qed.

Lemma generateChecks_reconnected (s : t) :
  1 <= getConnectionCount s ->
  exists c1 c2 c3,
    checks (generateChecks s) = checks s ++ [c1; c2; c3] /\
    c1 = mkCheck "client-sse-graceful-reconnect" "ClientGracefulReconnect" SUCCESS None /\
    c2 = match toolStreamCloseTime s, getReconnectionTime s with
         | Some closeTime, Some reconnectionTime =>
             retryTiming s (round64 (reconnectionTime - closeTime))
         | _, _ =>
             mkCheck "client-sse-retry-timing" "ClientRespectsRetryField" WARNING
               (Some "Could not measure timing - tool stream close time or GET reconnection time not recorded")
         end /\
    ck_id c3 = "client-sse-last-event-id" /\
    ck_name c3 = "ClientSendsLastEventId" /\
    ck_status c3 = match lastEventIds s with
                   | Some _ :: _ => SUCCESS
                   | _ => WARNING
                   end.
Proof.
  intros Hn. unfold generateChecks.
  rewrite bool_decide_eq_false_2 by lia.
  do 3 eexists. split; [|split; [reflexivity|split; [reflexivity|]]].
  - destruct (toolStreamCloseTime s) as [c|] eqn:Ec;
      destruct (getReconnectionTime s) as [r|] eqn:Er; cbn;
      rewrite ?Ec, ?Er; cbn; rewrite <- !app_assoc; reflexivity.
  - cbn. repeat split.
    destruct (toolStreamCloseTime s), (getReconnectionTime s); cbn;
      destruct (lastEventIds s) as [|[x|] l]; reflexivity.
Qed.

(** C1. With [retryValue = 500], [EARLY_TOLERANCE = 50],
    [LATE_TOLERANCE = 200] and [VERY_LATE_MULTIPLIER = 2], the timing
    decision of [generateChecks] maps every delay as follows: below 450
    it is a FAILURE (too early), above 1000 a FAILURE (very late), above
    700 and up to 1000 a WARNING, and a SUCCESS otherwise; so 540, 450 and
    700 succeed, 440, 449 and 1001 fail, 701 and 1000 warn.  When a GET was
    seen and both instants were recorded, the [ClientRespectsRetryField]
    check that [generateChecks] appends is this decision at the delay the
    code observes: the difference of the two instants as the subtraction
    of doubles gives it, that is, the exact difference rounded to the
    nearest double.  With the stream closed at the double 0.2 and the GET
    at the double 450.2 the exact difference is below 450, the observed
    delay is 450, and the check is a SUCCESS. *)
Theorem retry_timing_decision (s : t) :
  retryValue s = 500 ->
  (forall actualDelayMs : Q,
     let c := retryTiming s actualDelayMs in
     ck_name c = "ClientRespectsRetryField" /\
     ((actualDelayMs < 450)%Q -> ck_status c = FAILURE /\ too_early c) /\
     ((1000 < actualDelayMs)%Q -> ck_status c = FAILURE /\ very_late c) /\
     ((700 < actualDelayMs)%Q /\ (actualDelayMs <= 1000)%Q -> ck_status c = WARNING) /\
     ((450 <= actualDelayMs)%Q /\ (actualDelayMs <= 700)%Q -> ck_status c = SUCCESS)) /\
  (ck_status (retryTiming s 540) = SUCCESS /\
   (ck_status (retryTiming s 440) = FAILURE /\ too_early (retryTiming s 440)) /\
   (ck_status (retryTiming s 449) = FAILURE /\ too_early (retryTiming s 449)) /\
   ck_status (retryTiming s 450) = SUCCESS /\
   ck_status (retryTiming s 701) = WARNING /\
   ck_status (retryTiming s 700) = SUCCESS /\
   (ck_status (retryTiming s 1001) = FAILURE /\ very_late (retryTiming s 1001)) /\
   ck_status (retryTiming s 1000) = WARNING) /\
  (forall closeTime reconnectionTime : Q,
     1 <= getConnectionCount s ->
     toolStreamCloseTime s = Some closeTime ->
     getReconnectionTime s = Some reconnectionTime ->
     exists c1 c3,
       checks (generateChecks s) =
         checks s ++ [c1; retryTiming s (round64 (reconnectionTime - closeTime)); c3]) /\
  (let closeTime := 3602879701896397 # 18014398509481984 in
   let reconnectionTime := 7920002157196083 # 17592186044416 in
   (reconnectionTime - closeTime < 450)%Q /\
   (round64 (reconnectionTime - closeTime) == 450)%Q /\
   ck_status (retryTiming s (round64 (reconnectionTime - closeTime))) = SUCCESS).
Proof.
  intros Hr. split; [|split; [|split]].
  - intros d c. split.
    + subst c. unfold retryTiming. repeat case_match; reflexivity.
    + exact (retryTiming_cases s d Hr).
  - pose proof (retryTiming_cases s 540 Hr) as (_ & _ & _ & H540).
    pose proof (retryTiming_cases s 440 Hr) as (H440 & _).
    pose proof (retryTiming_cases s 449 Hr) as (H449 & _).
    pose proof (retryTiming_cases s 450 Hr) as (_ & _ & _ & H450).
    pose proof (retryTiming_cases s 701 Hr) as (_ & _ & H701 & _).
    pose proof (retryTiming_cases s 700 Hr) as (_ & _ & _ & H700).
    pose proof (retryTiming_cases s 1001 Hr) as (_ & H1001 & _).
    pose proof (retryTiming_cases s 1000 Hr) as (_ & _ & H1000 & _).
    cbv zeta in *.
    repeat split;
      first [ apply H540 | apply H440 | apply H449 | apply H450
            | apply H701 | apply H700 | apply H1001 | apply H1000 ]; lra.
  - intros closeTime reconnectionTime Hn Hc Hg.
    destruct (generateChecks_reconnected s Hn) as (c1 & c2 & c3 & E & _ & E2 & _).
    rewrite Hc, Hg in E2. subst c2. eauto.
  - cbv zeta.
    assert (round64 ((7920002157196083 # 17592186044416) -
                     (3602879701896397 # 18014398509481984)) == 450)%Q as Hd
      by (by vm_compute).
    split; [by vm_compute|]. split; [exact Hd|].
    apply (retryTiming_cases s _ Hr). rewrite Hd. split; [lra|by vm_compute].
Qed.

Lemma retry_timing_decision_witness :
  retryValue (init 0) = 500 /\
  ck_status (retryTiming (init 0) 540) = SUCCESS.
Proof.
  split; [reflexivity|].
  exact (proj1 (proj1 (proj2 (retry_timing_decision (init 0) eq_refl)))).
Defined.

(** ** What each handler leaves behind *)

(** Evaluate the field updates of a handler on a state given by its
    fields. *)
Ltac fields :=
  cbv [handleGetSSEStream handleToolsCall handleInitialize handleToolsList
       closeToolsCallStream setTimeout set_timers respond set_getResponseStream
       set_pendingToolCallId set_eventIdCounter push_lastEventId
       set_getConnectionCount set_getReconnectionTime set_toolStreamCloseTime
       push_check set_checks sse_headers json_headers
       checks toolStreamCloseTime getReconnectionTime getConnectionCount
       lastEventIds retryValue eventIdCounter sessionId pendingToolCallId
       getResponseStream wire timers] in *.

Ltac log_eq :=
  fields; repeat (rewrite <- app_assoc; cbn [app]); reflexivity.

Lemma handleGetSSEStream_pending (res : ServerResponse) (s : t) :
  not_null (pendingToolCallId s) = true ->
  handleGetSSEStream res s =
    mkState
      (checks s ++ [info "outgoing-sse-event" "OutgoingSseEvent";
                    info "outgoing-sse-event" "OutgoingSseEvent"])
      (toolStreamCloseTime s) (getReconnectionTime s) (getConnectionCount s)
      (lastEventIds s) (retryValue s) (eventIdCounter s + 1 + 1) (sessionId s)
      (Value JNull) (Some res)
      (wire s ++ [(res, WriteHead 200 (sse_headers s));
                  (res, Write (PrimingContent (event_id (eventIdCounter s + 1)) (retryValue s)));
                  (res, Write (ResponseContent (event_id (eventIdCounter s + 1 + 1))
                                 (ToolResponse (pendingToolCallId s))))])
      (timers s).
Proof.
  intros H. destruct s. fields. rewrite H. log_eq.
Qed.

Lemma handleGetSSEStream_idle (res : ServerResponse) (s : t) :
  not_null (pendingToolCallId s) = false ->
  handleGetSSEStream res s =
    mkState
      (checks s ++ [info "outgoing-sse-event" "OutgoingSseEvent"])
      (toolStreamCloseTime s) (getReconnectionTime s) (getConnectionCount s)
      (lastEventIds s) (retryValue s) (eventIdCounter s + 1) (sessionId s)
      (pendingToolCallId s) (Some res)
      (wire s ++ [(res, WriteHead 200 (sse_headers s));
                  (res, Write (PrimingContent (event_id (eventIdCounter s + 1)) (retryValue s)))])
      (timers s).
Proof.
  intros H. destruct s. fields. rewrite H. log_eq.
Qed.

Lemma handleToolsCall_eq (res : ServerResponse) (request_id : jsvalue) (s : t) :
  handleToolsCall res request_id s =
    mkState
      (checks s ++ [info "outgoing-sse-event" "OutgoingSseEvent"])
      (toolStreamCloseTime s) (getReconnectionTime s) (getConnectionCount s)
      (lastEventIds s) (retryValue s) (eventIdCounter s + 1) (sessionId s)
      request_id (getResponseStream s)
      (wire s ++ [(res, WriteHead 200 (sse_headers s));
                  (res, Write (PrimingContent (event_id (eventIdCounter s + 1)) (retryValue s)))])
      (timers s ++ [mkTimer 50 res]).
Proof.
  destruct s. log_eq.
Qed.

Lemma handleRequest_GET (req : IncomingMessage) (res : ServerResponse) (now : Q) (s : t) :
  method req = "GET" ->
  exists s0,
    handleRequest req res now s = handleGetSSEStream res s0 /\
    wire s0 = wire s /\ eventIdCounter s0 = eventIdCounter s /\
    pendingToolCallId s0 = pendingToolCallId s /\ retryValue s0 = retryValue s /\
    sessionId s0 = sessionId s /\ timers s0 = timers s /\
    toolStreamCloseTime s0 = toolStreamCloseTime s /\
    getConnectionCount s0 = getConnectionCount s + 1 /\
    getReconnectionTime s0 = Some now.
Proof.
  intros Hm. unfold handleRequest. rewrite bool_decide_eq_true_2 by done.
  eexists. split; [reflexivity|].
  destruct s, (truthy (headers req !! "last-event-id")); fields; repeat split.
Qed.

Lemma get_prop_cases (v : json) (k k' : string) :
  (exists x x', get_prop v k = Ok x /\ get_prop v k' = Ok x') \/
  (exists e e', get_prop v k = Throw e /\ get_prop v k' = Throw e').
Proof. destruct v; cbn; eauto. Qed.

Lemma same_session_refl (s : t) : same_session s s.
Proof. repeat split. Qed.

Ltac silent_ops :=
  right; split; [done|]; eexists; fields;
  split; [rewrite <- ?app_assoc; reflexivity|];
  split; [repeat constructor|];
  repeat split; by left.

(** Every transition is a GET, a [tools/call], or writes no SSE event and
    leaves counter and pending slot alone. *)
Lemma step_cases (s : t) (i : input) :
  (exists req res now s0,
     i = Request req res now /\ method req = "GET" /\
     step s i = handleGetSSEStream res s0 /\ same_session s s0) \/
  (exists req res now request_id s0,
     i = Request req res now /\ is_tools_call i = true /\
     step s i = handleToolsCall res request_id s0 /\ same_session s s0) \/
  (is_tools_call i = false /\
   exists ops,
     wire (step s i) = wire s ++ ops /\
     Forall (λ e, e.1 = target i /\ emitted_id e = None) ops /\
     eventIdCounter (step s i) = eventIdCounter s /\
     pendingToolCallId (step s i) = pendingToolCallId s /\
     retryValue (step s i) = retryValue s /\
     sessionId (step s i) = sessionId s /\
     (timers (step s i) = timers s \/
      exists tm now, i = Timeout tm now /\ timers (step s i) = remove_first tm (timers s))).
Proof.
  destruct i as [req res now|tm now]; cbn [step].
  - destruct (decide (method req = "GET")) as [Hg|Hg].
    + left. destruct (handleRequest_GET req res now s Hg) as (s0 & E & H).
      exists req, res, now, s0. repeat split; try tauto.
    + right. unfold handleRequest, is_tools_call.
      rewrite (bool_decide_eq_false_2 _ Hg).
      destruct (bool_decide (method req = "POST")) eqn:Hp; cbn [andb].
      * unfold handlePostRequest.
        destruct (body req) as [request|e]; [|destruct s; silent_ops].
        destruct (get_prop_cases request "method" "id")
          as [(m & request_id & Em & Ei)|(e & e' & Em & Ei)];
          rewrite Em, ?Ei; [|destruct s; silent_ops].
        destruct (interpolate m) as [[]|bad] eqn:Ein.
        2:{ assert (is_string "tools/call" m = false) as ->
              by (destruct m as [|[]]; done).
            destruct s; silent_ops. }
        destruct (is_string "tools/call" m) eqn:Etc.
        { left. exists req, res, now, request_id. eexists.
          split; [done|]. split; [done|].
          destruct (is_string "initialize" m) eqn:E1.
          { destruct m as [|[]]; try discriminate. cbn in Etc, E1.
            repeat case_bool_decide; congruence. }
          destruct (is_string "tools/list" m) eqn:E2.
          { destruct m as [|[]]; try discriminate. cbn in Etc, E2.
            repeat case_bool_decide; congruence. }
          split; [reflexivity|]. destruct s. repeat split. }
        destruct s.
        destruct (is_string "initialize" m), (is_string "tools/list" m),
          (is_undefined request_id); silent_ops.
      * destruct s. silent_ops.
  - right. right. split; [done|]. destruct s. cbv [timers].
    case_bool_decide.
    + unfold closeToolsCallStream. eexists. fields.
      split; [reflexivity|]. split; [repeat constructor|].
      repeat split. right. eauto.
    + exists []. rewrite app_nil_r. repeat split; [constructor|]. by left.
Qed.

(** ** Single delivery of the deferred response *)

Lemma deliveries_silent (i : input) (ops : list (ServerResponse * res_op)) :
  Forall (λ e, e.1 = target i /\ emitted_id e = None) ops -> omap delivery ops = [].
Proof.
  induction 1 as [|[res op] ops [_ H] _ IH]; [reflexivity|].
  cbn. rewrite IH.
  destruct op as [| [] |]; cbn in *; try discriminate; reflexivity.
Qed.

Lemma step_idle (s : t) (i : input) :
  not_null (pendingToolCallId s) = false ->
  is_tools_call i = false ->
  not_null (pendingToolCallId (step s i)) = false /\
  deliveries (step s i) = deliveries s.
Proof.
  intros Hnull Hi.
  destruct (step_cases s i) as
    [(req & res & now & s0 & -> & Hg & E & Hw & Hc & Hp & Hr & Hs & Ht)
    |[(req & res & now & request_id & s0 & -> & Htc & _)
     |(_ & ops & Hw & Hops & _ & Hp & _)]].
  - rewrite E, handleGetSSEStream_idle by (rewrite Hp; exact Hnull).
    unfold deliveries. cbn. rewrite Hp, Hw. split; [exact Hnull|].
    rewrite omap_app. cbn. apply app_nil_r.
  - congruence.
  - rewrite Hp. split; [exact Hnull|].
    unfold deliveries. rewrite Hw, omap_app, (deliveries_silent i ops Hops).
    apply app_nil_r.
Qed.

Lemma run_idle (inputs : list input) (s : t) :
  not_null (pendingToolCallId s) = false ->
  Forall (λ i, is_tools_call i = false) inputs ->
  deliveries (run s inputs) = deliveries s.
Proof.
  revert s. induction inputs as [|i inputs IH]; intros s Hnull Hall; [reflexivity|].
  inversion Hall as [|? ? Hi Hrest]; subst.
  destruct (step_idle s i Hnull Hi) as [Hnull' Hd].
  unfold run in *. cbn. rewrite IH by assumption. exact Hd.
Qed.

(** ** Response objects do not interfere *)

Lemma received_other (res : ServerResponse) (s s' : t) (ops : list (ServerResponse * res_op)) :
  wire s' = wire s ++ ops ->
  Forall (λ e, e.1 <> res) ops ->
  received res s' = received res s.
Proof.
  intros Hw Hops. unfold received. rewrite Hw, filter_app.
  assert (filter (λ e, e.1 = res) ops = []) as ->; [|by rewrite app_nil_r].
  clear Hw. induction Hops as [|e ops He _ IH]; [done|].
  rewrite filter_cons_False by exact He. exact IH.
Qed.

Lemma received_own (res : ServerResponse) (s s' : t) (ops : list res_op) :
  wire s' = wire s ++ ((λ op, (res, op)) <$> ops) ->
  received res s' = received res s ++ ops.
Proof.
  intros Hw. unfold received. rewrite Hw, filter_app, fmap_app. f_equal.
  clear Hw. induction ops as [|op ops IH]; [reflexivity|].
  rewrite fmap_cons, filter_cons_True by reflexivity.
  rewrite fmap_cons, IH. reflexivity.
Qed.

Lemma remove_first_other (tm tm0 : timer) (l : list timer) :
  tm0 <> tm -> tm0 ∈ l -> tm0 ∈ remove_first tm l.
Proof.
  intros Hne. induction l as [|x l IH]; [done|].
  intros Hin. cbn. destruct (decide (x = tm)) as [->|Hx].
  - apply elem_of_cons in Hin as [?|?]; done.
  - apply elem_of_cons in Hin as [->|?]; [apply list_elem_of_here|].
    apply list_elem_of_further. auto.
Qed.

Lemma step_frame (res : ServerResponse) (s : t) (i : input) :
  target i <> res ->
  received res (step s i) = received res s /\
  (forall tm, captured tm = res -> tm ∈ timers s -> tm ∈ timers (step s i)).
Proof.
  intros Hres.
  destruct (step_cases s i) as
    [(req & res' & now & s0 & -> & Hg & -> & Hw & Hc & Hp & Hr & Hs & Ht)
    |[(req & res' & now & request_id & s0 & -> & Htc & -> & Hw & Hc & Hp & Hr & Hs & Ht)
     |(_ & ops & Hw & Hops & _ & _ & _ & _ & Htm)]]; cbn [target] in Hres.
  - destruct (not_null (pendingToolCallId s0)) eqn:E.
    + rewrite handleGetSSEStream_pending by done. split.
      * eapply received_other; [cbn [wire]; rewrite Hw; reflexivity|].
        repeat constructor; done.
      * cbn [timers]. by rewrite Ht.
    + rewrite handleGetSSEStream_idle by done. split.
      * eapply received_other; [cbn [wire]; rewrite Hw; reflexivity|].
        repeat constructor; done.
      * cbn [timers]. by rewrite Ht.
  - rewrite handleToolsCall_eq. split.
    + eapply received_other; [cbn [wire]; rewrite Hw; reflexivity|].
      repeat constructor; done.
    + cbn [timers]. rewrite Ht. intros tm _ Hin. apply elem_of_app. by left.
  - split.
    + eapply received_other; [exact Hw|].
      eapply Forall_impl; [exact Hops|]. intros e [He _]. congruence.
    + intros tm0 Hcap Hin. destruct Htm as [->|(tm & now & -> & ->)]; [done|].
      apply remove_first_other; [|done]. cbn in Hres. congruence.
Qed.

Lemma run_frame (res : ServerResponse) (inputs : list input) (s : t) :
  Forall (λ i, target i <> res) inputs ->
  received res (run s inputs) = received res s /\
  (forall tm, captured tm = res -> tm ∈ timers s -> tm ∈ timers (run s inputs)).
Proof.
  revert s. induction inputs as [|i inputs IH]; intros s Hall; [done|].
  inversion Hall as [|? ? Hi Hrest]; subst.
  destruct (step_frame res s i Hi) as [Hr Ht].
  destruct (IH (step s i) Hrest) as [Hr' Ht'].
  unfold run in *. cbn. split; [congruence|auto].
Qed.

(** ** The deferred response and the [tools/call] requests *)

Lemma deliveries_bounded (inputs : list input) (s : t) :
  (length (deliveries (run s inputs)) +
   (if not_null (pendingToolCallId (run s inputs)) then 1 else 0)
   <= length (deliveries s) + (if not_null (pendingToolCallId s) then 1 else 0) +
      length (filter (λ i, is_tools_call i = true) inputs))%nat.
Proof.
  revert s. induction inputs as [|i inputs IH]; intros s; [cbn; lia|].
  specialize (IH (step s i)). unfold run in *. cbn [foldl].
  etrans; [exact IH|]. clear IH.
  destruct (step_cases s i) as
    [(req & res & now & s0 & -> & Hg & -> & Hw & Hc & Hp & _)
    |[(req & res & now & request_id & s0 & -> & Htc & -> & Hw & Hc & Hp & _)
     |(Htc & ops & Hw & Hops & _ & Hp & _)]].
  - rewrite filter_cons_False.
    2:{ unfold is_tools_call. rewrite Hg. cbn. done. }
    destruct (not_null (pendingToolCallId s0)) eqn:E.
    + rewrite handleGetSSEStream_pending by done.
      unfold deliveries. cbn [wire pendingToolCallId not_null].
      rewrite omap_app, length_app, Hw. cbn. rewrite <- Hp, E. lia.
    + rewrite handleGetSSEStream_idle by done.
      unfold deliveries. cbn [wire pendingToolCallId].
      rewrite omap_app, length_app, Hw. cbn. rewrite <- Hp, E. lia.
  - rewrite filter_cons_True by done. rewrite handleToolsCall_eq.
    unfold deliveries. cbn [wire pendingToolCallId length].
    rewrite omap_app, length_app, Hw. cbn.
    destruct (not_null request_id), (not_null (pendingToolCallId s)); lia.
  - rewrite filter_cons_False by congruence.
    unfold deliveries. rewrite Hw, Hp, omap_app, (deliveries_silent i ops Hops).
    rewrite app_nil_r. lia.
Qed.

(** ** What the harness has observed of the reconnections *)

Lemma handleGetSSEStream_timeline (res : ServerResponse) (s : t) :
  getConnectionCount (handleGetSSEStream res s) = getConnectionCount s /\
  lastEventIds (handleGetSSEStream res s) = lastEventIds s.
Proof.
  destruct (not_null (pendingToolCallId s)) eqn:E.
  - by rewrite handleGetSSEStream_pending.
  - by rewrite handleGetSSEStream_idle.
Qed.

Lemma step_timeline (s : t) (i : input) :
  getConnectionCount (step s i) =
    getConnectionCount s + (if is_get i then 1 else 0) /\
  lastEventIds (step s i) =
    lastEventIds s ++ match sent_last_event_id i with
                      | Some v => [Some v]
                      | None => []
                      end.
Proof.
  destruct i as [req res now|tm now]; cbn [step is_get sent_last_event_id].
  - unfold handleRequest. case_bool_decide as Hg; cbn [andb].
    + destruct (handleGetSSEStream_timeline res
                  (if truthy (headers req !! "last-event-id")
                   then push_lastEventId (headers req !! "last-event-id")
                          (push_check (info "incoming-request" "IncomingRequest")
                             (set_getReconnectionTime (Some now)
                                (set_getConnectionCount (getConnectionCount s + 1) s)))
                   else push_check (info "incoming-request" "IncomingRequest")
                          (set_getReconnectionTime (Some now)
                             (set_getConnectionCount (getConnectionCount s + 1) s))))
        as [-> ->].
      destruct (headers req !! "last-event-id") as [v|] eqn:Ev; cbn [truthy].
      * destruct (negb (bool_decide (v = ""))), s; fields;
          rewrite ?app_nil_r; split; first [done|lia].
      * destruct s; fields; rewrite ?app_nil_r; split; first [done|lia].
    + rewrite Z.add_0_r, app_nil_r.
      case_bool_decide; [|destruct s; done].
      unfold handlePostRequest.
      destruct (body req) as [request|e]; [|destruct s; done].
      destruct (get_prop_cases request "method" "id")
        as [(m & request_id & Em & Ei)|(e & e' & Em & Ei)];
        rewrite Em, ?Ei; [|destruct s; done].
      destruct (interpolate m) as [[]|bad]; [|destruct s; done].
      destruct s, (is_string "initialize" m), (is_string "tools/list" m),
        (is_string "tools/call" m), (is_undefined request_id); done.
  - rewrite Z.add_0_r, app_nil_r. case_bool_decide; destruct s; done.
Qed.

Lemma run_timeline (inputs : list input) (s : t) :
  getConnectionCount (run s inputs) =
    getConnectionCount s + Z.of_nat (length (filter (λ i, is_get i = true) inputs)) /\
  lastEventIds (run s inputs) =
    lastEventIds s ++ (Some <$> omap sent_last_event_id inputs).
Proof.
  revert s. induction inputs as [|i inputs IH]; intros s.
  - cbn. rewrite Z.add_0_r, app_nil_r. done.
  - destruct (IH (step s i)) as [Hc Hl], (step_timeline s i) as [Hc1 Hl1].
    unfold run in *. cbn [foldl omap]. rewrite Hc, Hl, Hc1, Hl1. split.
    + destruct (is_get i) eqn:E.
      * rewrite filter_cons_True by done. cbn [length]. lia.
      * rewrite filter_cons_False by congruence. lia.
    + rewrite <- app_assoc. f_equal. cbn. destruct (sent_last_event_id i); done.
Qed.

(** C2. The pending deferred tool response is delivered at most once: when
    [handleGetSSEStream] finds [pendingToolCallId] non-null it writes,
    after the priming event, exactly one JSON-RPC result event, correlated
    to the stored request id, and sets [pendingToolCallId] to null; a
    second GET then receives only a fresh priming event, and no later
    request is answered with the response again as long as no new
    [tools/call] arrives.  Over a whole run of the harness there are never
    more deliveries than [tools/call] requests. *)
Theorem pending_response_single_delivery :
  (forall (s : t) (res : ServerResponse),
     not_null (pendingToolCallId s) = true ->
     let s1 := handleGetSSEStream res s in
     wire s1 =
       wire s ++
       [(res, WriteHead 200 (sse_headers s));
        (res, Write (PrimingContent (event_id (eventIdCounter s + 1)) (retryValue s)));
        (res, Write (ResponseContent (event_id (eventIdCounter s + 1 + 1))
                       (ToolResponse (pendingToolCallId s))))] /\
     deliveries s1 = deliveries s ++ [(res, pendingToolCallId s)] /\
     pendingToolCallId s1 = Value JNull /\
     (forall (req : IncomingMessage) (res' : ServerResponse) (now : Q),
        method req = "GET" ->
        let s2 := handleRequest req res' now s1 in
        wire s2 =
          wire s1 ++
          [(res', WriteHead 200 (sse_headers s));
           (res', Write (PrimingContent (event_id (eventIdCounter s1 + 1)) (retryValue s)))] /\
        deliveries s2 = deliveries s1 /\
        pendingToolCallId s2 = Value JNull) /\
     (forall inputs : list input,
        Forall (λ i, is_tools_call i = false) inputs ->
        deliveries (run s1 inputs) = deliveries s1)) /\
  (forall (dateNow : Z) (inputs : list input),
     (length (deliveries (run (init dateNow) inputs)) <=
      length (filter (λ i, is_tools_call i = true) inputs))%nat).
Proof.
  split.
  - intros s res Hp s1. subst s1. rewrite (handleGetSSEStream_pending res s Hp).
    split; [reflexivity|]. split; [|split; [reflexivity|split]].
    + unfold deliveries. cbn [wire]. rewrite omap_app. reflexivity.
    + intros req res' now Hg s2. subst s2.
      match goal with
      | |- context [handleRequest req res' now ?x] =>
          destruct (handleRequest_GET req res' now x Hg)
            as (s0 & -> & Hw & Hc & Hpe & Hr & Hs & _)
      end.
      cbn [wire eventIdCounter pendingToolCallId retryValue sessionId] in Hw, Hc, Hpe, Hr, Hs.
      rewrite handleGetSSEStream_idle by (rewrite Hpe; reflexivity).
      unfold deliveries, sse_headers.
      cbn [wire eventIdCounter pendingToolCallId retryValue sessionId].
      rewrite Hw, Hc, Hr, Hs, Hpe.
      split; [reflexivity|]. split; [|reflexivity].
      rewrite (omap_app _ (wire s ++ _)). cbn. apply app_nil_r.
    + intros inputs Hall. apply run_idle; [reflexivity|exact Hall].
  - intros dateNow inputs.
    pose proof (deliveries_bounded inputs (init dateNow)) as H.
    change (deliveries (init dateNow)) with (@nil (ServerResponse * jsvalue)) in H.
    change (pendingToolCallId (init dateNow)) with (Value JNull) in H.
    cbn [not_null length] in H.
    destruct (not_null (pendingToolCallId (run (init dateNow) inputs))); lia.
Qed.

Lemma pending_response_single_delivery_witness :
  let s := handleToolsCall 0%nat (Value (JNumber 1)) (init 0) in
  not_null (pendingToolCallId s) = true /\
  deliveries (handleGetSSEStream 1%nat s) = [(1%nat, Value (JNumber 1))].
Proof.
  split; [reflexivity|].
  exact (proj1 (proj2 (proj1 pending_response_single_delivery
                         (handleToolsCall 0%nat (Value (JNumber 1)) (init 0))
                         1%nat eq_refl))).
Defined.

(** ** Event ids *)

Global Instance event_id_inj : Inj (=) (=) event_id.
Proof.
  intros a b H. unfold event_id in H. cbn in H.
  injection H as H. by apply (inj pretty).
Qed.

Lemma StronglySorted_seqZ (m n : Z) : StronglySorted Z.lt (seqZ m n).
Proof.
  remember (Z.to_nat n) as k eqn:Hk. revert m n Hk.
  induction k as [|k IH]; intros m n Hk.
  - rewrite seqZ_nil by lia. constructor.
  - rewrite seqZ_cons by lia. constructor.
    + apply IH. lia.
    + apply Forall_seqZ. lia.
Qed.

Lemma ids_minted_same (s s0 : t) :
  same_session s s0 -> ids_minted s -> ids_minted s0.
Proof.
  intros (Hw & Hc & _) [H0 H]. unfold ids_minted, emitted_ids in *.
  rewrite Hw, Hc. done.
Qed.

Lemma seqZ_snoc (n : Z) : 0 <= n -> seqZ 1 (n + 1) = seqZ 1 n ++ [n + 1].
Proof.
  intros H. rewrite seqZ_app by lia. f_equal.
  rewrite seqZ_cons, seqZ_nil by lia. f_equal. lia.
Qed.

Lemma ids_minted_GetSSEStream (res : ServerResponse) (s : t) :
  ids_minted s -> ids_minted (handleGetSSEStream res s).
Proof.
  intros [H0 H]. unfold ids_minted, emitted_ids in *.
  destruct (not_null (pendingToolCallId s)) eqn:E.
  - rewrite handleGetSSEStream_pending by done. cbn. split; [lia|].
    rewrite omap_app, H. cbn.
    rewrite (seqZ_snoc (eventIdCounter s + 1)), seqZ_snoc by lia.
    rewrite !fmap_app, <- app_assoc. reflexivity.
  - rewrite handleGetSSEStream_idle by done. cbn. split; [lia|].
    rewrite omap_app, H. cbn.
    rewrite seqZ_snoc by lia. rewrite fmap_app. reflexivity.
Qed.

Lemma ids_minted_ToolsCall (res : ServerResponse) (request_id : jsvalue) (s : t) :
  ids_minted s -> ids_minted (handleToolsCall res request_id s).
Proof.
  intros [H0 H]. unfold ids_minted, emitted_ids in *.
  rewrite handleToolsCall_eq. cbn. split; [lia|].
  rewrite omap_app, H. cbn.
  rewrite seqZ_snoc by lia. rewrite fmap_app. reflexivity.
Qed.

Lemma omap_silent (i : input) (ops : list (ServerResponse * res_op)) :
  Forall (λ e, e.1 = target i /\ emitted_id e = None) ops -> omap emitted_id ops = [].
Proof.
  induction 1 as [|e ops [_ H] _ IH]; [reflexivity|].
  cbn. rewrite H, IH. reflexivity.
Qed.

Lemma ids_minted_step (s : t) (i : input) :
  ids_minted s -> ids_minted (step s i).
Proof.
  intros Hs.
  destruct (step_cases s i) as
    [(req & res & now & s0 & -> & Hg & -> & Hsame)
    |[(req & res & now & request_id & s0 & -> & Htc & -> & Hsame)
     |(_ & ops & Hw & Hops & Hc & _)]].
  - apply ids_minted_GetSSEStream. by eapply ids_minted_same.
  - apply ids_minted_ToolsCall. by eapply ids_minted_same.
  - destruct Hs as [H0 H]. unfold ids_minted, emitted_ids in *.
    rewrite Hw, Hc, omap_app, (omap_silent i ops Hops), app_nil_r. done.
Qed.

Lemma ids_minted_run (inputs : list input) (s : t) :
  ids_minted s -> ids_minted (run s inputs).
Proof.
  revert s. induction inputs as [|i inputs IH]; intros s Hs; [done|].
  apply IH, ids_minted_step, Hs.
Qed.

Lemma ids_minted_invoke (calls : list invocation) (s : t) :
  ids_minted s -> ids_minted (foldl invoke s calls).
Proof.
  revert s. induction calls as [|c calls IH]; intros s Hs; [done|].
  apply IH. destruct c; cbn.
  - by apply ids_minted_GetSSEStream.
  - by apply ids_minted_ToolsCall.
Qed.

Lemma ids_minted_init (dateNow : Z) : ids_minted (init dateNow).
Proof. split; [done|reflexivity]. Qed.

(** C3. Within one scenario instance every SSE event id is [event-<n>]
    for the value [n] the counter has just been incremented to: after any
    run of the harness followed by any sequence of [handleGetSSEStream]
    and [handleToolsCall] calls, the ids written, in the order they were
    written, are [event-<n>] for strictly increasing [n] (in fact 1, 2,
    ..., up to the counter), and they are pairwise distinct. *)
Theorem event_ids_strictly_increasing
    (dateNow : Z) (inputs : list input) (calls : list invocation) :
  let s := foldl invoke (run (init dateNow) inputs) calls in
  exists ns : list Z,
    emitted_ids s = event_id <$> ns /\
    ns = seqZ 1 (eventIdCounter s) /\
    StronglySorted Z.lt ns /\
    NoDup (emitted_ids s).
Proof.
  intros s.
  assert (ids_minted s) as [H0 H].
  { apply ids_minted_invoke, ids_minted_run, ids_minted_init. }
  exists (seqZ 1 (eventIdCounter s)). split; [exact H|]. split; [reflexivity|].
  split; [apply StronglySorted_seqZ|].
  rewrite H. apply NoDup_fmap_2; [apply _|apply NoDup_seqZ].
Qed.


(** ** Status codes *)

(** C4, as stated, fails: a GET without a session id is answered 200, and
    so is a request on a path the protocol does not use; neither the
    session header nor the path is read. *)
Lemma get_without_session_id_is_accepted :
  let get := mkRequest "GET" "/unsupported" ∅ (Throw (ErrorObject "Unexpected end of JSON input")) in
  let post :=
    mkRequest "POST" "/unsupported" ∅
      (Ok (JObject [("jsonrpc", JString "2.0"); ("id", JNumber 1);
                    ("method", JString "initialize")])) in
  headers get !! "mcp-session-id" = None /\
  received 7%nat (handleRequest get 7%nat 0%Q (init 0)) =
    [WriteHead 200 (sse_headers (init 0)); Write (PrimingContent "event-1" 500)] /\
  statusCode 7%nat (handleRequest get 7%nat 0%Q (init 0)) <> Some 405 /\
  statusCode 7%nat (handleRequest post 7%nat 0%Q (init 0)) = Some 200.
Proof. vm_compute. repeat split; congruence. Qed.

(** C4, amended.  Status 405 answers exactly the requests whose method is
    neither GET nor POST; a GET is answered 200 with an event stream
    whether or not it carries a session id; and the path of a request is
    never read: two requests that differ in their path only receive the
    same response. *)
Theorem method_not_allowed
    (req : IncomingMessage) (res : ServerResponse) (now : Q) (s : t) :
  (method req <> "GET" -> method req <> "POST" ->
   wire (handleRequest req res now s) =
     wire s ++ [(res, WriteHead 405 []); (res, End (Some (Text "Method Not Allowed")))]) /\
  (method req = "GET" ->
   exists events,
     wire (handleRequest req res now s) =
       wire s ++ (res, WriteHead 200 (sse_headers s)) :: events) /\
  (forall path : string,
     wire (handleRequest (mkRequest (method req) path (headers req) (body req)) res now s) =
     wire (handleRequest req res now s)).
Proof.
  split; [|split].
  - intros Hg Hp. unfold handleRequest.
    rewrite !bool_decide_eq_false_2 by done. fields.
    rewrite <- app_assoc. reflexivity.
  - intros Hg.
    destruct (handleRequest_GET req res now s Hg)
      as (s0 & -> & Hw & Hc & Hp & Hr & Hs & _).
    destruct (not_null (pendingToolCallId s0)) eqn:E.
    + rewrite handleGetSSEStream_pending by done. cbn.
      unfold sse_headers. rewrite Hw, Hs. eauto.
    + rewrite handleGetSSEStream_idle by done. cbn.
      unfold sse_headers. rewrite Hw, Hs. eauto.
  - intros path. destruct req; reflexivity.
Qed.

Lemma method_not_allowed_witness :
  let req := mkRequest "DELETE" "/" ∅ (Throw (ErrorObject "Unexpected end of JSON input")) in
  wire (handleRequest req 3%nat 0%Q (init 0)) =
    [(3%nat, WriteHead 405 []); (3%nat, End (Some (Text "Method Not Allowed")))].
Proof.
  apply (proj1 (method_not_allowed
                  (mkRequest "DELETE" "/" ∅ (Throw (ErrorObject "Unexpected end of JSON input")))
                  3%nat 0%Q (init 0))); vm_compute; congruence.
Defined.

(** C5, as stated, fails: a body without [id] whose method is
    [tools/list] is answered 200 with a JSON body; the three known
    methods are dispatched before the [id] is looked at. *)
Lemma notification_named_tools_list_gets_200 :
  let req :=
    mkRequest "POST" "/" ∅
      (Ok (JObject [("jsonrpc", JString "2.0"); ("method", JString "tools/list")])) in
  get_prop (JObject [("jsonrpc", JString "2.0"); ("method", JString "tools/list")]) "id"
    = Ok Undefined /\
  received 0%nat (handleRequest req 0%nat 0%Q (init 0)) =
    [WriteHead 200 (json_headers (init 0));
     End (Some (Stringified (ToolsListResponse Undefined)))] /\
  statusCode 0%nat (handleRequest req 0%nat 0%Q (init 0)) <> Some 202.
Proof. vm_compute. repeat split; congruence. Qed.

(** C5, amended.  A POST whose parsed body has no [id] field and whose
    method is a string other than [initialize], [tools/list] and
    [tools/call] is answered 202 with an empty body.  The same holds for
    a method that is absent or is any other value that can be converted
    to a string for the log entry.  A method that cannot (an object with
    a member named [toString], or an array that holds one) makes the
    handler throw before anything is recorded: the request is answered
    400 like a body that is not JSON, and no check is added. *)
Theorem notification_accepted
    (req : IncomingMessage) (res : ServerResponse) (now : Q) (s : t)
    (request : json) (request_method : jsvalue) :
  method req = "POST" ->
  body req = Ok request ->
  get_prop request "id" = Ok Undefined ->
  get_prop request "method" = Ok request_method ->
  is_string "initialize" request_method = false ->
  is_string "tools/list" request_method = false ->
  is_string "tools/call" request_method = false ->
  let s' := handleRequest req res now s in
  match interpolate request_method with
  | Ok _ => wire s' = wire s ++ [(res, WriteHead 202 []); (res, End None)]
  | Throw error =>
      wire s' =
        wire s ++
        [(res, WriteHead 400 [("Content-Type", "application/json")]);
         (res, End (Some (Stringified (ParseError error))))] /\
      checks s' = checks s
  end /\
  ((request_method = Undefined \/ exists name, request_method = Value (JString name)) ->
   wire s' = wire s ++ [(res, WriteHead 202 []); (res, End None)]).
Proof.
  intros Hm Hb Hid Hmeth H1 H2 H3 s'.
  assert (match interpolate request_method with
          | Ok _ => wire s' = wire s ++ [(res, WriteHead 202 []); (res, End None)]
          | Throw error =>
              wire s' =
                wire s ++
                [(res, WriteHead 400 [("Content-Type", "application/json")]);
                 (res, End (Some (Stringified (ParseError error))))] /\
              checks s' = checks s
          end) as Hcases.
  { subst s'. unfold handleRequest.
    rewrite bool_decide_eq_false_2 by (rewrite Hm; done).
    rewrite bool_decide_eq_true_2 by done.
    unfold handlePostRequest. rewrite Hb, Hmeth, Hid.
    destruct (interpolate request_method) as [[]|error].
    - rewrite H1, H2, H3. fields. rewrite <- app_assoc. reflexivity.
    - fields. rewrite <- app_assoc. split; reflexivity. }
  split; [exact Hcases|].
  intros [->|[name ->]]; exact Hcases.
Qed.

Lemma notification_accepted_witness :
  let request :=
    JObject [("jsonrpc", JString "2.0"); ("method", JString "notifications/initialized")] in
  let odd := JObject [("jsonrpc", JString "2.0"); ("method", JObject [("toString", JNumber 1)])] in
  let refused := handleRequest (mkRequest "POST" "/" ∅ (Ok odd)) 2%nat 0%Q (init 0) in
  wire (handleRequest (mkRequest "POST" "/" ∅ (Ok request)) 2%nat 0%Q (init 0)) =
    [(2%nat, WriteHead 202 []); (2%nat, End None)] /\
  (wire refused =
     [(2%nat, WriteHead 400 [("Content-Type", "application/json")]);
      (2%nat, End (Some (Stringified
                           (ParseError (ErrorObject "Cannot convert object to primitive value")))))] /\
   checks refused = checks (init 0)).
Proof.
  intros request odd refused. split.
  - apply (notification_accepted (mkRequest "POST" "/" ∅ (Ok request)) 2%nat 0%Q (init 0)
             request (Value (JString "notifications/initialized"))
             eq_refl eq_refl eq_refl eq_refl eq_refl eq_refl eq_refl).
    right. by eexists.
  - exact (proj1 (notification_accepted (mkRequest "POST" "/" ∅ (Ok odd)) 2%nat 0%Q (init 0)
                    odd (Value (JObject [("toString", JNumber 1)]))
                    eq_refl eq_refl eq_refl eq_refl eq_refl eq_refl eq_refl)).
Defined.


(** ** The [tools/call] probe *)

Lemma step_Timeout (s : t) (tm : timer) (now : Q) :
  tm ∈ timers s ->
  step s (Timeout tm now) =
    mkState
      (checks s ++ [info "outgoing-stream-close" "OutgoingStreamClose"])
      (Some now) (getReconnectionTime s) (getConnectionCount s)
      (lastEventIds s) (retryValue s) (eventIdCounter s) (sessionId s)
      (pendingToolCallId s) (getResponseStream s)
      (wire s ++ [(captured tm, End None)])
      (remove_first tm (timers s)).
Proof.
  intros Hin. cbn [step]. rewrite bool_decide_eq_true_2 by done.
  destruct s. reflexivity.
Qed.

Lemma step_constants (s : t) (i : input) :
  retryValue (step s i) = retryValue s /\ sessionId (step s i) = sessionId s.
Proof.
  destruct (step_cases s i) as
    [(req & res & now & s0 & -> & Hg & -> & Hw & Hc & Hp & Hr & Hs & Ht)
    |[(req & res & now & request_id & s0 & -> & Htc & -> & Hw & Hc & Hp & Hr & Hs & Ht)
     |(_ & ops & _ & _ & _ & _ & Hr & Hs & _)]].
  - destruct (not_null (pendingToolCallId s0)) eqn:E.
    + rewrite handleGetSSEStream_pending by done. done.
    + rewrite handleGetSSEStream_idle by done. done.
  - rewrite handleToolsCall_eq. done.
  - done.
Qed.

Lemma run_constants (inputs : list input) (s : t) :
  retryValue (run s inputs) = retryValue s /\
  sessionId (run s inputs) = sessionId s.
Proof.
  revert s. induction inputs as [|i inputs IH]; intros s; [done|].
  unfold run in *. cbn. destruct (IH (step s i)) as [-> ->].
  apply step_constants.
Qed.

(** C6. A POST [tools/call], arriving in any state the harness can reach,
    is answered 200 with [Content-Type: text/event-stream]; exactly one
    priming event is written at once, with an event id that was never
    used before and [retry: 500]; the JSON-RPC id of the request becomes
    the pending deferred response; a 50 ms timer is set, and when it fires
    the stream is ended with nothing more written to it, the tool result
    still pending, and [toolStreamCloseTime] set to that instant; this
    stays so whatever happens on other response objects in between. *)
Theorem tools_call_primes_then_closes
    (dateNow : Z) (inputs : list input)
    (req : IncomingMessage) (res : ServerResponse) (now : Q)
    (request : json) (request_id : jsvalue) :
  let s := run (init dateNow) inputs in
  method req = "POST" ->
  body req = Ok request ->
  get_prop request "method" = Ok (Value (JString "tools/call")) ->
  get_prop request "id" = Ok request_id ->
  let s1 := handleRequest req res now s in
  let primingEventId := event_id (eventIdCounter s + 1) in
  wire s1 =
    wire s ++
    [(res, WriteHead 200
             [("Content-Type", "text/event-stream"); ("Cache-Control", "no-cache");
              ("Connection", "keep-alive");
              ("mcp-session-id", "session-" +:+ pretty dateNow)]);
     (res, Write (PrimingContent primingEventId 500))] /\
  (primingEventId ∉ emitted_ids s) /\
  pendingToolCallId s1 = request_id /\
  deliveries s1 = deliveries s /\
  timers s1 = timers s ++ [mkTimer 50 res] /\
  toolStreamCloseTime s1 = toolStreamCloseTime s /\
  (forall closeTime : Q,
     let s2 := step s1 (Timeout (mkTimer 50 res) closeTime) in
     wire s2 = wire s1 ++ [(res, End None)] /\
     deliveries s2 = deliveries s /\
     pendingToolCallId s2 = request_id /\
     toolStreamCloseTime s2 = Some closeTime) /\
  (forall (between : list input) (closeTime : Q),
     Forall (λ i, target i <> res) between ->
     let s2 := step (run s1 between) (Timeout (mkTimer 50 res) closeTime) in
     received res s2 =
       received res s ++
       [WriteHead 200
          [("Content-Type", "text/event-stream"); ("Cache-Control", "no-cache");
           ("Connection", "keep-alive");
           ("mcp-session-id", "session-" +:+ pretty dateNow)];
        Write (PrimingContent primingEventId 500);
        End None] /\
     toolStreamCloseTime s2 = Some closeTime).
Proof.
  intros s Hm Hb Hmeth Hid s1 primingEventId.
  destruct (run_constants inputs (init dateNow)) as [Hr Hs].
  fold s in Hr, Hs. cbn in Hr, Hs.
  assert (s1 = handleToolsCall res request_id
                 (push_check (info "incoming-request" "IncomingRequest") s)) as E.
  { subst s1. unfold handleRequest.
    rewrite bool_decide_eq_false_2 by (rewrite Hm; done).
    rewrite bool_decide_eq_true_2 by done.
    unfold handlePostRequest. rewrite Hb, Hmeth, Hid. reflexivity. }
  rewrite handleToolsCall_eq in E. cbn in E.
  assert (deliveries s1 = deliveries s) as Hd.
  { rewrite E. unfold deliveries. cbn. rewrite omap_app. cbn. apply app_nil_r. }
  assert (wire s1 =
            wire s ++
            [(res, WriteHead 200
                     [("Content-Type", "text/event-stream"); ("Cache-Control", "no-cache");
                      ("Connection", "keep-alive");
                      ("mcp-session-id", "session-" +:+ pretty dateNow)]);
             (res, Write (PrimingContent primingEventId 500))]) as Hwire.
  { rewrite E. cbn. unfold sse_headers. cbn. rewrite Hr, Hs. reflexivity. }
  split; [|split; [|split; [|split; [|split; [|split; [|split]]]]]].
  - exact Hwire.
  - assert (ids_minted s) as [H0 H] by apply ids_minted_run, ids_minted_init.
    rewrite H. subst primingEventId. intros Hin.
    apply list_elem_of_fmap in Hin as (n & Heq & Hn).
    apply (inj event_id) in Heq. subst n.
    apply elem_of_seqZ in Hn. lia.
  - rewrite E. reflexivity.
  - exact Hd.
  - rewrite E. reflexivity.
  - rewrite E. reflexivity.
  - intros closeTime s2. subst s2.
    rewrite step_Timeout.
    2:{ rewrite E. cbn. apply elem_of_app. right. apply list_elem_of_singleton. done. }
    cbn [wire pendingToolCallId toolStreamCloseTime].
    split; [reflexivity|]. split; [|split; [rewrite E; reflexivity|reflexivity]].
    unfold deliveries in *. cbn [wire]. rewrite omap_app, Hd. cbn. apply app_nil_r.
  - intros between closeTime Hall s2. subst s2.
    destruct (run_frame res between s1 Hall) as [Hrec Htm].
    rewrite step_Timeout.
    2:{ apply Htm; [reflexivity|]. rewrite E. cbn.
        apply elem_of_app. right. apply list_elem_of_singleton. done. }
    split; [|reflexivity].
    erewrite (received_own res (run s1 between) _ [End None]) by reflexivity.
    rewrite Hrec.
    erewrite (received_own res s s1
                [WriteHead 200 _; Write (PrimingContent primingEventId 500)])
      by exact Hwire.
    rewrite <- app_assoc. reflexivity.
Qed.

Lemma tools_call_primes_then_closes_witness :
  let request :=
    JObject [("jsonrpc", JString "2.0"); ("id", JNumber 1);
             ("method", JString "tools/call")] in
  let s1 := handleRequest (mkRequest "POST" "/" ∅ (Ok request)) 0%nat 0%Q (init 0) in
  pendingToolCallId s1 = Value (JNumber 1) /\
  toolStreamCloseTime (step s1 (Timeout (mkTimer 50 0%nat) 60%Q)) = Some 60%Q.
Proof.
  intros request s1.
  pose proof (tools_call_primes_then_closes 0 [] (mkRequest "POST" "/" ∅ (Ok request))
                0%nat 0%Q request (Value (JNumber 1))
                eq_refl eq_refl eq_refl eq_refl) as H.
  cbv zeta in H.
  destruct H as (_ & _ & Hp & _ & _ & _ & Hclose & _).
  split; [exact Hp|].
  exact (proj2 (proj2 (proj2 (Hclose 60%Q)))).
Defined.

(** ** Verdicts at teardown *)

(** C7, as stated, fails: when no GET was seen, [getChecks] yields the
    reconnection FAILURE alone; the timing and Last-Event-ID verdicts are
    not emitted. *)
Lemma no_reconnection_yields_one_verdict :
  getConnectionCount (init 0) = 0 /\
  (getChecks (init 0)).1 =
    [mkCheck "client-sse-graceful-reconnect" "ClientGracefulReconnect" FAILURE
       (Some "Client did not attempt GET reconnection after stream closure. Client should treat graceful stream close as reconnectable.")] /\
  ("ClientRespectsRetryField" ∉ ck_name <$> (getChecks (init 0)).1) /\
  ("ClientSendsLastEventId" ∉ ck_name <$> (getChecks (init 0)).1).
Proof.
  split; [reflexivity|]. split; [reflexivity|].
  split; intros H; cbn in H; apply list_elem_of_singleton in H; discriminate.
Qed.

(** C7, amended.  [getChecks] appends to the checks recorded so far: when
    no GET was observed, the [ClientGracefulReconnect] FAILURE and nothing
    else; when at least one GET was observed, three verdicts in this
    order: [ClientGracefulReconnect] SUCCESS, [ClientRespectsRetryField],
    and [ClientSendsLastEventId], which is a WARNING when no Last-Event-ID
    was recorded and a SUCCESS otherwise.  After a run of the harness the
    count of GETs observed is the number of GET requests received, and the
    Last-Event-IDs recorded are the non-empty [last-event-id] headers of
    these requests, in order. *)
Theorem getChecks_verdicts :
  (forall s : t,
     (getConnectionCount s < 1 ->
      exists c1,
        (getChecks s).1 = checks s ++ [c1] /\
        ck_name c1 = "ClientGracefulReconnect" /\ ck_status c1 = FAILURE) /\
     (1 <= getConnectionCount s ->
      exists c1 c2 c3,
        (getChecks s).1 = checks s ++ [c1; c2; c3] /\
        ck_name c1 = "ClientGracefulReconnect" /\ ck_status c1 = SUCCESS /\
        ck_name c2 = "ClientRespectsRetryField" /\
        ck_name c3 = "ClientSendsLastEventId" /\
        (lastEventIds s = [] -> ck_status c3 = WARNING) /\
        (forall v rest, lastEventIds s = Some v :: rest -> ck_status c3 = SUCCESS))) /\
  (forall (dateNow : Z) (inputs : list input),
     let s := run (init dateNow) inputs in
     getConnectionCount s = Z.of_nat (length (filter (λ i, is_get i = true) inputs)) /\
     lastEventIds s = Some <$> omap sent_last_event_id inputs).
Proof.
  split; [intros s; split|].
  - intros Hn. unfold getChecks, generateChecks. cbn [fst].
    rewrite bool_decide_eq_true_2 by done. eexists. repeat split.
  - intros Hn. unfold getChecks. cbn [fst].
    destruct (generateChecks_reconnected s Hn)
      as (c1 & c2 & c3 & E & -> & E2 & _ & N3 & S3).
    exists (mkCheck "client-sse-graceful-reconnect" "ClientGracefulReconnect" SUCCESS None), c2, c3.
    repeat split; try done.
    + subst c2. destruct (toolStreamCloseTime s), (getReconnectionTime s); try reflexivity.
      unfold retryTiming. repeat case_match; reflexivity.
    + intros Hl. rewrite Hl in S3. exact S3.
    + intros v rest Hl. rewrite Hl in S3. exact S3.
  - intros dateNow inputs s. subst s.
    destruct (run_timeline inputs (init dateNow)) as [Hc Hl].
    rewrite Hc, Hl. split; [cbn; lia|reflexivity].
Qed.

Lemma getChecks_verdicts_witness :
  let get := mkRequest "GET" "/" ∅ (Throw (ErrorObject "Unexpected end of JSON input")) in
  let s := handleRequest get 0%nat 0%Q (init 0) in
  1 <= getConnectionCount s /\
  exists c1 c2 c3, (getChecks s).1 = checks s ++ [c1; c2; c3] /\ ck_status c3 = WARNING.
Proof.
  intros get s. split; [vm_compute; congruence|].
  destruct (proj2 (proj1 getChecks_verdicts s)) as (c1 & c2 & c3 & E & _ & _ & _ & _ & W & _).
  { vm_compute. congruence. }
  exists c1, c2, c3. split; [exact E|]. apply W. reflexivity.
Defined.

(** ** Calling [getChecks] twice *)

(** C10, as stated, fails for a state in which no GET was observed: two
    calls return the reconnection FAILURE twice and neither of the other
    two verdicts. *)
Lemma getChecks_twice_without_reconnection :
  let first := getChecks (init 0) in
  let second := getChecks first.2 in
  ck_name <$> second.1 = ["ClientGracefulReconnect"; "ClientGracefulReconnect"] /\
  length (filter (λ c, ck_name c = "ClientRespectsRetryField") second.1) = 0%nat /\
  length (filter (λ c, ck_name c = "ClientSendsLastEventId") second.1) = 0%nat.
Proof. vm_compute. done. Qed.

Lemma generateChecks_appends (s : t) :
  exists verdicts,
    verdicts <> [] /\
    (forall earlier, generateChecks (set_checks earlier s) = set_checks (earlier ++ verdicts) s) /\
    (getConnectionCount s < 1 -> ck_name <$> verdicts = ["ClientGracefulReconnect"]) /\
    (1 <= getConnectionCount s ->
     ck_name <$> verdicts =
       ["ClientGracefulReconnect"; "ClientRespectsRetryField"; "ClientSendsLastEventId"]).
Proof.
  unfold generateChecks. cbn. case_bool_decide as Hn.
  - eexists. split; [|split; [intros earlier; fields; reflexivity|split; [reflexivity|lia]]].
    done.
  - exists [mkCheck "client-sse-graceful-reconnect" "ClientGracefulReconnect" SUCCESS None;
            match toolStreamCloseTime s, getReconnectionTime s with
            | Some closeTime, Some reconnectionTime =>
                retryTiming s (round64 (reconnectionTime - closeTime))
            | _, _ =>
                mkCheck "client-sse-retry-timing" "ClientRespectsRetryField" WARNING
                  (Some "Could not measure timing - tool stream close time or GET reconnection time not recorded")
            end;
            mkCheck "client-sse-last-event-id" "ClientSendsLastEventId"
              (if match lastEventIds s with
                  | [] => false
                  | first :: _ => bool_decide (first <> None)
                  end then SUCCESS else WARNING)
              (if negb match lastEventIds s with
                       | [] => false
                       | first :: _ => bool_decide (first <> None)
                       end
               then Some "Client did not send Last-Event-ID header on reconnection. This is a SHOULD requirement for resumability."
               else None)].
    split; [done|]. split; [|split; [lia|]].
    + intros earlier.
      destruct (toolStreamCloseTime s), (getReconnectionTime s); log_eq.
    + intros _.
      destruct (toolStreamCloseTime s), (getReconnectionTime s); cbn; try reflexivity.
      unfold retryTiming. repeat case_match; reflexivity.
Qed.

Lemma set_checks_id (s : t) : set_checks (checks s) s = s.
Proof. destruct s; reflexivity. Qed.

(** C10, amended.  [getChecks] is not idempotent: each call appends the
    verdicts of the state once more to the same array, so the second of
    two calls in succession returns the list of the first followed by the
    same verdicts again.  The verdicts are the three checks
    [ClientGracefulReconnect], [ClientRespectsRetryField] and
    [ClientSendsLastEventId] when a GET was observed, and
    [ClientGracefulReconnect] alone otherwise. *)
Theorem getChecks_not_idempotent (s : t) :
  let first := getChecks s in
  let second := getChecks first.2 in
  exists verdicts,
    verdicts <> [] /\
    first.1 = checks s ++ verdicts /\
    second.1 = checks s ++ verdicts ++ verdicts /\
    second.1 <> first.1 /\
    (getConnectionCount s < 1 -> ck_name <$> verdicts = ["ClientGracefulReconnect"]) /\
    (1 <= getConnectionCount s ->
     ck_name <$> verdicts =
       ["ClientGracefulReconnect"; "ClientRespectsRetryField"; "ClientSendsLastEventId"]).
Proof.
  intros first second. subst first second. unfold getChecks. cbn.
  destruct (generateChecks_appends s) as (verdicts & Hne & Happ & H0 & H1).
  exists verdicts.
  assert (generateChecks s = set_checks (checks s ++ verdicts) s) as E1.
  { rewrite <- (set_checks_id s) at 1. apply Happ. }
  assert (generateChecks (generateChecks s) =
          set_checks ((checks s ++ verdicts) ++ verdicts) s) as E2.
  { rewrite E1. apply Happ. }
  rewrite E2, E1. cbn [checks set_checks]. rewrite <- app_assoc.
  repeat split; try done.
  intros Heq. apply (f_equal length) in Heq. rewrite !length_app in Heq.
  destruct verdicts; [done|]. cbn in Heq. lia.
Qed.

Lemma getChecks_not_idempotent_witness :
  let get := mkRequest "GET" "/" ∅ (Throw (ErrorObject "Unexpected end of JSON input")) in
  let s := handleRequest get 0%nat 0%Q (init 0) in
  1 <= getConnectionCount s /\
  exists verdicts,
    (getChecks (getChecks s).2).1 = checks s ++ verdicts ++ verdicts /\
    ck_name <$> verdicts =
      ["ClientGracefulReconnect"; "ClientRespectsRetryField"; "ClientSendsLastEventId"].
Proof.
  intros get s. split; [vm_compute; congruence|].
  destruct (getChecks_not_idempotent s) as (verdicts & _ & _ & E & _ & _ & N).
  exists verdicts. split; [exact E|]. apply N. vm_compute. congruence.
Defined.

(** ** Multiple streams: the [ServerSSEStreamsFunctional] verdict *)

Module MS := ServerSSEMultipleStreamsScenario.

Lemma readOneEvent_is_sse (response : Response MS.body) (index : nat) :
  MS.is_sse (MS.readOneEvent response index) = MS.sse response.
Proof.
  unfold MS.readOneEvent, MS.sse.
  destruct (is_event_stream (contentType response)); cbn; [|done].
  destruct (responseBody response) as [b|]; [|done].
  destruct (ok response); cbn; [|done].
  destruct (MS.raced b), (MS.cancelled b); done.
Qed.

Lemma readOneEvent_has_error (response : Response MS.body) (index : nat) :
  MS.has_error (MS.readOneEvent response index) =
  MS.has_error (MS.readOneEvent response 0).
Proof.
  unfold MS.readOneEvent.
  destruct (is_event_stream (contentType response)); cbn; [|done].
  destruct (responseBody response) as [b|]; [|done].
  destruct (ok response); cbn; [|done].
  destruct (MS.raced b), (MS.cancelled b); done.
Qed.

(** Reading a response leaves an error exactly when the response is
    not read without error in the sense of the observation. *)
Lemma functional_readOneEvent (response : Response MS.body) :
  MS.functional response =
  MS.sse response && negb (MS.has_error (MS.readOneEvent response 0)).
Proof.
  unfold MS.functional, MS.read_without_error, MS.readOneEvent, MS.sse.
  destruct (is_event_stream (contentType response)); cbn [andb negb]; [|done].
  destruct (responseBody response) as [b|]; [|by rewrite andb_false_r].
  destruct (ok response); cbn [andb negb]; [|done].
  destruct (MS.raced b), (MS.cancelled b); done.
Qed.

Ltac filter_head :=
  repeat first
    [ rewrite filter_cons_True by congruence
    | rewrite filter_cons_False by congruence ].

Lemma count_sseStreams (rs : list (Response MS.body)) :
  length (filter (λ ct, is_event_stream ct = true) (contentType <$> rs)) =
  length (filter (λ r, MS.sse r = true) rs).
Proof.
  induction rs as [|r rs IH]; [done|].
  rewrite fmap_cons.
  destruct (MS.sse r) eqn:Hs; pose proof Hs as Hs'; unfold MS.sse in Hs';
    filter_head; cbn [length]; by rewrite IH.
Qed.

Lemma count_functionalSseStreams (g : nat -> nat) (rs : list (Response MS.body)) :
  length (filter (λ r, MS.has_error r = false)
            (filter (λ r, MS.is_sse r = true)
               (imap (λ index response, MS.readOneEvent response (g index)) rs))) =
  length (filter (λ r, MS.functional r = true) rs).
Proof.
  revert g. induction rs as [|r rs IH]; intros g; [done|].
  rewrite imap_cons.
  specialize (IH (g ∘ S)).
  pose proof (readOneEvent_is_sse r (g 0%nat)) as His.
  pose proof (readOneEvent_has_error r (g 0%nat)) as Hhe.
  pose proof (functional_readOneEvent r) as Hf.
  destruct (MS.sse r), (MS.has_error (MS.readOneEvent r 0));
    cbn in Hf; filter_head; cbn [length]; first [exact IH | f_equal; exact IH].
Qed.

Lemma functional_le_sse (rs : list (Response MS.body)) :
  (length (filter (λ r, MS.functional r = true) rs) <=
   length (filter (λ r, MS.sse r = true) rs))%nat.
Proof.
  induction rs as [|r rs IH]; [done|].
  pose proof (functional_readOneEvent r) as Hf.
  destruct (MS.sse r) eqn:Hs, (MS.has_error (MS.readOneEvent r 0));
    cbn in Hf; filter_head; cbn [length]; lia.
Qed.

Lemma count_pos {A} (P : A -> Prop) `{!forall x, Decision (P x)} (l : list A) :
  (0 < length (filter P l))%nat <-> Exists P l.
Proof.
  induction l as [|x l IH].
  - cbn. split; [lia|]. by intros ?%Exists_nil.
  - rewrite Exists_cons. destruct (decide (P x)).
    + rewrite filter_cons_True by done. cbn. split; [auto|lia].
    + rewrite filter_cons_False by done. rewrite IH. tauto.
Qed.

Lemma count_all_functional (rs : list (Response MS.body)) :
  length (filter (λ r, MS.functional r = true) rs) =
  length (filter (λ r, MS.sse r = true) rs)
  <-> Forall (λ r, MS.sse r = true -> MS.functional r = true) rs.
Proof.
  induction rs as [|r rs IH]; [split; [constructor|done]|].
  rewrite Forall_cons.
  pose proof (functional_le_sse rs) as Hle.
  pose proof (functional_readOneEvent r) as Hf.
  destruct (MS.sse r) eqn:Hs, (MS.has_error (MS.readOneEvent r 0));
    cbn in Hf; filter_head; cbn [length]; rewrite ?Hf.
  - split; [lia|]. intros [H _]. discriminate H. done.
  - rewrite <- IH. split; [intros; split; [done|lia]|intros [_ ->]; done].
  - rewrite IH. split; [intros; split; [done|done]|tauto].
  - rewrite IH. split; [intros; split; [done|done]|tauto].
Qed.

Lemma functional_errored (r : Response MS.body) :
  MS.sse r = true -> MS.functional r = negb (MS.errored r).
Proof.
  unfold MS.functional, MS.errored. intros ->. cbn. by rewrite negb_involutive.
Qed.

Lemma clean_is_functional (r : Response MS.body) :
  MS.sse r = true -> MS.event_or_clean_timeout r -> MS.functional r = true.
Proof.
  intros Hs (Hok & b & Hb & Hrace & Hcancel).
  unfold MS.functional, MS.read_without_error.
  rewrite Hs, Hb, Hok, Hcancel. cbn.
  destruct Hrace as [->|[event ->]]; reflexivity.
Qed.

Lemma probe_session_ok (w : Session) (st : Probe.locals) :
  newClient w = Ok () -> newTransport w = Ok () -> connect w = Ok () ->
  initialize_session w st =
    (Probe.Normal (transportSessionId w),
     Probe.mkLocals (Probe.checks st) true (Probe.closeCalls st)).
Proof.
  intros H1 H2 H3. unfold initialize_session.
  cbv [mbind probe_bind Probe.bind mret probe_ret Probe.ret Probe.await Probe.assign_client].
  rewrite H1, H2, H3. reflexivity.
Qed.

Lemma run_with_streams (w : MS.world) (streamResponses : list (Response MS.body)) :
  newClient (MS.session w) = Ok () ->
  newTransport (MS.session w) = Ok () ->
  connect (MS.session w) = Ok () ->
  truthy (transportSessionId (MS.session w)) = true ->
  MS.fulfilled (MS.post w <$> seq 0 MS.numStreams) = Ok streamResponses ->
  length streamResponses = 3%nat /\
  (MS.run w).1 =
    Ok [MS.acceptsCheck streamResponses; MS.functionalCheck streamResponses].
Proof.
  intros H1 H2 H3 Hsid Hposts. split.
  - clear -Hposts. unfold MS.numStreams in Hposts. cbn in Hposts.
    destruct (MS.post w 0%nat), (MS.post w 1%nat), (MS.post w 2%nat);
      cbn in Hposts; try discriminate.
    by injection Hposts as <-.
  - unfold MS.run, Probe.async_checks, Probe.try_finally, Probe.try_catch, MS.probe.
    unfold Probe.bind at 1. rewrite probe_session_ok by done.
    rewrite Hsid. cbn [negb].
    unfold MS.Promise_all. rewrite Hposts.
    cbv [mbind probe_bind Probe.bind Probe.await Probe.ret Probe.push cleanup
         Probe.get_client Probe.when Probe.close Probe.try_catch mret probe_ret
         Probe.checks Probe.client Probe.closeCalls].
    destruct (closeOutcome (MS.session w)); reflexivity.
Qed.

Lemma functionalCheck_counts (rs : list (Response MS.body)) :
  let n := length (filter (λ r, MS.sse r = true) rs) in
  let k := length (filter (λ r, MS.functional r = true) rs) in
  let c := MS.functionalCheck rs in
  ck_name c = "ServerSSEStreamsFunctional" /\
  ck_status c =
    (if bool_decide (0 < n)%nat then
       if bool_decide (k = n) then SUCCESS
       else if bool_decide (0 < k)%nat then WARNING else FAILURE
     else INFO) /\
  ck_errorMessage c =
    (if bool_decide (0 < n)%nat then
       if bool_decide (k < n)%nat
       then Some ("Only " +:+ pretty k +:+ "/" +:+ pretty n +:+
                  " SSE streams were functional")
       else None
     else None).
Proof.
  intros n k c. subst c n k. unfold MS.functionalCheck.
  rewrite count_sseStreams.
  pose proof (count_functionalSseStreams (λ i, i) rs) as Hk.
  cbv beta in Hk. rewrite Hk.
  case_bool_decide; done.
Qed.

Lemma functional_verdict_cases (streamResponses : list (Response MS.body)) :
  let c := MS.functionalCheck streamResponses in
  ck_name c = "ServerSSEStreamsFunctional" /\
  (Exists (λ r, MS.sse r = true) streamResponses ->
   Forall (λ r, MS.sse r = true -> MS.functional r = true) streamResponses ->
   ck_status c = SUCCESS) /\
  (Exists (λ r, MS.sse r = true) streamResponses ->
   Forall (λ r, MS.sse r = true -> MS.event_or_clean_timeout r) streamResponses ->
   ck_status c = SUCCESS) /\
  (Exists (λ r, MS.functional r = true) streamResponses ->
   Exists (λ r, MS.errored r = true) streamResponses ->
   ck_status c = WARNING) /\
  (Exists (λ r, MS.sse r = true) streamResponses ->
   Forall (λ r, MS.sse r = true -> MS.errored r = true) streamResponses ->
   ck_status c = FAILURE) /\
  (Forall (λ r, MS.sse r = false) streamResponses ->
   ck_status c = INFO /\ ck_errorMessage c = None) /\
  (forall w : MS.world,
     newClient (MS.session w) = Ok () ->
     newTransport (MS.session w) = Ok () ->
     connect (MS.session w) = Ok () ->
     truthy (transportSessionId (MS.session w)) = true ->
     MS.fulfilled (MS.post w <$> seq 0 MS.numStreams) = Ok streamResponses ->
     length streamResponses = 3%nat /\
     (MS.run w).1 = Ok [MS.acceptsCheck streamResponses; c]).
Proof.
  intros c.
  pose proof (functional_le_sse streamResponses) as Hle.
  pose proof (count_pos (λ r, MS.sse r = true) streamResponses) as Hn.
  pose proof (count_pos (λ r, MS.functional r = true) streamResponses) as Hf.
  pose proof (count_all_functional streamResponses) as Hall.
  destruct (functionalCheck_counts streamResponses) as (Hname & Hst & Hmsg).
  fold c in Hname, Hst, Hmsg.
  set (n := length (filter (λ r, MS.sse r = true) streamResponses)) in *.
  set (k := length (filter (λ r, MS.functional r = true) streamResponses)) in *.
  split; [exact Hname|].
  split; [|split; [|split; [|split; [|split]]]].
  - intros Hex Hfa. apply Hn in Hex. apply Hall in Hfa.
    rewrite Hst, !bool_decide_eq_true_2 by done. reflexivity.
  - intros Hex Hfa. apply Hn in Hex.
    assert (k = n) as Hkn.
    { apply Hall. eapply Forall_impl; [exact Hfa|].
      intros r Hr Hs. by apply clean_is_functional; [|apply Hr]. }
    rewrite Hst, !bool_decide_eq_true_2 by done. reflexivity.
  - intros Hfun Herr. apply Hf in Hfun.
    assert (k <> n) as Hkn.
    { intros Hkn. apply Hall in Hkn.
      apply Exists_exists in Herr as (r & Hin & Hr).
      rewrite Forall_forall in Hkn. specialize (Hkn r Hin).
      assert (MS.sse r = true) as Hs.
      { unfold MS.errored in Hr. by apply andb_true_iff in Hr as [? _]. }
      rewrite (functional_errored r Hs), Hr in Hkn. by specialize (Hkn Hs). }
    rewrite Hst, (bool_decide_eq_true_2 (0 < n)%nat) by lia.
    rewrite bool_decide_eq_false_2 by done.
    rewrite bool_decide_eq_true_2 by done. reflexivity.
  - intros Hex Hfa. apply Hn in Hex.
    assert (k = 0)%nat as Hk0.
    { destruct (decide (0 < k)%nat) as [Hpos|]; [|lia].
      apply Hf in Hpos. apply Exists_exists in Hpos as (r & Hin & Hr).
      rewrite Forall_forall in Hfa. specialize (Hfa r Hin).
      assert (MS.sse r = true) as Hs.
      { unfold MS.functional in Hr. by apply andb_true_iff in Hr as [? _]. }
      rewrite (functional_errored r Hs), (Hfa Hs) in Hr. discriminate. }
    rewrite Hst, (bool_decide_eq_true_2 (0 < n)%nat) by done.
    rewrite (bool_decide_eq_false_2 (k = n)) by lia.
    rewrite bool_decide_eq_false_2 by lia. reflexivity.
  - intros Hnone.
    assert (n = 0)%nat as Hn0.
    { destruct (decide (0 < n)%nat) as [Hpos|]; [|lia].
      apply Hn in Hpos. apply Exists_exists in Hpos as (r & Hin & Hr).
      rewrite Forall_forall in Hnone. rewrite (Hnone r Hin) in Hr. discriminate. }
    rewrite Hst, Hmsg, !(bool_decide_eq_false_2 (0 < n)%nat) by lia. done.
  - intros w. apply run_with_streams.
Qed.

(** C8. The [ServerSSEStreamsFunctional] verdict over the responses to the
    concurrent POSTs is SUCCESS when there is an SSE response and every
    SSE response was read without error (in particular when each yielded
    an event or a clean timeout); WARNING when some SSE responses were
    functional and some errored; FAILURE when there is an SSE response and
    every one errored; and INFO when no response was an SSE stream.  With
    a session id and three fulfilled POSTs, [run] returns this verdict
    after the acceptance check.

    An SSE response is errored when it was not answered 2xx, or has no
    body, or the race of the first read against the timer rejected, or
    cancelling the reader failed; it is functional when none of these
    happened: an event, the end of the stream and the timer's [null] all
    count.  With [n] SSE responses of which [k] are functional, the
    status is INFO for [n = 0], SUCCESS for [k = n], WARNING for
    [0 < k < n] and FAILURE for [k = 0 < n], and the check carries the
    error message [Only k/n SSE streams were functional] exactly when
    [k < n]. *)
Theorem streams_functional_verdict (streamResponses : list (Response MS.body)) :
  let c := MS.functionalCheck streamResponses in
  ck_name c = "ServerSSEStreamsFunctional" /\
  (Exists (λ r, MS.sse r = true) streamResponses ->
   Forall (λ r, MS.sse r = true -> MS.functional r = true) streamResponses ->
   ck_status c = SUCCESS) /\
  (Exists (λ r, MS.sse r = true) streamResponses ->
   Forall (λ r, MS.sse r = true -> MS.event_or_clean_timeout r) streamResponses ->
   ck_status c = SUCCESS) /\
  (Exists (λ r, MS.functional r = true) streamResponses ->
   Exists (λ r, MS.errored r = true) streamResponses ->
   ck_status c = WARNING) /\
  (Exists (λ r, MS.sse r = true) streamResponses ->
   Forall (λ r, MS.sse r = true -> MS.errored r = true) streamResponses ->
   ck_status c = FAILURE) /\
  (Forall (λ r, MS.sse r = false) streamResponses ->
   ck_status c = INFO /\ ck_errorMessage c = None) /\
  (forall w : MS.world,
     newClient (MS.session w) = Ok () ->
     newTransport (MS.session w) = Ok () ->
     connect (MS.session w) = Ok () ->
     truthy (transportSessionId (MS.session w)) = true ->
     MS.fulfilled (MS.post w <$> seq 0 MS.numStreams) = Ok streamResponses ->
     length streamResponses = 3%nat /\
     (MS.run w).1 = Ok [MS.acceptsCheck streamResponses; c]) /\
  (forall r : Response MS.body,
     MS.errored r = true <->
     MS.sse r = true /\
     (ok r = false \/ responseBody r = None \/
      exists b, responseBody r = Some b /\
                ((exists e, MS.raced b = MS.ReadFailed e) \/
                 (exists e, MS.cancelled b = Throw e)))) /\
  (forall r : Response MS.body,
     MS.functional r = true <->
     MS.sse r = true /\ ok r = true /\
     exists b, responseBody r = Some b /\
               (forall e, MS.raced b <> MS.ReadFailed e) /\
               MS.cancelled b = Ok ()) /\
  (let n := length (filter (λ r, MS.sse r = true) streamResponses) in
   let k := length (filter (λ r, MS.functional r = true) streamResponses) in
   (k <= n)%nat /\
   ck_status c =
     (if bool_decide (n = 0)%nat then INFO
      else if bool_decide (k = n) then SUCCESS
      else if bool_decide (k = 0)%nat then FAILURE
      else WARNING) /\
   ck_errorMessage c =
     (if bool_decide (k < n)%nat
      then Some ("Only " +:+ pretty k +:+ "/" +:+ pretty n +:+ " SSE streams were functional")
      else None)).
Proof.
  intros c. subst c.
  pose proof (functional_verdict_cases streamResponses) as H. cbv zeta in H.
  destruct H as (H1 & H2 & H3 & H4 & H5 & H6 & H7).
  do 7 (split; [assumption|]). clear H1 H2 H3 H4 H5 H6 H7.
  split; [|split].
  - intros r. unfold MS.errored, MS.read_without_error.
    destruct (MS.sse r); cbn [andb]; [|split; [discriminate|intros [? _]; discriminate]].
    destruct (ok r); cbn [andb negb]; [|split; [auto|reflexivity]].
    destruct (responseBody r) as [b|]; cbn [negb]; [|split; [auto|reflexivity]].
    destruct (MS.raced b) as [v| |e] eqn:Er, (MS.cancelled b) as [[]|e'] eqn:Ec;
      cbn; split; intros H;
      try discriminate H; try reflexivity;
      try (split; [reflexivity|]; right; right; exists b; split; [reflexivity|];
           rewrite ?Er, ?Ec; eauto; fail);
      destruct H as (_ & [H|[H|(b' & Hb & [[x Hx]|[x Hx]])]]);
      try discriminate; injection Hb as <-; congruence.
  - intros r. unfold MS.functional, MS.read_without_error.
    destruct (MS.sse r); cbn [andb]; [|split; [discriminate|intros [? _]; discriminate]].
    destruct (ok r); cbn [andb];
      [|split; [discriminate|intros (_ & ? & _); discriminate]].
    destruct (responseBody r) as [b|];
      [|split; [discriminate|intros (_ & _ & ? & ? & _); discriminate]].
    destruct (MS.raced b) as [v| |e] eqn:Er, (MS.cancelled b) as [[]|e'] eqn:Ec;
      cbn; split; intros H;
      try discriminate H; try reflexivity;
      try (do 2 (split; [reflexivity|]); exists b; rewrite Er, Ec;
           split; [reflexivity|]; split; [discriminate|reflexivity]);
      destruct H as (_ & _ & b' & Hb & Hr & Hc); injection Hb as <-;
      first [congruence | by destruct (Hr e)].
  - destruct (functionalCheck_counts streamResponses) as (_ & Hst & Hmsg).
    pose proof (functional_le_sse streamResponses) as Hle.
    cbv zeta in Hst, Hmsg |- *. split; [exact Hle|]. rewrite Hst, Hmsg.
    split; repeat case_bool_decide; first [reflexivity | lia].
Qed.

(** ** The top-level guard of the client-role scenarios *)

Module PS := ServerSSEPollingScenario.

Section keeps_client.
Context {A B : Type}.

Lemma keeps_ret (a : A) : Probe.keeps_client (Probe.ret a).
Proof. intros st. done. Qed.

Lemma keeps_mret (a : A) : Probe.keeps_client (mret a : Probe.M A).
Proof. intros st. done. Qed.

Lemma keeps_raise (e : exn) : Probe.keeps_client (Probe.raise e : Probe.M A).
Proof. intros st. done. Qed.

Lemma keeps_return : Probe.keeps_client (Probe.return_checks : Probe.M A).
Proof. intros st. done. Qed.

Lemma keeps_await (r : result A) : Probe.keeps_client (Probe.await r).
Proof. intros st. destruct r; done. Qed.

Lemma keeps_bind (m : Probe.M A) (k : A -> Probe.M B) :
  Probe.keeps_client m -> (forall a, Probe.keeps_client (k a)) ->
  Probe.keeps_client (Probe.bind m k).
Proof.
  intros Hm Hk st. unfold Probe.bind.
  specialize (Hm st). destruct (m st) as [[a| |e] st']; cbn in Hm |- *; try done.
  destruct Hm as [E1 C1], (Hk a st') as [E2 C2].
  split; [congruence|auto].
Qed.

Lemma keeps_mbind (m : Probe.M A) (k : A -> Probe.M B) :
  Probe.keeps_client m -> (forall a, Probe.keeps_client (k a)) ->
  Probe.keeps_client (m ≫= k).
Proof. apply keeps_bind. Qed.
End keeps_client.

Lemma keeps_push (c : ConformanceCheck) : Probe.keeps_client (Probe.push c).
Proof. intros st. done. Qed.

Lemma keeps_assign_client : Probe.keeps_client Probe.assign_client.
Proof. intros st. done. Qed.

Lemma keeps_when (b : bool) (m : Probe.M unit) :
  Probe.keeps_client m -> Probe.keeps_client (Probe.when b m).
Proof. intros Hm. destruct b; [done|]. apply keeps_ret. Qed.

Ltac keeps :=
  repeat first
    [ apply keeps_push | apply keeps_mret | apply keeps_ret | apply keeps_raise
    | apply keeps_return | apply keeps_await | apply keeps_assign_client
    | apply keeps_when
    | apply keeps_mbind; [|intros ?] | apply keeps_bind; [|intros ?]
    | assumption
    | match goal with
      | |- Probe.keeps_client (if ?b then _ else _) => destruct b
      | |- Probe.keeps_client (match ?x with _ => _ end) => destruct x
      end ].

Lemma keeps_initialize_session (w : Session) :
  Probe.keeps_client (initialize_session w).
Proof. unfold initialize_session. keeps. Qed.

Lemma keeps_loggingFetch (outcome : result (Response PS.stream)) :
  Probe.keeps_client (PS.loggingFetch outcome).
Proof. unfold PS.loggingFetch. keeps. Qed.

Lemma keeps_scan_items (l : list PS.item) (v : PS.scan) :
  Probe.keeps_client (PS.scan_items v l).
Proof.
  revert v. induction l as [|i l IH]; intros v; cbn [PS.scan_items]; [keeps|].
  apply keeps_bind; [|intros ?; apply IH].
  unfold PS.scan_item. keeps.
Qed.

Lemma keeps_resume_items (l : list PS.item) :
  Probe.keeps_client (PS.resume_items l).
Proof.
  induction l as [|i l IH]; cbn [PS.resume_items]; keeps.
Qed.

(** Steps 2 to 4 of the polling probe, and steps 2 and 3 of the
    multiple-streams probe. *)
Ltac keeps_polling_steps :=
  apply keeps_mbind; [keeps|intros _];
  apply keeps_bind; [apply keeps_loggingFetch|intros postResponse];
  keeps;
  [ apply keeps_scan_items
  | unfold PS.reconnect;
    destruct (_ && _ && _);
    [ apply keeps_bind; [apply keeps_loggingFetch|intros getResponse];
      keeps; apply keeps_resume_items
    | keeps ] ].

Lemma keeps_polling_probe (w : PS.world) : Probe.keeps_client (PS.probe w).
Proof.
  unfold PS.probe.
  apply keeps_bind; [apply keeps_initialize_session|intros sessionId].
  keeps_polling_steps.
Qed.

Lemma keeps_streams_probe (w : MS.world) : Probe.keeps_client (MS.probe w).
Proof.
  unfold MS.probe.
  apply keeps_bind; [apply keeps_initialize_session|intros sessionId].
  keeps.
Qed.

Lemma initialize_session_client (w : Session) (st : Probe.locals) :
  newClient w = Ok () -> Probe.client (initialize_session w st).2 = true.
Proof.
  intros H. unfold initialize_session.
  cbv [mbind probe_bind Probe.bind mret probe_ret Probe.ret Probe.await
       Probe.raise Probe.assign_client].
  rewrite H. destruct (newTransport w), (connect w); reflexivity.
Qed.

Lemma bind_client {A B} (m : Probe.M A) (k : A -> Probe.M B) (st : Probe.locals) :
  Probe.client (m st).2 = true ->
  (forall a, Probe.keeps_client (k a)) ->
  Probe.client (Probe.bind m k st).2 = true.
Proof.
  intros Hm Hk. unfold Probe.bind.
  destruct (m st) as [[a| |e] st']; cbn in Hm |- *; try done.
  by apply Hk.
Qed.

Lemma polling_probe_client (w : PS.world) (st : Probe.locals) :
  newClient (PS.session w) = Ok () -> Probe.client (PS.probe w st).2 = true.
Proof.
  intros H. unfold PS.probe.
  apply bind_client; [by apply initialize_session_client|intros sessionId].
  keeps_polling_steps.
Qed.

Lemma streams_probe_client (w : MS.world) (st : Probe.locals) :
  newClient (MS.session w) = Ok () -> Probe.client (MS.probe w st).2 = true.
Proof.
  intros H. unfold MS.probe.
  apply bind_client; [by apply initialize_session_client|intros sessionId].
  keeps.
Qed.

(** The frame [try { probe } catch (error) { checks.push(failure) }
    finally { cleanup }] around a probe, followed by [return checks]. *)
Lemma guarded_run (probe : Probe.M unit) (failure : exn -> ConformanceCheck) (w : Session) :
  Probe.keeps_client probe ->
  let body := probe (Probe.mkLocals [] false 0%nat) in
  let r :=
    Probe.async_checks
      (Probe.try_finally (Probe.try_catch probe (λ e, Probe.push (failure e))) (cleanup w)) in
  r.1 = Ok (match body.1 with
            | Probe.Raised e => Probe.checks body.2 ++ [failure e]
            | _ => Probe.checks body.2
            end) /\
  Probe.closeCalls r.2 = (if Probe.client body.2 then 1 else 0)%nat.
Proof.
  intros Hk body r. subst r body.
  destruct (Hk (Probe.mkLocals [] false 0%nat)) as [Hcalls _]. cbn in Hcalls.
  unfold Probe.async_checks, Probe.try_finally, Probe.try_catch.
  destruct (probe (Probe.mkLocals [] false 0%nat)) as [[[]| |e] [cs cl calls]];
    cbn in Hcalls; subst calls;
    cbv [cleanup Probe.bind Probe.get_client Probe.when Probe.try_catch Probe.close
         Probe.push Probe.ret mret probe_ret
         Probe.checks Probe.client Probe.closeCalls fst snd];
    destruct cl, (closeOutcome w); done.
Qed.

(** C9. In both client-role scenarios no exception leaves [run]: the
    promise is always fulfilled with the check list.  When the probe
    body throws, the checks recorded until then are returned followed by
    exactly one FAILURE check that carries the error text; when it does
    not, the checks are returned as they are.  On every path the cleanup
    block runs: [client.close()] is called once if [client] was assigned
    (which is the case as soon as the [Client] constructor returned), and
    what it throws is ignored. *)
Theorem run_guards_every_exception :
  (forall w : PS.world,
     let body := PS.probe w (Probe.mkLocals [] false 0%nat) in
     (exists checks, (PS.run w).1 = Ok checks) /\
     (forall e, body.1 = Probe.Raised e ->
        (PS.run w).1 =
          Ok (Probe.checks body.2 ++
              [mkCheck "server-sse-polling-error" "ServerSSEPollingTest" FAILURE
                 (Some ("Error: " +:+ error_text e))])) /\
     ((forall e, body.1 <> Probe.Raised e) -> (PS.run w).1 = Ok (Probe.checks body.2)) /\
     Probe.closeCalls (PS.run w).2 = (if Probe.client body.2 then 1 else 0)%nat /\
     (newClient (PS.session w) = Ok () -> Probe.closeCalls (PS.run w).2 = 1%nat)) /\
  (forall w : MS.world,
     let body := MS.probe w (Probe.mkLocals [] false 0%nat) in
     (exists checks, (MS.run w).1 = Ok checks) /\
     (forall e, body.1 = Probe.Raised e ->
        (MS.run w).1 =
          Ok (Probe.checks body.2 ++
              [mkCheck "server-sse-multiple-streams-error" "ServerSSEMultipleStreamsTest" FAILURE
                 (Some ("Error: " +:+ error_text e))])) /\
     ((forall e, body.1 <> Probe.Raised e) -> (MS.run w).1 = Ok (Probe.checks body.2)) /\
     Probe.closeCalls (MS.run w).2 = (if Probe.client body.2 then 1 else 0)%nat /\
     (newClient (MS.session w) = Ok () -> Probe.closeCalls (MS.run w).2 = 1%nat)).
Proof.
  split.
  - intros w body.
    destruct (guarded_run (PS.probe w)
                (λ e, mkCheck "server-sse-polling-error" "ServerSSEPollingTest" FAILURE
                        (Some ("Error: " +:+ error_text e)))
                (PS.session w) (keeps_polling_probe w)) as [Hr Hc].
    fold body in Hr, Hc. unfold PS.run.
    split; [eauto|]. split; [|split; [|split]].
    + intros e He. rewrite He in Hr. exact Hr.
    + intros Hne. destruct (body.1) as [[]| |e] eqn:E; try exact Hr.
      by destruct (Hne e).
    + exact Hc.
    + intros Hn. etrans; [exact Hc|].
      subst body. by rewrite polling_probe_client.
  - intros w body.
    destruct (guarded_run (MS.probe w)
                (λ e, mkCheck "server-sse-multiple-streams-error"
                        "ServerSSEMultipleStreamsTest" FAILURE
                        (Some ("Error: " +:+ error_text e)))
                (MS.session w) (keeps_streams_probe w)) as [Hr Hc].
    fold body in Hr, Hc. unfold MS.run.
    split; [eauto|]. split; [|split; [|split]].
    + intros e He. rewrite He in Hr. exact Hr.
    + intros Hne. destruct (body.1) as [[]| |e] eqn:E; try exact Hr.
      by destruct (Hne e).
    + exact Hc.
    + intros Hn. etrans; [exact Hc|].
      subst body. by rewrite streams_probe_client.
Qed.

Lemma run_guards_every_exception_witness :
  let priming := mkEvent (Some "e1") None "" (Throw (ErrorObject "Unexpected end of JSON input")) in
  let w :=
    PS.mkWorld
      (mkSession (Ok ()) (Ok ()) (Ok ()) (Some "abc") (Throw (Thrown "close failed")))
      (Ok (mkResponse 200 (Some "text/event-stream")
             (Some (PS.mkStream [PS.OnRetry 500; PS.Event priming]
                      (Throw (ErrorObject "terminated"))))))
      (Throw (Thrown "unused")) in
  (PS.probe w (Probe.mkLocals [] false 0%nat)).1 = Probe.Raised (ErrorObject "terminated") /\
  (PS.run w).1 =
    Ok [PS.info "outgoing-request" "OutgoingRequest";
        PS.info "incoming-response" "IncomingResponse";
        PS.info "incoming-sse-event" "IncomingSseEvent";
        mkCheck "server-sse-polling-error" "ServerSSEPollingTest" FAILURE
          (Some "Error: terminated")] /\
  Probe.closeCalls (PS.run w).2 = 1%nat.
Proof.
  intros priming w. split; [reflexivity|].
  destruct (proj1 run_guards_every_exception w) as (_ & H & _ & _ & Hc).
  split; [exact (H (ErrorObject "terminated") eq_refl)|exact (Hc eq_refl)].
Defined.

Lemma streams_functional_verdict_witness :
  let waiting :=
    mkResponse 200 (Some "text/event-stream") (Some (MS.mkBody MS.TimedOut (Ok ()))) in
  let broken :=
    mkResponse 200 (Some "text/event-stream")
      (Some (MS.mkBody (MS.ReadFailed (ErrorObject "terminated")) (Ok ()))) in
  let refused :=
    mkResponse 503 (Some "text/event-stream") (Some (MS.mkBody MS.TimedOut (Ok ()))) in
  let uncancelled :=
    mkResponse 200 (Some "text/event-stream")
      (Some (MS.mkBody MS.TimedOut (Throw (ErrorObject "cancel failed")))) in
  let plain := mkResponse 200 (Some "application/json") None in
  ck_status (MS.functionalCheck [waiting; waiting; waiting]) = SUCCESS /\
  ck_status (MS.functionalCheck [waiting; broken; waiting]) = WARNING /\
  ck_status (MS.functionalCheck [broken; broken; broken]) = FAILURE /\
  ck_status (MS.functionalCheck [refused; uncancelled; plain]) = FAILURE /\
  ck_errorMessage (MS.functionalCheck [refused; uncancelled; plain]) =
    Some "Only 0/2 SSE streams were functional".
Proof.
  intros waiting broken refused uncancelled plain.
  split; [|split; [|split; [|split]]].
  - apply (proj1 (proj2 (proj2 (streams_functional_verdict [waiting; waiting; waiting])))).
    + apply Exists_cons_hd. reflexivity.
    + repeat constructor; try reflexivity;
        (exists (MS.mkBody MS.TimedOut (Ok ())); repeat split; auto).
  - apply (proj1 (proj2 (proj2 (proj2 (streams_functional_verdict [waiting; broken; waiting]))))).
    + apply Exists_cons_hd. reflexivity.
    + apply Exists_cons_tl, Exists_cons_hd. reflexivity.
  - apply (proj1 (proj2 (proj2 (proj2 (proj2 (streams_functional_verdict [broken; broken; broken])))))).
    + apply Exists_cons_hd. reflexivity.
    + repeat constructor.
  - apply (proj1 (proj2 (proj2 (proj2 (proj2
             (streams_functional_verdict [refused; uncancelled; plain])))))).
    + apply Exists_cons_hd. reflexivity.
    + repeat constructor; discriminate.
  - destruct (streams_functional_verdict [refused; uncancelled; plain])
      as (_ & _ & _ & _ & _ & _ & _ & _ & _ & _ & _ & Hmsg).
    rewrite Hmsg. reflexivity.
Defined.

(** * Further properties *)

(** ** The harness: how requests are answered *)

(** Evaluate [handleRequest] on a state given by its fields. *)
Ltac answer :=
  cbv [handlePostRequest handleInitialize handleToolsList handleToolsCall
       handleGetSSEStream RetryTrace.logged];
  fields;
  cbn [fmap list_fmap app];
  repeat (rewrite <- app_assoc; cbn [app]).

(** X1. A POST whose body is not JSON is answered 400 with the parse
    error, and so is the JSON body [null], on which reading [method]
    throws; in both cases nothing but the response is recorded: no check,
    no event id, no change of the pending slot. *)
Theorem malformed_body_rejected
    (req : IncomingMessage) (res : ServerResponse) (now : Q) (s : t) :
  method req = "POST" ->
  (forall e, body req = Throw e ->
     handleRequest req res now s =
       RetryTrace.logged res
         [WriteHead 400 [("Content-Type", "application/json")];
          End (Some (Stringified (ParseError e)))] s) /\
  (body req = Ok JNull ->
     handleRequest req res now s =
       RetryTrace.logged res
         [WriteHead 400 [("Content-Type", "application/json")];
          End (Some (Stringified
                       (ParseError
                          (ErrorObject "Cannot read properties of null (reading 'method')"))))]
         s).
Proof.
  intros Hm. unfold handleRequest.
  rewrite bool_decide_eq_false_2 by (rewrite Hm; done).
  rewrite bool_decide_eq_true_2 by done.
  split.
  - intros e He. unfold handlePostRequest. rewrite He. destruct s. answer. reflexivity.
  - intros He. unfold handlePostRequest. rewrite He. cbn [get_prop].
    destruct s. answer. reflexivity.
Qed.

Lemma malformed_body_rejected_witness :
  let req := mkRequest "POST" "/" ∅ (Ok JNull) in
  method req = "POST" /\
  statusCode 4%nat (handleRequest req 4%nat 0%Q (init 0)) = Some 400 /\
  checks (handleRequest req 4%nat 0%Q (init 0)) = [].
Proof.
  intros req. split; [reflexivity|].
  rewrite (proj2 (malformed_body_rejected req 4%nat 0%Q (init 0) eq_refl) eq_refl).
  split; reflexivity.
Defined.

Ltac member := apply list_elem_of_In; cbn; tauto.

Ltac one_head :=
  answer;
  first [ eexists _, _, [_]; split; [reflexivity|]
        | eexists _, _, [_; _]; split; [reflexivity|] ];
  (split; [member|]); (split; [repeat constructor|]);
  first [ left; eexists; reflexivity
        | right; split; [member|split; [done|repeat constructor]] ].

(** X2. Every request is answered: the response object receives exactly
    one head, first, with status 200, 202, 400 or 405; after it the
    response is either ended at once or it is an event stream that is left
    open (a GET stream, or the [tools/call] stream that the timer ends). *)
Theorem every_request_gets_one_head
    (req : IncomingMessage) (res : ServerResponse) (now : Q) (s : t) :
  exists code hs rest,
    wire (handleRequest req res now s) =
      wire s ++ (res, WriteHead code hs) :: ((λ op, (res, op)) <$> rest) /\
    code ∈ [200; 202; 400; 405] /\
    Forall (λ op, RetryTrace.is_head op = false) rest /\
    ((exists c, rest = [End c]) \/
     (("Content-Type", "text/event-stream") ∈ hs /\
      rest <> [] /\
      Forall (λ op, RetryTrace.is_end op = false) rest)).
Proof.
  unfold handleRequest.
  destruct (bool_decide (method req = "GET")).
  - destruct (truthy (headers req !! "last-event-id")), s as [? ? ? ? ? ? ? ? p ? ? ?];
      destruct p as [|[]]; cbv [not_null]; one_head.
  - destruct (bool_decide (method req = "POST")); [|destruct s; one_head].
    unfold handlePostRequest.
    destruct (body req) as [request|e]; [|destruct s; one_head].
    destruct (get_prop_cases request "method" "id")
      as [(m & request_id & Em & Ei)|(e & e' & Em & Ei)];
      rewrite Em, ?Ei; [|destruct s; one_head].
    destruct (interpolate m) as [[]|bad]; [|destruct s; one_head].
    destruct s, (is_string "initialize" m), (is_string "tools/list" m),
      (is_string "tools/call" m), (is_undefined request_id); one_head.
Qed.

(** ** The harness: what a run records *)

Ltac grows :=
  first [ reflexivity | symmetry; apply app_nil_r ].

Ltac step_log_leaf :=
  answer; eexists _, _;
  split; [grows|]; split; [repeat constructor|];
  split; [grows|]; split; [|reflexivity];
  repeat constructor; try (cbv [RetryTrace.names_session]; cbn; member).

Lemma step_log (s : t) (i : input) :
  exists cs ops,
    checks (step s i) = checks s ++ cs /\
    Forall (λ c, ck_status c = INFO /\ ck_errorMessage c = None) cs /\
    wire (step s i) = wire s ++ ops /\
    Forall (RetryTrace.names_session (sessionId s)) ops /\
    sessionId (step s i) = sessionId s.
Proof.
  destruct i as [req res now|tm now]; cbn [step].
  - unfold handleRequest.
    destruct (bool_decide (method req = "GET")).
    + destruct (truthy (headers req !! "last-event-id")), s as [? ? ? ? ? ? ? ? p ? ? ?];
        destruct p as [|[]]; cbv [not_null]; step_log_leaf.
    + destruct (bool_decide (method req = "POST")); [|destruct s; step_log_leaf].
      unfold handlePostRequest.
      destruct (body req) as [request|e]; [|destruct s; step_log_leaf].
      destruct (get_prop_cases request "method" "id")
        as [(m & request_id & Em & Ei)|(e & e' & Em & Ei)];
        rewrite Em, ?Ei; [|destruct s; step_log_leaf].
      destruct (interpolate m) as [[]|bad]; [|destruct s; step_log_leaf].
      destruct s, (is_string "initialize" m), (is_string "tools/list" m),
        (is_string "tools/call" m), (is_undefined request_id); step_log_leaf.
  - destruct (bool_decide (tm ∈ timers s)); destruct s;
      cbv [closeToolsCallStream]; step_log_leaf.
Qed.

Lemma run_log (inputs : list input) (s : t) :
  exists cs ops,
    checks (run s inputs) = checks s ++ cs /\
    Forall (λ c, ck_status c = INFO /\ ck_errorMessage c = None) cs /\
    wire (run s inputs) = wire s ++ ops /\
    Forall (RetryTrace.names_session (sessionId s)) ops.
Proof.
  revert s. induction inputs as [|i inputs IH]; intros s.
  - exists [], []. rewrite !app_nil_r. repeat split; constructor.
  - destruct (step_log s i) as (cs & ops & Hc & Hi & Hw & Hn & Hs).
    destruct (IH (step s i)) as (cs' & ops' & Hc' & Hi' & Hw' & Hn').
    exists (cs ++ cs'), (ops ++ ops'). unfold run in *. cbn [foldl].
    rewrite Hc', Hw', Hc, Hw, <- !app_assoc. rewrite Hs in Hn'.
    repeat split; by apply Forall_app.
Qed.

(** X3. The session id is stable: in any run of the harness every
    response head of status 200 carries the header [mcp-session-id] with
    the id the instance was created with. *)
Theorem session_id_is_stable (dateNow : Z) (inputs : list input) :
  Forall (RetryTrace.names_session ("session-" +:+ pretty dateNow))
    (wire (run (init dateNow) inputs)).
Proof.
  destruct (run_log inputs (init dateNow)) as (cs & ops & _ & _ & Hw & Hn).
  rewrite Hw. exact Hn.
Qed.

(** X4. Handling requests and timers only appends to the check list, and
    only INFO checks without an error message: the checks recorded before
    stay a prefix, and no verdict (SUCCESS, WARNING or FAILURE) is
    recorded before [getChecks] is called. *)
Theorem run_records_info_only (s : t) (inputs : list input) :
  exists recorded,
    checks (run s inputs) = checks s ++ recorded /\
    Forall (λ c, ck_status c = INFO /\ ck_errorMessage c = None) recorded.
Proof.
  destruct (run_log inputs s) as (cs & ops & Hc & Hi & _).
  eauto.
Qed.

(** X5. A POST whose method is not [tools/call] and that is not taken for
    a notification is answered 200 with one JSON document that echoes the
    [id] of the request: the initialize result for [initialize], the tool
    list for [tools/list], an empty result for any other method that can
    be converted to a string for the log entry (every string, number,
    boolean, [null] or absent method can).  The response is ended at once;
    no event id is minted, the pending slot and the timers are left
    alone.  A method that cannot be converted (an object with a member
    named [toString], or an array that holds one) makes the handler
    throw: the answer is 400 with the error, and no check is recorded. *)
Theorem json_replies_echo_the_id
    (req : IncomingMessage) (res : ServerResponse) (now : Q) (s : t)
    (request : json) (request_method request_id : jsvalue) :
  method req = "POST" ->
  body req = Ok request ->
  get_prop request "method" = Ok request_method ->
  get_prop request "id" = Ok request_id ->
  is_string "tools/call" request_method = false ->
  is_string "initialize" request_method
    || is_string "tools/list" request_method
    || negb (is_undefined request_id) = true ->
  let s' := handleRequest req res now s in
  match interpolate request_method with
  | Ok _ =>
      wire s' =
        wire s ++
        [(res, WriteHead 200 (json_headers s));
         (res, End (Some (Stringified
                            (if is_string "initialize" request_method
                             then InitializeResponse request_id
                             else if is_string "tools/list" request_method
                                  then ToolsListResponse request_id
                                  else EmptyResult request_id))))]
  | Throw error =>
      wire s' =
        wire s ++
        [(res, WriteHead 400 [("Content-Type", "application/json")]);
         (res, End (Some (Stringified (ParseError error))))] /\
      checks s' = checks s
  end /\
  eventIdCounter s' = eventIdCounter s /\
  pendingToolCallId s' = pendingToolCallId s /\
  timers s' = timers s.
Proof.
  intros Hm Hb Hmeth Hid Htc Hreply s'. subst s'. unfold handleRequest.
  rewrite bool_decide_eq_false_2 by (rewrite Hm; done).
  rewrite bool_decide_eq_true_2 by done.
  unfold handlePostRequest. rewrite Hb, Hmeth, Hid.
  destruct (interpolate request_method) as [[]|error].
  - rewrite Htc.
    destruct s, (is_string "initialize" request_method),
      (is_string "tools/list" request_method), (is_undefined request_id);
      try discriminate Hreply; answer; repeat split.
  - destruct s. answer. repeat split.
Qed.

Lemma json_replies_echo_the_id_witness :
  let request :=
    JObject [("jsonrpc", JString "2.0"); ("id", JString "abc"); ("method", JString "ping")] in
  let odd :=
    JObject [("jsonrpc", JString "2.0"); ("id", JString "abc");
             ("method", JArray [JObject [("toString", JNull)]])] in
  let refused := handleRequest (mkRequest "POST" "/" ∅ (Ok odd)) 5%nat 0%Q (init 0) in
  received 5%nat (handleRequest (mkRequest "POST" "/" ∅ (Ok request)) 5%nat 0%Q (init 0)) =
    [WriteHead 200 (json_headers (init 0));
     End (Some (Stringified (EmptyResult (Value (JString "abc")))))] /\
  (wire refused =
     [(5%nat, WriteHead 400 [("Content-Type", "application/json")]);
      (5%nat, End (Some (Stringified
                           (ParseError (ErrorObject "Cannot convert object to primitive value")))))] /\
   checks refused = checks (init 0)).
Proof.
  intros request odd refused. split.
  - pose proof (json_replies_echo_the_id (mkRequest "POST" "/" ∅ (Ok request)) 5%nat 0%Q (init 0)
                  request (Value (JString "ping")) (Value (JString "abc"))
                  eq_refl eq_refl eq_refl eq_refl eq_refl eq_refl) as [H _].
    unfold received. rewrite H. reflexivity.
  - exact (proj1 (json_replies_echo_the_id (mkRequest "POST" "/" ∅ (Ok odd)) 5%nat 0%Q (init 0)
                    odd (Value (JArray [JObject [("toString", JNull)]])) (Value (JString "abc"))
                    eq_refl eq_refl eq_refl eq_refl eq_refl eq_refl)).
Defined.

(** ** The harness: a whole exchange *)

Ltac received_of :=
  unfold received; cbn [wire];
  repeat first
    [ rewrite filter_cons_True by (cbn; congruence)
    | rewrite filter_cons_False by (cbn; congruence) ];
  reflexivity.

Lemma exchange_state
    (dateNow : Z) (call get : IncomingMessage) (res1 res2 : ServerResponse)
    (t0 t1 t2 : Q) (request : json) (request_id : jsvalue) (lastId : string) :
  method call = "POST" ->
  body call = Ok request ->
  get_prop request "method" = Ok (Value (JString "tools/call")) ->
  get_prop request "id" = Ok request_id ->
  not_null request_id = true ->
  method get = "GET" ->
  headers get !! "last-event-id" = Some lastId ->
  lastId <> "" ->
  run (init dateNow)
    [Request call res1 t0; Timeout (mkTimer 50 res1) t1; Request get res2 t2] =
  mkState
    [info "incoming-request" "IncomingRequest";
     info "outgoing-sse-event" "OutgoingSseEvent";
     info "outgoing-stream-close" "OutgoingStreamClose";
     info "incoming-request" "IncomingRequest";
     info "outgoing-sse-event" "OutgoingSseEvent";
     info "outgoing-sse-event" "OutgoingSseEvent"]
    (Some t1) (Some t2) 1 [Some lastId] 500 3 ("session-" +:+ pretty dateNow)
    (Value JNull) (Some res2)
    [(res1, WriteHead 200 (sse_headers (init dateNow)));
     (res1, Write (PrimingContent (event_id 1) 500));
     (res1, End None);
     (res2, WriteHead 200 (sse_headers (init dateNow)));
     (res2, Write (PrimingContent (event_id 2) 500));
     (res2, Write (ResponseContent (event_id 3) (ToolResponse request_id)))]
    [].
Proof.
  intros Hm Hb Hmeth Hid Hnn Hg Hl Hne.
  unfold run. cbn [foldl].
  change (step (init dateNow) (Request call res1 t0))
    with (handleRequest call res1 t0 (init dateNow)).
  assert (handleRequest call res1 t0 (init dateNow) =
          handleToolsCall res1 request_id
            (push_check (info "incoming-request" "IncomingRequest") (init dateNow))) as ->.
  { unfold handleRequest.
    rewrite bool_decide_eq_false_2 by (rewrite Hm; done).
    rewrite bool_decide_eq_true_2 by done.
    unfold handlePostRequest. rewrite Hb, Hmeth, Hid. reflexivity. }
  rewrite handleToolsCall_eq, step_Timeout.
  2:{ cbn. apply list_elem_of_here. }
  cbn [step]. unfold handleRequest.
  rewrite bool_decide_eq_true_2 by done.
  rewrite Hl. cbn [truthy]. rewrite bool_decide_eq_false_2 by done. cbn [negb].
  rewrite handleGetSSEStream_pending by exact Hnn.
  cbv [init]. answer. cbn [remove_first]. rewrite decide_True by done.
  reflexivity.
Qed.

(** X6. A whole exchange, from a fresh instance: a [tools/call] with a
    non-null id, the timer closing its stream at [t1], then a GET with a
    Last-Event-ID at [t2].  The POST stream receives the priming event
    [event-1] and is ended; the GET stream receives the priming event
    [event-2] and the deferred result [event-3] for the id of the call;
    and [getChecks] appends the reconnection SUCCESS, the timing verdict
    for the delay and the Last-Event-ID SUCCESS.  The delay is the one
    the code observes: [t2 - t1] as the subtraction of doubles gives it,
    the exact difference rounded to the nearest double.  A delay of 450
    to 700 ms makes the timing verdict a SUCCESS, a shorter one a FAILURE
    for reconnecting too early. *)
Theorem exchange_is_judged_on_the_delay
    (dateNow : Z) (call get : IncomingMessage) (res1 res2 : ServerResponse)
    (t0 t1 t2 : Q) (request : json) (request_id : jsvalue) (lastId : string) :
  method call = "POST" ->
  body call = Ok request ->
  get_prop request "method" = Ok (Value (JString "tools/call")) ->
  get_prop request "id" = Ok request_id ->
  not_null request_id = true ->
  method get = "GET" ->
  headers get !! "last-event-id" = Some lastId ->
  lastId <> "" ->
  res1 <> res2 ->
  let s := run (init dateNow)
             [Request call res1 t0; Timeout (mkTimer 50 res1) t1; Request get res2 t2] in
  let delay := round64 (t2 - t1) in
  let timing := retryTiming s delay in
  received res1 s =
    [WriteHead 200 (sse_headers (init dateNow));
     Write (PrimingContent (event_id 1) 500); End None] /\
  received res2 s =
    [WriteHead 200 (sse_headers (init dateNow));
     Write (PrimingContent (event_id 2) 500);
     Write (ResponseContent (event_id 3) (ToolResponse request_id))] /\
  (getChecks s).1 =
    checks s ++
    [mkCheck "client-sse-graceful-reconnect" "ClientGracefulReconnect" SUCCESS None;
     timing;
     mkCheck "client-sse-last-event-id" "ClientSendsLastEventId" SUCCESS None] /\
  ((450 <= delay)%Q /\ (delay <= 700)%Q -> ck_status timing = SUCCESS) /\
  ((delay < 450)%Q -> ck_status timing = FAILURE /\ too_early timing).
Proof.
  intros Hm Hb Hmeth Hid Hnn Hg Hl Hne Hres s delay timing. subst timing delay s.
  rewrite (exchange_state dateNow call get res1 res2 t0 t1 t2 request request_id lastId)
    by assumption.
  split; [received_of|]. split; [received_of|]. split; [reflexivity|].
  match goal with
  | |- context [retryTiming ?st _] =>
      pose proof (retryTiming_cases st (round64 (t2 - t1)) eq_refl) as (He & _ & _ & Hs)
  end.
  split; [exact Hs|exact He].
Qed.

Lemma exchange_is_judged_on_the_delay_witness :
  let request :=
    JObject [("jsonrpc", JString "2.0"); ("id", JNumber 7);
             ("method", JString "tools/call")] in
  let call := mkRequest "POST" "/" ∅ (Ok request) in
  let get := mkRequest "GET" "/" {["last-event-id" := "event-1"]} (Throw (Thrown "")) in
  let t1 := 3602879701896397 # 18014398509481984 in   (* the double 0.2 *)
  let t2 := 7920002157196083 # 17592186044416 in      (* the double 450.2 *)
  let s := run (init 0) [Request call 0%nat 0%Q; Timeout (mkTimer 50 0%nat) t1;
                         Request get 1%nat t2] in
  (t2 - t1 < 450)%Q /\
  ck_status <$> (getChecks s).1 =
    [INFO; INFO; INFO; INFO; INFO; INFO; SUCCESS; SUCCESS; SUCCESS].
Proof.
  intros request call get t1 t2 s.
  assert ("event-1" <> "") as Hne by discriminate.
  assert (0%nat <> 1%nat) as Hres by discriminate.
  destruct (exchange_is_judged_on_the_delay 0 call get 0%nat 1%nat 0%Q t1 t2
              request (Value (JNumber 7)) "event-1"
              eq_refl eq_refl eq_refl eq_refl eq_refl eq_refl eq_refl Hne Hres)
    as (_ & _ & Hc & Hs & _).
  split; [by vm_compute|].
  fold s in Hc, Hs. rewrite Hc, fmap_app. cbn [fmap list_fmap ck_status].
  rewrite Hs by (split; vm_compute; discriminate). reflexivity.
Defined.

(** X7. When the GET arrives while the [tools/call] stream is still open
    (the timer fires afterwards), the GET stream is given the deferred
    result at once, and the delay that [getChecks] judges, reconnection
    instant minus close instant, is not positive: the timing verdict is a
    FAILURE for reconnecting too early. *)
Theorem get_before_close_is_too_early
    (dateNow : Z) (call get : IncomingMessage) (res1 res2 : ServerResponse)
    (t0 t1 t2 : Q) (request : json) (request_id : jsvalue) :
  method call = "POST" ->
  body call = Ok request ->
  get_prop request "method" = Ok (Value (JString "tools/call")) ->
  get_prop request "id" = Ok request_id ->
  not_null request_id = true ->
  method get = "GET" ->
  (t2 <= t1)%Q ->
  let s := run (init dateNow)
             [Request call res1 t0; Request get res2 t2; Timeout (mkTimer 50 res1) t1] in
  deliveries s = [(res2, request_id)] /\
  exists c1 timing c3,
    (getChecks s).1 = checks s ++ [c1; timing; c3] /\
    ck_name timing = "ClientRespectsRetryField" /\
    ck_status timing = FAILURE /\ too_early timing.
Proof.
  intros Hm Hb Hmeth Hid Hnn Hg Hle s.
  assert (deliveries s = [(res2, request_id)] /\
          getConnectionCount s = 1 /\ retryValue s = 500 /\
          toolStreamCloseTime s = Some t1 /\ getReconnectionTime s = Some t2)
    as (Hd & Hc & Hr & Hclose & Hrec).
  { subst s. unfold run. cbn [foldl].
    change (step (init dateNow) (Request call res1 t0))
      with (handleRequest call res1 t0 (init dateNow)).
    assert (handleRequest call res1 t0 (init dateNow) =
            handleToolsCall res1 request_id
              (push_check (info "incoming-request" "IncomingRequest") (init dateNow))) as ->.
    { unfold handleRequest.
      rewrite bool_decide_eq_false_2 by (rewrite Hm; done).
      rewrite bool_decide_eq_true_2 by done.
      unfold handlePostRequest. rewrite Hb, Hmeth, Hid. reflexivity. }
    rewrite handleToolsCall_eq. cbn [step]. unfold handleRequest.
    rewrite (bool_decide_eq_true_2 (method get = "GET")) by done.
    set (s0 := if truthy (headers get !! "last-event-id") then _ else _).
    assert (pendingToolCallId s0 = request_id /\
            wire s0 = [(res1, WriteHead 200 (sse_headers (init dateNow)));
                       (res1, Write (PrimingContent (event_id 1) 500))] /\
            timers s0 = [mkTimer 50 res1] /\
            getConnectionCount s0 = 1 /\ retryValue s0 = 500 /\
            toolStreamCloseTime s0 = None /\ getReconnectionTime s0 = Some t2)
      as (Hp0 & Hw0 & Ht0 & Hc0 & Hr0 & Hcl0 & Hrec0).
    { subst s0. destruct (truthy _); cbv [init]; fields; repeat split. }
    rewrite handleGetSSEStream_pending by (rewrite Hp0; exact Hnn).
    rewrite bool_decide_eq_true_2.
    2:{ cbn [timers]. rewrite Ht0. apply list_elem_of_here. }
    unfold closeToolsCallStream, deliveries. fields.
    rewrite Hw0, Hp0, Hc0, Hr0, Hrec0. cbn. repeat split. }
  split; [exact Hd|].
  destruct (generateChecks_reconnected s) as (c1 & c2 & c3 & E & _ & E2 & _); [lia|].
  rewrite Hclose, Hrec in E2.
  exists c1, c2, c3. split; [exact E|]. subst c2.
  destruct (retryTiming_cases s (round64 (t2 - t1)) Hr) as (He & _).
  split; [unfold retryTiming; repeat case_match; reflexivity|].
  apply He. pose proof (proj1 (round64_sign (t2 - t1))) as Hs.
  assert (round64 (t2 - t1) <= 0)%Q by (apply Hs; lra). lra.
Qed.

Lemma get_before_close_is_too_early_witness :
  let request :=
    JObject [("jsonrpc", JString "2.0"); ("id", JNumber 7);
             ("method", JString "tools/call")] in
  let call := mkRequest "POST" "/" ∅ (Ok request) in
  let get := mkRequest "GET" "/" ∅ (Throw (Thrown "")) in
  deliveries (run (init 0) [Request call 0%nat 0%Q; Request get 1%nat 20%Q;
                            Timeout (mkTimer 50 0%nat) 50%Q]) =
    [(1%nat, Value (JNumber 7))].
Proof.
  intros request call get.
  assert (20 <= 50)%Q as Hle by (vm_compute; discriminate).
  exact (proj1 (get_before_close_is_too_early 0 call get 0%nat 1%nat 0%Q 50%Q 20%Q
                  request (Value (JNumber 7))
                  eq_refl eq_refl eq_refl eq_refl eq_refl eq_refl Hle)).
Defined.

(** ** The harness: the instants it records *)

Ltac instants_leaf := answer; split; reflexivity.

Lemma step_instants (s : t) (i : input) :
  toolStreamCloseTime (step s i) =
    match i with
    | Timeout tm now => if bool_decide (tm ∈ timers s) then Some now else toolStreamCloseTime s
    | Request _ _ _ => toolStreamCloseTime s
    end /\
  getReconnectionTime (step s i) =
    match RetryTrace.get_instant i with
    | Some now => Some now
    | None => getReconnectionTime s
    end.
Proof.
  destruct i as [req res now|tm now]; cbn [step RetryTrace.get_instant].
  - unfold handleRequest.
    destruct (bool_decide (method req = "GET")).
    + destruct (truthy (headers req !! "last-event-id")), s as [? ? ? ? ? ? ? ? p ? ? ?];
        destruct p as [|[]]; cbv [not_null]; instants_leaf.
    + destruct (bool_decide (method req = "POST")); [|destruct s; instants_leaf].
      unfold handlePostRequest.
      destruct (body req) as [request|e]; [|destruct s; instants_leaf].
      destruct (get_prop_cases request "method" "id")
        as [(m & request_id & Em & Ei)|(e & e' & Em & Ei)];
        rewrite Em, ?Ei; [|destruct s; instants_leaf].
      destruct (interpolate m) as [[]|bad]; [|destruct s; instants_leaf].
      destruct s, (is_string "initialize" m), (is_string "tools/list" m),
        (is_string "tools/call" m), (is_undefined request_id); instants_leaf.
  - destruct (bool_decide (tm ∈ timers s)); destruct s;
      cbv [closeToolsCallStream]; instants_leaf.
Qed.

Lemma run_without_timeout (inputs : list input) (s : t) :
  Forall (λ i, RetryTrace.is_timeout i = false) inputs ->
  toolStreamCloseTime (run s inputs) = toolStreamCloseTime s.
Proof.
  revert s. induction inputs as [|i inputs IH]; intros s Hall; [done|].
  inversion Hall as [|? ? Hi Hrest]; subst.
  unfold run in *. cbn [foldl]. rewrite IH by done.
  destruct (step_instants s i) as [-> _]. by destruct i.
Qed.

(** X8. If no stream was ever closed (no timer fired) but a GET was seen,
    the timing cannot be measured: [getChecks] reports the reconnection
    SUCCESS followed by the [ClientRespectsRetryField] WARNING "Could not
    measure timing", whatever else was received. *)
Theorem timing_unmeasured_without_close (dateNow : Z) (inputs : list input) :
  Forall (λ i, RetryTrace.is_timeout i = false) inputs ->
  Exists (λ i, is_get i = true) inputs ->
  let s := run (init dateNow) inputs in
  exists c3,
    (getChecks s).1 =
      checks s ++
      [mkCheck "client-sse-graceful-reconnect" "ClientGracefulReconnect" SUCCESS None;
       mkCheck "client-sse-retry-timing" "ClientRespectsRetryField" WARNING
         (Some "Could not measure timing - tool stream close time or GET reconnection time not recorded");
       c3].
Proof.
  intros Hno Hget s.
  assert (toolStreamCloseTime s = None) as Hclose.
  { subst s. by rewrite run_without_timeout. }
  assert (1 <= getConnectionCount s) as Hcount.
  { subst s. destruct (run_timeline inputs (init dateNow)) as [-> _].
    apply (count_pos (λ i, is_get i = true)) in Hget.
    cbn [init getConnectionCount]. lia. }
  destruct (generateChecks_reconnected s Hcount) as (c1 & c2 & c3 & E & -> & -> & _).
  rewrite Hclose in E. exists c3. exact E.
Qed.

Lemma timing_unmeasured_without_close_witness :
  let get := mkRequest "GET" "/" ∅ (Throw (Thrown "")) in
  exists c3,
    ck_status <$> (getChecks (run (init 0) [Request get 0%nat 10%Q])).1 =
      [INFO; INFO; SUCCESS; WARNING; ck_status c3].
Proof.
  intros get.
  destruct (timing_unmeasured_without_close 0 [Request get 0%nat 10%Q]) as [c3 E].
  - repeat constructor.
  - apply Exists_cons_hd. reflexivity.
  - exists c3. cbv zeta in E. rewrite E. reflexivity.
Defined.

(** X9. Every GET overwrites the reconnection instant: after a run, the
    instant from which [getChecks] measures the delay is that of the
    latest GET request, not of the first one after the stream was
    closed. *)
Theorem latest_get_is_measured (s : t) (inputs : list input) :
  getReconnectionTime (run s inputs) =
    match last (omap RetryTrace.get_instant inputs) with
    | Some now => Some now
    | None => getReconnectionTime s
    end.
Proof.
  revert s. induction inputs as [|i inputs IH]; intros s; [done|].
  unfold run in *. cbn [foldl]. rewrite IH.
  destruct (step_instants s i) as [_ ->].
  change (omap RetryTrace.get_instant (i :: inputs))
    with (match RetryTrace.get_instant i with
          | Some now => now :: omap RetryTrace.get_instant inputs
          | None => omap RetryTrace.get_instant inputs
          end).
  destruct (RetryTrace.get_instant i) as [now|]; [|done].
  rewrite last_cons.
  by destruct (last (omap RetryTrace.get_instant inputs)).
Qed.

(** ** The harness: the pending slot *)

(** X10. The pending slot holds one id.  A second [tools/call] before the
    reconnection replaces the id of the first: the next GET delivers the
    result for the second call only, and the first call is never
    answered, in no continuation without a new [tools/call]. *)
Theorem second_call_replaces_the_first
    (s : t) (res1 res2 res : ServerResponse) (first second : jsvalue) :
  not_null second = true ->
  let s' := handleGetSSEStream res
              (handleToolsCall res2 second (handleToolsCall res1 first s)) in
  deliveries s' = deliveries s ++ [(res, second)] /\
  pendingToolCallId s' = Value JNull /\
  (forall inputs : list input,
     Forall (λ i, is_tools_call i = false) inputs ->
     deliveries (run s' inputs) = deliveries s ++ [(res, second)]).
Proof.
  intros Hnn s'.
  assert (deliveries s' = deliveries s ++ [(res, second)] /\
          pendingToolCallId s' = Value JNull) as [Hd Hp].
  { subst s'. rewrite handleGetSSEStream_pending by (rewrite !handleToolsCall_eq; exact Hnn).
    rewrite !handleToolsCall_eq. unfold deliveries. cbn [wire pendingToolCallId].
    rewrite !omap_app. cbn. rewrite !app_nil_r. done. }
  split; [exact Hd|]. split; [exact Hp|].
  intros inputs Hall. rewrite run_idle; [exact Hd| |exact Hall].
  by rewrite Hp.
Qed.

Lemma second_call_replaces_the_first_witness :
  deliveries (handleGetSSEStream 2%nat
                (handleToolsCall 1%nat (Value (JNumber 2))
                   (handleToolsCall 0%nat (Value (JNumber 1)) (init 0)))) =
    [(2%nat, Value (JNumber 2))].
Proof.
  exact (proj1 (second_call_replaces_the_first (init 0) 0%nat 1%nat 2%nat
                  (Value (JNumber 1)) (Value (JNumber 2)) eq_refl)).
Defined.

(** X11. A [tools/call] whose [id] is JSON [null] leaves nothing pending:
    its stream is primed and closed like any other, but the GET that
    follows receives the priming event only and no result is ever
    delivered for that call. *)
Theorem null_id_call_is_never_answered
    (req get : IncomingMessage) (res res' : ServerResponse) (now now' : Q) (s : t)
    (request : json) :
  method req = "POST" ->
  body req = Ok request ->
  get_prop request "method" = Ok (Value (JString "tools/call")) ->
  get_prop request "id" = Ok (Value JNull) ->
  method get = "GET" ->
  let s1 := handleRequest req res now s in
  let s2 := handleRequest get res' now' s1 in
  timers s1 = timers s ++ [mkTimer 50 res] /\
  wire s2 =
    wire s1 ++
    [(res', WriteHead 200 (sse_headers s));
     (res', Write (PrimingContent (event_id (eventIdCounter s + 1 + 1)) (retryValue s)))] /\
  (forall inputs : list input,
     Forall (λ i, is_tools_call i = false) inputs ->
     deliveries (run s1 inputs) = deliveries s).
Proof.
  intros Hm Hb Hmeth Hid Hg s1 s2.
  assert (s1 = handleToolsCall res (Value JNull)
                 (push_check (info "incoming-request" "IncomingRequest") s)) as E.
  { subst s1. unfold handleRequest.
    rewrite bool_decide_eq_false_2 by (rewrite Hm; done).
    rewrite bool_decide_eq_true_2 by done.
    unfold handlePostRequest. rewrite Hb, Hmeth, Hid. reflexivity. }
  rewrite handleToolsCall_eq in E.
  assert (deliveries s1 = deliveries s) as Hd.
  { rewrite E. unfold deliveries. cbn [wire push_check set_checks].
    rewrite omap_app. cbn. apply app_nil_r. }
  split; [by rewrite E|]. split.
  - subst s2.
    destruct (handleRequest_GET get res' now' s1 Hg)
      as (s0 & -> & Hw & Hc & Hp & Hr & Hs & _).
    rewrite handleGetSSEStream_idle by (rewrite Hp, E; reflexivity).
    cbn [wire]. unfold sse_headers. rewrite Hw, Hc, Hr, Hs, E. reflexivity.
  - intros inputs Hall. rewrite run_idle; [exact Hd| |exact Hall].
    by rewrite E.
Qed.

Lemma null_id_call_is_never_answered_witness :
  let request :=
    JObject [("jsonrpc", JString "2.0"); ("id", JNull); ("method", JString "tools/call")] in
  let call := mkRequest "POST" "/" ∅ (Ok request) in
  let get := mkRequest "GET" "/" ∅ (Throw (Thrown "")) in
  deliveries (run (handleRequest call 0%nat 0%Q (init 0)) [Request get 1%nat 600%Q]) = [].
Proof.
  intros request call get.
  destruct (null_id_call_is_never_answered call get 0%nat 1%nat 0%Q 600%Q (init 0) request
              eq_refl eq_refl eq_refl eq_refl eq_refl) as (_ & _ & H).
  apply (H [Request get 1%nat 600%Q]). repeat constructor.
Defined.

(** ** Polling: reading the POST stream *)

Module PT := PollingTrace.

Ltac probe_eval :=
  cbv [mbind probe_bind Probe.bind mret probe_ret Probe.ret Probe.push Probe.await
       Probe.raise Probe.when Probe.return_checks Probe.assign_client
       ProbeTrace.pushed Probe.checks Probe.client Probe.closeCalls].

Lemma scan_item_advance (v : PS.scan) (i : PS.item) (st : Probe.locals) :
  PS.scan_item v i st = (Probe.Normal (PT.advance v i), ProbeTrace.pushed (PT.logged i) st).
Proof.
  destruct st as [cs cl n], v as [a b c d r l k t], i as [ms|e];
    unfold PS.scan_item, PT.advance, PT.logged.
  - probe_eval. by rewrite app_nil_r.
  - unfold PT.is_priming, PT.is_tool_response.
    rewrite (bool_decide_ext (S k = 1%nat) (k = 0%nat)) by lia.
    destruct (truthy (ev_id e)), (PS.toolResponse e) as [isError|];
      probe_eval;
      cbn [andb orb PS.hasEventId PS.hasPrimingEvent PS.primingEventIsFirst
           PS.hasRetryField PS.retryValue PS.lastEventId PS.eventCount
           PS.receivedToolResponse];
      rewrite ?app_nil_r, <- ?app_assoc;
      destruct (bool_decide (ev_data e = "") || bool_decide (ev_data e = "{}")
                || PS.blank (ev_data e)), (bool_decide (k = 0%nat)), a, b, c, t;
      reflexivity.
Qed.

Lemma pushed_pushed (cs cs' : list ConformanceCheck) (st : Probe.locals) :
  ProbeTrace.pushed cs' (ProbeTrace.pushed cs st) = ProbeTrace.pushed (cs ++ cs') st.
Proof. unfold ProbeTrace.pushed. cbn. by rewrite app_assoc. Qed.

Lemma pushed_nil (st : Probe.locals) : ProbeTrace.pushed [] st = st.
Proof. destruct st. unfold ProbeTrace.pushed. cbn. by rewrite app_nil_r. Qed.

Lemma scan_items_advance (l : list PS.item) (v : PS.scan) (st : Probe.locals) :
  PS.scan_items v l st =
    (Probe.Normal (foldl PT.advance v l),
     ProbeTrace.pushed (concat (PT.logged <$> l)) st).
Proof.
  revert v st. induction l as [|i l IH]; intros v st.
  - cbn. by rewrite pushed_nil.
  - cbn [PS.scan_items foldl fmap list_fmap concat]. unfold Probe.bind.
    rewrite scan_item_advance, IH, pushed_pushed. reflexivity.
Qed.

(** What the loop has found after the whole stream. *)
Lemma advance_eventCount (l : list PS.item) (v : PS.scan) :
  PS.eventCount (foldl PT.advance v l) = (PS.eventCount v + length (PT.events l))%nat.
Proof.
  revert v. induction l as [|[ms|e] l IH]; intros v; cbn [foldl].
  - unfold PT.events. cbn. lia.
  - rewrite IH. unfold PT.events. cbn. lia.
  - rewrite IH. unfold PT.events. cbn. lia.
Qed.

Lemma advance_primingEventIsFirst (l : list PS.item) (v : PS.scan) :
  PS.primingEventIsFirst (foldl PT.advance v l) =
    PS.primingEventIsFirst v ||
    (bool_decide (PS.eventCount v = 0%nat) &&
     match PT.events l with e :: _ => PT.is_priming e | [] => false end).
Proof.
  revert v. induction l as [|[ms|e] l IH]; intros v; cbn [foldl].
  - cbn. by rewrite andb_false_r, orb_false_r.
  - rewrite IH. reflexivity.
  - rewrite IH. cbn [PT.advance PS.primingEventIsFirst PS.eventCount PT.events omap].
    rewrite (bool_decide_eq_false_2 (S _ = 0%nat)) by lia.
    cbn [andb]. rewrite orb_false_r, (andb_comm (PT.is_priming e)). reflexivity.
Qed.

Lemma advance_hasPrimingEvent (l : list PS.item) (v : PS.scan) :
  PS.hasPrimingEvent (foldl PT.advance v l) =
    PS.hasPrimingEvent v || existsb PT.is_priming (PT.events l).
Proof.
  revert v. induction l as [|[ms|e] l IH]; intros v; cbn [foldl].
  - cbn. by rewrite orb_false_r.
  - rewrite IH. reflexivity.
  - rewrite IH. cbn. by rewrite orb_assoc.
Qed.

Lemma advance_hasRetryField (l : list PS.item) (v : PS.scan) :
  PS.hasRetryField (foldl PT.advance v l) =
    PS.hasRetryField v || negb (bool_decide (PT.retries l = [])).
Proof.
  revert v. induction l as [|[ms|e] l IH]; intros v; cbn [foldl].
  - cbn. by rewrite orb_false_r.
  - rewrite IH. cbn. by rewrite orb_true_r.
  - rewrite IH. reflexivity.
Qed.

Lemma advance_receivedToolResponse (l : list PS.item) (v : PS.scan) :
  PS.receivedToolResponse (foldl PT.advance v l) =
    PS.receivedToolResponse v || existsb PT.is_tool_response (PT.events l).
Proof.
  revert v. induction l as [|[ms|e] l IH]; intros v; cbn [foldl].
  - cbn. by rewrite orb_false_r.
  - rewrite IH. reflexivity.
  - rewrite IH. cbn. by rewrite orb_assoc.
Qed.

Lemma advance_lastEventId (l : list PS.item) (v : PS.scan) :
  PS.lastEventId (foldl PT.advance v l) =
    match last (filter (λ e, truthy (ev_id e) = true) (PT.events l)) with
    | Some e => ev_id e
    | None => PS.lastEventId v
    end.
Proof.
  revert v. induction l as [|[ms|e] l IH]; intros v; cbn [foldl].
  - reflexivity.
  - rewrite IH. reflexivity.
  - rewrite IH. cbn [PT.advance PS.lastEventId].
    change (PT.events (PS.Event e :: l)) with (e :: PT.events l).
    destruct (truthy (ev_id e)) eqn:E.
    + rewrite filter_cons_True by done. rewrite last_cons.
      by destruct (last (filter _ (PT.events l))).
    + rewrite filter_cons_False by congruence. reflexivity.
Qed.

(** ** Polling: the reconnection *)

Lemma resume_items_read (l : list PS.item) (st : Probe.locals) :
  PS.resume_items l st =
    (Probe.Normal (existsb PT.is_tool_response (PT.events l)),
     ProbeTrace.pushed
       (replicate (length (PT.read_until_response (PT.events l)))
          (PS.info "incoming-sse-event" "IncomingSseEvent")) st).
Proof.
  revert st. induction l as [|[ms|e] l IH]; intros st.
  - cbn. by rewrite pushed_nil.
  - cbn [PS.resume_items]. rewrite IH. reflexivity.
  - cbn [PS.resume_items].
    change (PT.events (PS.Event e :: l)) with (e :: PT.events l).
    cbn [existsb PT.read_until_response]. unfold PT.is_tool_response at 1 3.
    destruct (PS.toolResponse e) as [isError|].
    + probe_eval. reflexivity.
    + cbv [mbind probe_bind Probe.bind Probe.push]. rewrite IH.
      cbn [orb length replicate]. unfold ProbeTrace.pushed. cbn.
      rewrite <- app_assoc. reflexivity.
Qed.

Lemma loggingFetch_ok (r : Response PS.stream) (st : Probe.locals) :
  PS.loggingFetch (Ok r) st =
    (Probe.Normal r,
     ProbeTrace.pushed [PS.info "outgoing-request" "OutgoingRequest";
                        PS.info "incoming-response" "IncomingResponse"] st).
Proof.
  unfold PS.loggingFetch. probe_eval. cbn. rewrite <- app_assoc. reflexivity.
Qed.

Lemma loggingFetch_rejected (e : exn) (st : Probe.locals) :
  PS.loggingFetch (Throw e) st =
    (Probe.Raised e, ProbeTrace.pushed [PS.info "outgoing-request" "OutgoingRequest"] st).
Proof. unfold PS.loggingFetch. probe_eval. reflexivity. Qed.

Lemma reconnect_skipped (w : PS.world) (sid : option string) (v : PS.scan) (st : Probe.locals) :
  PT.reconnects sid v = false ->
  PS.reconnect w sid v st =
    (Probe.Normal (),
     ProbeTrace.pushed [PS.info "server-sse-disconnect-resume" "ServerDisconnectResume"] st).
Proof.
  unfold PS.reconnect, PT.reconnects. intros ->.
  destruct (PS.receivedToolResponse v); reflexivity.
Qed.

Lemma reconnect_rejected
    (w : PS.world) (sid : option string) (v : PS.scan) (st : Probe.locals) (e : exn) :
  PT.reconnects sid v = true ->
  PS.get w = Throw e ->
  PS.reconnect w sid v st =
    (Probe.Raised e, ProbeTrace.pushed [PS.info "outgoing-request" "OutgoingRequest"] st).
Proof.
  unfold PS.reconnect, PT.reconnects. intros -> ->.
  unfold Probe.bind. rewrite loggingFetch_rejected. reflexivity.
Qed.

Lemma reconnect_refused
    (w : PS.world) (sid : option string) (v : PS.scan) (st : Probe.locals)
    (getResponse : Response PS.stream) :
  PT.reconnects sid v = true ->
  PS.get w = Ok getResponse ->
  (if ok getResponse then responseBody getResponse else None) = None ->
  PS.reconnect w sid v st =
    (Probe.Normal (),
     ProbeTrace.pushed
       [PS.info "outgoing-request" "OutgoingRequest";
        PS.info "incoming-response" "IncomingResponse";
        if bool_decide (status getResponse = 405)
        then PS.info "server-sse-disconnect-resume" "ServerDisconnectResume"
        else mkCheck "server-sse-disconnect-resume" "ServerDisconnectResume" WARNING
               (Some ("Server did not accept reconnection with Last-Event-ID (HTTP " +:+
                      pretty (status getResponse) +:+ ")"))] st).
Proof.
  unfold PS.reconnect, PT.reconnects. intros -> -> Hno.
  unfold Probe.bind. rewrite loggingFetch_ok, Hno.
  destruct (bool_decide (status getResponse = 405));
    unfold Probe.push, ProbeTrace.pushed; cbn; rewrite <- app_assoc; reflexivity.
Qed.

Lemma reconnect_resumed
    (w : PS.world) (sid : option string) (v : PS.scan) (st : Probe.locals)
    (getResponse : Response PS.stream) (body : PS.stream) :
  PT.reconnects sid v = true ->
  PS.get w = Ok getResponse ->
  ok getResponse = true ->
  responseBody getResponse = Some body ->
  let seen :=
    [PS.info "outgoing-request" "OutgoingRequest";
     PS.info "incoming-response" "IncomingResponse"] ++
    replicate (length (PT.read_until_response (PT.events (PS.items body))))
      (PS.info "incoming-sse-event" "IncomingSseEvent") in
  PS.reconnect w sid v st =
    if existsb PT.is_tool_response (PT.events (PS.items body)) then
      (Probe.Normal (),
       ProbeTrace.pushed
         (seen ++ [mkCheck "server-sse-disconnect-resume" "ServerDisconnectResume"
                     SUCCESS None]) st)
    else
      match PS.ending body with
      | Ok _ =>
          (Probe.Normal (),
           ProbeTrace.pushed
             (seen ++ [mkCheck "server-sse-disconnect-resume" "ServerDisconnectResume" WARNING
                         (Some "Server did not send tool response after client reconnected with Last-Event-ID")])
             st)
      | Throw e => (Probe.Raised e, ProbeTrace.pushed seen st)
      end.
Proof.
  unfold PS.reconnect, PT.reconnects. intros Hr Hg Hok Hb. cbv zeta. rewrite Hr, Hg.
  unfold Probe.bind at 1. rewrite loggingFetch_ok, Hok, Hb.
  unfold PS.resume_stream. unfold Probe.bind. rewrite resume_items_read.
  rewrite !pushed_pushed.
  destruct (existsb PT.is_tool_response (PT.events (PS.items body))).
  - cbv [mret probe_ret Probe.ret Probe.push]. cbn [negb].
    unfold ProbeTrace.pushed. cbn. rewrite <- !app_assoc. reflexivity.
  - cbv [mbind probe_bind Probe.bind mret probe_ret Probe.ret Probe.await Probe.raise].
    destruct (PS.ending body); [|reflexivity].
    unfold Probe.push, ProbeTrace.pushed. cbn. rewrite <- !app_assoc. reflexivity.
Qed.

(** ** Polling: the whole run *)

Lemma polling_run_of_probe (w : PS.world) :
  let body := PS.probe w (Probe.mkLocals [] false 0%nat) in
  (PS.run w).1 = Ok (match body.1 with
                     | Probe.Raised e => Probe.checks body.2 ++ [PT.error_check e]
                     | _ => Probe.checks body.2
                     end) /\
  Probe.closeCalls (PS.run w).2 = (if Probe.client body.2 then 1 else 0)%nat.
Proof.
  exact (guarded_run (PS.probe w) PT.error_check (PS.session w) (keeps_polling_probe w)).
Qed.

(** The probe on a world whose POST is answered by an event stream: the
    stream is read to its end, and if it ended in order the two verdicts
    are recorded and step 4 follows. *)
Lemma probe_stream (w : PS.world) (body : PS.stream) :
  PT.stream_opened w body ->
  let sid := transportSessionId (PS.session w) in
  let v := foldl PT.advance PS.scan0 (PS.items body) in
  let st := Probe.mkLocals (PT.preamble sid ++ concat (PT.logged <$> PS.items body)) true 0%nat in
  PS.probe w (Probe.mkLocals [] false 0%nat) =
    match PS.ending body with
    | Throw e => (Probe.Raised e, st)
    | Ok _ =>
        PS.reconnect w sid v
          (ProbeTrace.pushed
             [PS.info "stream-closed" "StreamClosed"; PT.priming_verdict v; PT.retry_verdict v]
             st)
    end.
Proof.
  intros (H1 & H2 & H3 & r & Hp & Hok & Hct & Hb). cbv zeta.
  unfold PS.probe. unfold Probe.bind at 1. rewrite probe_session_ok by done.
  cbv [mbind probe_bind]. unfold Probe.bind at 1.
  assert (Hpre : ∀ k : Probe.M unit,
    (let (c, st') :=
       Probe.when (negb (truthy (transportSessionId (PS.session w))))
         (Probe.push (mkCheck "server-sse-polling-session" "ServerSSEPollingSession" WARNING None))
         (Probe.mkLocals [] true 0%nat) in
     match c with
     | Probe.Normal _ => k st'
     | Probe.Returned => (Probe.Returned, st')
     | Probe.Raised e => (Probe.Raised e, st')
     end) =
    k (Probe.mkLocals
         (if truthy (transportSessionId (PS.session w)) then []
          else [mkCheck "server-sse-polling-session" "ServerSSEPollingSession" WARNING None])
         true 0%nat)).
  { intros k. destruct (truthy (transportSessionId (PS.session w))); reflexivity. }
  cbn [Probe.checks Probe.closeCalls]. rewrite Hpre. clear Hpre.
  unfold Probe.bind at 1. rewrite Hp, loggingFetch_ok.
  change (ProbeTrace.pushed
            [PS.info "outgoing-request" "OutgoingRequest";
             PS.info "incoming-response" "IncomingResponse"]
            (Probe.mkLocals
               (if truthy (transportSessionId (PS.session w)) then []
                else [mkCheck "server-sse-polling-session" "ServerSSEPollingSession"
                        WARNING None])
               true 0%nat))
    with (Probe.mkLocals (PT.preamble (transportSessionId (PS.session w))) true 0%nat).
  rewrite Hok, Hct, Hb. cbn [negb].
  unfold Probe.bind at 1. rewrite scan_items_advance.
  unfold ProbeTrace.pushed at 1. cbn [Probe.checks Probe.client Probe.closeCalls].
  unfold Probe.bind at 1.
  destruct (PS.ending body) as [[]|e].
  - cbv [Probe.await Probe.ret]. unfold Probe.bind at 1. unfold Probe.push at 1.
    unfold Probe.bind at 1. unfold Probe.push at 1.
    unfold Probe.bind at 1. unfold Probe.push at 1.
    f_equal. unfold ProbeTrace.pushed. cbn. rewrite <- !app_assoc. reflexivity.
  - reflexivity.
Qed.

Lemma with_id_app (id : string) (a b : list ConformanceCheck) :
  PT.with_id id (a ++ b) = PT.with_id id a ++ PT.with_id id b.
Proof. apply filter_app. Qed.

Lemma with_id_others (ids : list string) (id : string) (l : list ConformanceCheck) :
  id ∉ ids -> Forall (λ c, ck_id c ∈ ids) l -> PT.with_id id l = [].
Proof.
  intros Hn Hl. unfold PT.with_id. induction Hl as [|c l Hc _ IH]; [done|].
  rewrite filter_cons_False; [exact IH|]. intros E. apply Hn. by rewrite <- E.
Qed.

Lemma logged_ids (l : list PS.item) :
  Forall (λ c, ck_id c ∈ PT.log_ids) (concat (PT.logged <$> l)).
Proof.
  induction l as [|[ms|e] l IH]; cbn [fmap list_fmap concat]; [constructor|exact IH|].
  apply Forall_app. split; [|exact IH].
  unfold PT.logged. apply Forall_app. split.
  - destruct (truthy (ev_id e)); repeat constructor; member.
  - destruct (PS.toolResponse e); repeat constructor; member.
Qed.

Lemma preamble_ids (sid : option string) :
  Forall (λ c, ck_id c ∈ PT.log_ids) (PT.preamble sid).
Proof.
  unfold PT.preamble. destruct (truthy sid); repeat constructor; member.
Qed.

Ltac quiet :=
  repeat first [apply List.Forall_nil | apply List.Forall_cons; [split; [member | discriminate]|]].

(** Step 4 only records traffic and the verdict on the reconnection, and
    none of them is a FAILURE. *)
Lemma reconnect_report (w : PS.world) (sid : option string) (v : PS.scan) (st : Probe.locals) :
  exists c cs,
    PS.reconnect w sid v st = (c, ProbeTrace.pushed cs st) /\
    Forall (λ k, ck_id k ∈ PT.log_ids /\ ck_status k <> FAILURE) cs.
Proof.
  destruct (PT.reconnects sid v) eqn:Hr.
  - destruct (PS.get w) as [g|e] eqn:Hg.
    + destruct (if ok g then responseBody g else None) as [b|] eqn:Hb.
      * assert (ok g = true /\ responseBody g = Some b) as [Hok Hbody]
          by (destruct (ok g); [done|discriminate]).
        pose proof (reconnect_resumed w sid v st g b Hr Hg Hok Hbody) as H.
        cbv zeta in H. rewrite H.
        assert (Forall (λ k, ck_id k ∈ PT.log_ids /\ ck_status k <> FAILURE)
                  ([PS.info "outgoing-request" "OutgoingRequest";
                    PS.info "incoming-response" "IncomingResponse"] ++
                   replicate (length (PT.read_until_response (PT.events (PS.items b))))
                     (PS.info "incoming-sse-event" "IncomingSseEvent"))) as Hseen.
        { apply Forall_app. split; [quiet|].
          apply Forall_replicate. split; [member|discriminate]. }
        destruct (existsb PT.is_tool_response (PT.events (PS.items b))).
        -- do 2 eexists. split; [reflexivity|].
           apply Forall_app. split; [exact Hseen|quiet].
        -- destruct (PS.ending b).
           ++ do 2 eexists. split; [reflexivity|].
              apply Forall_app. split; [exact Hseen|quiet].
           ++ do 2 eexists. split; [reflexivity|exact Hseen].
      * rewrite (reconnect_refused w sid v st g Hr Hg Hb).
        do 2 eexists. split; [reflexivity|].
        destruct (bool_decide (status g = 405)); quiet.
    + rewrite (reconnect_rejected w sid v st e Hr Hg).
      do 2 eexists. split; [reflexivity|quiet].
  - rewrite (reconnect_skipped w sid v st Hr).
    do 2 eexists. split; [reflexivity|quiet].
Qed.

(** The report of a run whose POST stream ended in order. *)
Lemma clean_stream_run (w : PS.world) (body : PS.stream) :
  PT.stream_opened w body ->
  PS.ending body = Ok () ->
  let sid := transportSessionId (PS.session w) in
  let v := foldl PT.advance PS.scan0 (PS.items body) in
  exists tail,
    (PS.run w).1 =
      Ok ((PT.preamble sid ++ concat (PT.logged <$> PS.items body)) ++
          [PS.info "stream-closed" "StreamClosed"; PT.priming_verdict v; PT.retry_verdict v] ++
          tail) /\
    Forall (λ k, ck_id k ∈ PT.log_ids /\
                 (ck_status k = FAILURE -> ck_id k = "server-sse-polling-error")) tail.
Proof.
  intros Hopen Hend sid v.
  destruct (polling_run_of_probe w) as [Hrun _]. cbv zeta in Hrun.
  pose proof (probe_stream w body Hopen) as Hp. cbv zeta in Hp.
  rewrite Hend in Hp. fold sid v in Hp.
  match type of Hp with
  | _ = PS.reconnect _ _ _ ?st =>
      destruct (reconnect_report w sid v st) as (c & cs & Hc & Hcs)
  end.
  assert (Forall (λ k, ck_id k ∈ PT.log_ids /\
                       (ck_status k = FAILURE -> ck_id k = "server-sse-polling-error")) cs)
    as Hcs' by (eapply Forall_impl; [exact Hcs|]; intros k [Hk Hs]; by split).
  rewrite Hc in Hp. rewrite Hp in Hrun. rewrite Hrun.
  unfold ProbeTrace.pushed. cbn [fst snd Probe.checks].
  destruct c as [[]| |e].
  - exists cs. split; [by rewrite <- !app_assoc|exact Hcs'].
  - exists cs. split; [by rewrite <- !app_assoc|exact Hcs'].
  - exists (cs ++ [PT.error_check e]). split; [by rewrite <- !app_assoc|].
    apply Forall_app. split; [exact Hcs'|].
    apply List.Forall_cons; [|apply List.Forall_nil]. split; [member|reflexivity].
Qed.

Lemma tail_ids (tail : list ConformanceCheck) :
  Forall (λ k, ck_id k ∈ PT.log_ids /\
               (ck_status k = FAILURE -> ck_id k = "server-sse-polling-error")) tail ->
  Forall (λ k, ck_id k ∈ PT.log_ids) tail.
Proof. intros H. eapply Forall_impl; [exact H|]. by intros k [Hk _]. Qed.

Lemma priming_verdict_id (v : PS.scan) : ck_id (PT.priming_verdict v) = "server-sse-priming-event".
Proof.
  unfold PT.priming_verdict.
  by destruct (PS.hasPrimingEvent v), (PS.primingEventIsFirst v).
Qed.

Ltac outside := let H := fresh in intros H; apply list_elem_of_In in H; cbn in H; intuition discriminate.

(** X12. When the POST is answered by an event stream that ends in order,
    the run returns exactly one check with id [server-sse-priming-event],
    and it is decided by the first event read: a SUCCESS when that event
    has an id and empty, [{}] or blank data; otherwise a WARNING, which
    says that the priming event was not sent first when a later event
    qualifies and that none was sent when no event does.  Blank data is
    data that [trim] empties: made of white space and line terminators
    only, among them U+00A0, U+FEFF, the space separators and U+2028 and
    U+2029.  Retry hints before the first event do not count as events. *)
Theorem priming_verdict_reads_first_event (w : PS.world) (body : PS.stream) :
  PT.stream_opened w body ->
  PS.ending body = Ok () ->
  let events := PT.events (PS.items body) in
  exists checks,
    (PS.run w).1 = Ok checks /\
    PT.with_id "server-sse-priming-event" checks =
      [match events with
       | e :: later =>
           if PT.is_priming e then
             mkCheck "server-sse-priming-event" "ServerSendsPrimingEvent" SUCCESS None
           else if existsb PT.is_priming later then
             mkCheck "server-sse-priming-event" "ServerSendsPrimingEvent" WARNING
               (Some "Priming event was not sent first. It should be sent immediately when the SSE stream is established.")
           else
             mkCheck "server-sse-priming-event" "ServerSendsPrimingEvent" WARNING
               (Some "Server did not send priming event with id and empty data on POST SSE stream. This is recommended for resumability.")
       | [] =>
           mkCheck "server-sse-priming-event" "ServerSendsPrimingEvent" WARNING
             (Some "Server did not send priming event with id and empty data on POST SSE stream. This is recommended for resumability.")
       end].
Proof.
  intros Hopen Hend events.
  destruct (clean_stream_run w body Hopen Hend) as (tail & Hrun & Htail).
  cbv zeta in Hrun. eexists. split; [exact Hrun|].
  rewrite !with_id_app.
  rewrite (with_id_others PT.log_ids _ (PT.preamble _)) by (outside || apply preamble_ids).
  rewrite (with_id_others PT.log_ids _ (concat _)) by (outside || apply logged_ids).
  rewrite (with_id_others PT.log_ids _ tail) by (outside || exact (tail_ids _ Htail)).
  unfold PT.with_id.
  rewrite filter_cons_False by (cbn; discriminate).
  rewrite filter_cons_True by apply priming_verdict_id.
  rewrite filter_cons_False by (cbn; discriminate).
  rewrite filter_nil. cbn [app]. f_equal.
  unfold PT.priming_verdict.
  rewrite advance_hasPrimingEvent, advance_primingEventIsFirst.
  fold events. cbn [PS.scan0 PS.hasPrimingEvent PS.primingEventIsFirst PS.eventCount orb].
  rewrite bool_decide_eq_true_2 by reflexivity. cbn [andb].
  destruct events as [|e later]; [reflexivity|]. cbn [existsb].
  destruct (PT.is_priming e); [reflexivity|]. cbn [orb negb].
  by destruct (existsb PT.is_priming later).
Qed.

Lemma priming_verdict_reads_first_event_witness :
  let result := JObject [("jsonrpc", JString "2.0"); ("id", JNumber 1);
                         ("result", JObject [("content", JArray [])])] in
  let answer := mkEvent (Some "e1") None "{...}" (Ok result) in
  let priming := mkEvent (Some "e2") None "" (Throw (ErrorObject "Unexpected end of JSON input")) in
  let body := PS.mkStream [PS.OnRetry 500; PS.Event answer; PS.Event priming] (Ok ()) in
  let w :=
    PS.mkWorld (mkSession (Ok ()) (Ok ()) (Ok ()) (Some "abc") (Ok ()))
      (Ok (mkResponse 200 (Some "text/event-stream") (Some body)))
      (Throw (Thrown "unused")) in
  let nbsp := String (Ascii.ascii_of_nat 194) (String (Ascii.ascii_of_nat 160) "") in
  let spaced := mkEvent (Some "e0") None nbsp (Throw (ErrorObject "Unexpected token")) in
  let body' := PS.mkStream [PS.Event spaced; PS.Event answer] (Ok ()) in
  let w' :=
    PS.mkWorld (mkSession (Ok ()) (Ok ()) (Ok ()) (Some "abc") (Ok ()))
      (Ok (mkResponse 200 (Some "text/event-stream") (Some body')))
      (Throw (Thrown "unused")) in
  (exists checks,
    (PS.run w).1 = Ok checks /\
    PT.with_id "server-sse-priming-event" checks =
      [mkCheck "server-sse-priming-event" "ServerSendsPrimingEvent" WARNING
         (Some "Priming event was not sent first. It should be sent immediately when the SSE stream is established.")]) /\
  (exists checks,
    (PS.run w').1 = Ok checks /\
    PT.with_id "server-sse-priming-event" checks =
      [mkCheck "server-sse-priming-event" "ServerSendsPrimingEvent" SUCCESS None]).
Proof.
  intros result answer priming body w nbsp spaced body' w'.
  assert (PT.stream_opened w body) as Hopen.
  { repeat split. eexists. repeat split. }
  assert (PT.stream_opened w' body') as Hopen'.
  { repeat split. eexists. repeat split. }
  split.
  - exact (priming_verdict_reads_first_event w body Hopen eq_refl).
  - exact (priming_verdict_reads_first_event w' body' Hopen' eq_refl).
Defined.

(** X13. On the same runs there is exactly one check with id
    [server-sse-retry-field]: a SUCCESS when the parser reported a retry
    hint at least once while the POST stream was read, wherever in the
    stream it came, and otherwise a WARNING with the message that no retry
    field was sent. *)
Theorem retry_verdict_reads_any_hint (w : PS.world) (body : PS.stream) :
  PT.stream_opened w body ->
  PS.ending body = Ok () ->
  exists checks,
    (PS.run w).1 = Ok checks /\
    PT.with_id "server-sse-retry-field" checks =
      [match PT.retries (PS.items body) with
       | _ :: _ => mkCheck "server-sse-retry-field" "ServerSendsRetryField" SUCCESS None
       | [] =>
           mkCheck "server-sse-retry-field" "ServerSendsRetryField" WARNING
             (Some "Server did not send retry field. This is recommended for controlling client reconnection timing.")
       end].
Proof.
  intros Hopen Hend.
  destruct (clean_stream_run w body Hopen Hend) as (tail & Hrun & Htail).
  cbv zeta in Hrun. eexists. split; [exact Hrun|].
  rewrite !with_id_app.
  rewrite (with_id_others PT.log_ids _ (PT.preamble _)) by (outside || apply preamble_ids).
  rewrite (with_id_others PT.log_ids _ (concat _)) by (outside || apply logged_ids).
  rewrite (with_id_others PT.log_ids _ tail) by (outside || exact (tail_ids _ Htail)).
  unfold PT.with_id.
  rewrite filter_cons_False by (cbn; discriminate).
  rewrite filter_cons_False by (rewrite priming_verdict_id; discriminate).
  rewrite filter_cons_True by reflexivity.
  rewrite filter_nil. cbn [app]. f_equal.
  unfold PT.retry_verdict. rewrite advance_hasRetryField. cbn [PS.scan0 PS.hasRetryField orb].
  destruct (PT.retries (PS.items body)); reflexivity.
Qed.

Lemma retry_verdict_reads_any_hint_witness :
  let priming := mkEvent (Some "e1") None "" (Throw (ErrorObject "Unexpected end of JSON input")) in
  let body := PS.mkStream [PS.Event priming; PS.OnRetry 500] (Ok ()) in
  let w :=
    PS.mkWorld (mkSession (Ok ()) (Ok ()) (Ok ()) (Some "abc") (Ok ()))
      (Ok (mkResponse 200 (Some "text/event-stream") (Some body)))
      (Throw (Thrown "unused")) in
  exists checks,
    (PS.run w).1 = Ok checks /\
    PT.with_id "server-sse-retry-field" checks =
      [mkCheck "server-sse-retry-field" "ServerSendsRetryField" SUCCESS None].
Proof.
  intros priming body w.
  assert (PT.stream_opened w body) as Hopen.
  { repeat split. eexists. repeat split. }
  exact (retry_verdict_reads_any_hint w body Hopen eq_refl).
Defined.

(** ** Polling: step 4 in a run *)

Lemma advance_has_lastEventId (l : list PS.item) (v : PS.scan) :
  truthy (PS.lastEventId (foldl PT.advance v l)) =
    truthy (PS.lastEventId v) || existsb PT.has_id (PT.events l).
Proof.
  revert v. induction l as [|[ms|e] l IH]; intros v; cbn [foldl].
  - by rewrite orb_false_r.
  - rewrite IH. reflexivity.
  - rewrite IH. change (PT.events (PS.Event e :: l)) with (e :: PT.events l).
    cbn [existsb PT.advance PS.lastEventId]. unfold PT.has_id at 2.
    destruct (truthy (ev_id e)) eqn:E; [by rewrite E, orb_true_r|].
    reflexivity.
Qed.

Lemma reconnects_events (sid : option string) (l : list PS.item) :
  PT.reconnects sid (foldl PT.advance PS.scan0 l) =
    negb (existsb PT.is_tool_response (PT.events l)) &&
    existsb PT.has_id (PT.events l) && truthy sid.
Proof.
  unfold PT.reconnects.
  rewrite advance_receivedToolResponse, advance_has_lastEventId. reflexivity.
Qed.

Lemma post_report_no_resume (sid : option string) (l : list PS.item) :
  PT.with_id "server-sse-disconnect-resume" (PT.post_report sid l) = [].
Proof.
  unfold PT.post_report. cbv zeta. rewrite !with_id_app.
  assert (PT.with_id "server-sse-disconnect-resume" (PT.preamble sid) = []) as ->
    by (unfold PT.preamble; by destruct (truthy sid)).
  assert (PT.with_id "server-sse-disconnect-resume" (concat (PT.logged <$> l)) = []) as ->.
  { induction l as [|[ms|e] l IH]; cbn [fmap list_fmap concat]; [done|exact IH|].
    rewrite with_id_app, IH, app_nil_r. unfold PT.logged.
    by destruct (truthy (ev_id e)), (PS.toolResponse e). }
  unfold PT.with_id.
  rewrite filter_cons_False by (cbn; discriminate).
  rewrite filter_cons_False by (rewrite priming_verdict_id; discriminate).
  rewrite filter_cons_False by (cbn; discriminate).
  reflexivity.
Qed.

(** A run whose POST stream ended in order returns the report of the POST
    stream, what step 4 recorded, and the check of the [catch] block if
    step 4 threw; the client is closed once. *)
Lemma clean_stream_exact
    (w : PS.world) (body : PS.stream) (c : Probe.completion unit) (cs : list ConformanceCheck) :
  PT.stream_opened w body ->
  PS.ending body = Ok () ->
  (forall st,
     PS.reconnect w (transportSessionId (PS.session w))
       (foldl PT.advance PS.scan0 (PS.items body)) st = (c, ProbeTrace.pushed cs st)) ->
  (PS.run w).1 =
    Ok (PT.post_report (transportSessionId (PS.session w)) (PS.items body) ++ cs ++
        match c with Probe.Raised e => [PT.error_check e] | _ => [] end) /\
  Probe.closeCalls (PS.run w).2 = 1%nat.
Proof.
  intros Hopen Hend Hc.
  destruct (polling_run_of_probe w) as [Hrun Hcalls]. cbv zeta in Hrun, Hcalls.
  pose proof (probe_stream w body Hopen) as Hp. cbv zeta in Hp.
  rewrite Hend, Hc in Hp. rewrite Hp in Hrun, Hcalls.
  split; [|exact Hcalls].
  rewrite Hrun. unfold ProbeTrace.pushed, PT.post_report.
  cbn [fst snd Probe.checks].
  destruct c as [[]| |e]; rewrite <- ?app_assoc, ?app_nil_r; reflexivity.
Qed.

(** X14. When the POST is answered by an event stream and reading it
    fails, the run still returns: the traffic and the events read until
    then are reported (a tool error among them included), followed by one
    FAILURE check with the error text.  The stream is not reported as
    closed and no verdict on the priming event, the retry field or the
    reconnection is given; no GET is made; the client is closed once. *)
Theorem broken_stream_gives_no_verdict (w : PS.world) (body : PS.stream) (e : exn) :
  PT.stream_opened w body ->
  PS.ending body = Throw e ->
  (PS.run w).1 =
    Ok (PT.preamble (transportSessionId (PS.session w)) ++
        concat (PT.logged <$> PS.items body) ++
        [mkCheck "server-sse-polling-error" "ServerSSEPollingTest" FAILURE
           (Some ("Error: " +:+ error_text e))]) /\
  (forall checks, (PS.run w).1 = Ok checks ->
     Forall (λ c, ck_id c ∈ ["server-sse-polling-session"; "outgoing-request";
                             "incoming-response"; "incoming-sse-event";
                             "server-sse-polling-error"]) checks) /\
  Probe.closeCalls (PS.run w).2 = 1%nat /\
  (forall outcome, PS.run (PS.mkWorld (PS.session w) (PS.post w) outcome) = PS.run w).
Proof.
  intros Hopen Hend.
  destruct (polling_run_of_probe w) as [Hrun Hcalls]. cbv zeta in Hrun, Hcalls.
  pose proof (probe_stream w body Hopen) as Hp. cbv zeta in Hp.
  rewrite Hend in Hp. rewrite Hp in Hrun, Hcalls.
  cbn [fst snd Probe.checks Probe.client] in Hrun, Hcalls.
  rewrite <- app_assoc in Hrun.
  split; [exact Hrun|]. split; [|split; [exact Hcalls|]].
  - intros checks Hc. rewrite Hrun in Hc. injection Hc as <-.
    apply Forall_app. split; [|apply Forall_app; split].
    + unfold PT.preamble. destruct (truthy _); repeat constructor; member.
    + generalize (PS.items body). intros l.
      induction l as [|[ms|ev] l IH]; cbn [fmap list_fmap concat]; [constructor|exact IH|].
      apply Forall_app. split; [|exact IH].
      unfold PT.logged. apply Forall_app. split.
      * destruct (truthy (ev_id ev)); repeat constructor; member.
      * destruct (PS.toolResponse ev); repeat constructor; member.
    + repeat constructor; member.
  - intros outcome. unfold PS.run, Probe.async_checks, Probe.try_finally, Probe.try_catch.
    assert (PT.stream_opened (PS.mkWorld (PS.session w) (PS.post w) outcome) body) as Hopen'
      by exact Hopen.
    pose proof (probe_stream _ body Hopen') as Hp'. cbv zeta in Hp'.
    rewrite Hend in Hp'. rewrite Hp, Hp'. reflexivity.
Qed.

Lemma broken_stream_gives_no_verdict_witness :
  let priming := mkEvent (Some "e1") None "" (Throw (ErrorObject "Unexpected end of JSON input")) in
  let body := PS.mkStream [PS.OnRetry 500; PS.Event priming] (Throw (ErrorObject "terminated")) in
  let w :=
    PS.mkWorld (mkSession (Ok ()) (Ok ()) (Ok ()) (Some "abc") (Ok ()))
      (Ok (mkResponse 200 (Some "text/event-stream") (Some body)))
      (Throw (Thrown "unused")) in
  ck_status <$> default [] (match (PS.run w).1 with Ok cs => Some cs | Throw _ => None end) =
    [INFO; INFO; INFO; FAILURE].
Proof.
  intros priming body w.
  assert (PT.stream_opened w body) as Hopen.
  { repeat split. eexists. repeat split. }
  destruct (broken_stream_gives_no_verdict w body (ErrorObject "terminated") Hopen eq_refl)
    as (Hrun & _).
  rewrite Hrun. reflexivity.
Defined.

(** X15. The scenario reconnects only when it has to and can: when the
    result of the call already came on the POST stream, when no event of
    that stream had an id, or when the transport has no session id, the
    run ends with a single INFO check on the reconnection and no GET is
    made, so that the outcome of a GET has no influence on the run. *)
Theorem no_reconnection_without_need (w : PS.world) (body : PS.stream) :
  PT.stream_opened w body ->
  PS.ending body = Ok () ->
  let events := PT.events (PS.items body) in
  existsb PT.is_tool_response events = true \/
  existsb PT.has_id events = false \/
  truthy (transportSessionId (PS.session w)) = false ->
  (exists before,
     (PS.run w).1 =
       Ok (before ++ [mkCheck "server-sse-disconnect-resume" "ServerDisconnectResume" INFO None]) /\
     PT.with_id "server-sse-disconnect-resume" before = []) /\
  (forall outcome, PS.run (PS.mkWorld (PS.session w) (PS.post w) outcome) = PS.run w).
Proof.
  intros Hopen Hend events Hcase.
  assert (PT.reconnects (transportSessionId (PS.session w))
            (foldl PT.advance PS.scan0 (PS.items body)) = false) as Hr.
  { rewrite reconnects_events. fold events.
    destruct Hcase as [-> | [-> | ->]]; [reflexivity| |].
    - by rewrite andb_false_r.
    - by rewrite andb_false_r. }
  split.
  - destruct (clean_stream_exact w body (Probe.Normal ())
                [PS.info "server-sse-disconnect-resume" "ServerDisconnectResume"]
                Hopen Hend) as [Hrun _].
    { intros st. by apply reconnect_skipped. }
    eexists. split; [|apply post_report_no_resume].
    rewrite Hrun, app_nil_r. reflexivity.
  - intros outcome. unfold PS.run, Probe.async_checks, Probe.try_finally, Probe.try_catch.
    assert (PT.stream_opened (PS.mkWorld (PS.session w) (PS.post w) outcome) body) as Hopen'
      by exact Hopen.
    pose proof (probe_stream _ body Hopen') as Hp'. cbv zeta in Hp'.
    pose proof (probe_stream _ body Hopen) as Hp. cbv zeta in Hp.
    rewrite Hend in Hp, Hp'. cbn [PS.session] in Hp'.
    rewrite reconnect_skipped in Hp, Hp' by exact Hr.
    rewrite Hp, Hp'. reflexivity.
Qed.

Lemma no_reconnection_without_need_witness :
  let result := JObject [("jsonrpc", JString "2.0"); ("id", JNumber 1);
                         ("result", JObject [("content", JArray [])])] in
  let priming := mkEvent (Some "e1") None "" (Throw (ErrorObject "Unexpected end of JSON input")) in
  let answer := mkEvent (Some "e2") None "{...}" (Ok result) in
  let body := PS.mkStream [PS.Event priming; PS.Event answer] (Ok ()) in
  let w :=
    PS.mkWorld (mkSession (Ok ()) (Ok ()) (Ok ()) (Some "abc") (Ok ()))
      (Ok (mkResponse 200 (Some "text/event-stream") (Some body)))
      (Throw (Thrown "unused")) in
  (exists before,
     (PS.run w).1 =
       Ok (before ++ [mkCheck "server-sse-disconnect-resume" "ServerDisconnectResume" INFO None]) /\
     PT.with_id "server-sse-disconnect-resume" before = []) /\
  PS.run (PS.mkWorld (PS.session w) (PS.post w) (Ok (mkResponse 200 None None))) = PS.run w.
Proof.
  intros result priming answer body w.
  assert (PT.stream_opened w body) as Hopen.
  { repeat split. eexists. repeat split. }
  destruct (no_reconnection_without_need w body Hopen eq_refl (or_introl eq_refl))
    as [Hrun Hget].
  split; [exact Hrun|apply Hget].
Defined.

(** X16. When the result did not come on the POST stream, an event of
    that stream had an id and there is a session id, the scenario makes
    the GET.  If the GET is answered 2xx with a body, the events of the
    new stream are read, and logged one by one, up to and including the
    first that carries the result; the run then ends with the verdict on
    the reconnection: SUCCESS when the result was among the events,
    WARNING with an error message when the stream ended without it.
    Events after the result are not read, and how the stream ends after
    it does not matter. *)
Theorem reconnection_is_judged_on_the_result
    (w : PS.world) (body : PS.stream) (getResponse : Response PS.stream) (resumed : PS.stream) :
  PT.stream_opened w body ->
  PS.ending body = Ok () ->
  existsb PT.is_tool_response (PT.events (PS.items body)) = false ->
  existsb PT.has_id (PT.events (PS.items body)) = true ->
  truthy (transportSessionId (PS.session w)) = true ->
  PS.get w = Ok getResponse ->
  ok getResponse = true ->
  responseBody getResponse = Some resumed ->
  let events := PT.events (PS.items resumed) in
  let found := existsb PT.is_tool_response events in
  found = true \/ PS.ending resumed = Ok () ->
  exists before,
    (PS.run w).1 =
      Ok (before ++
          [PS.info "outgoing-request" "OutgoingRequest";
           PS.info "incoming-response" "IncomingResponse"] ++
          replicate (length (PT.read_until_response events))
            (PS.info "incoming-sse-event" "IncomingSseEvent") ++
          [mkCheck "server-sse-disconnect-resume" "ServerDisconnectResume"
             (if found then SUCCESS else WARNING)
             (if found then None
              else Some "Server did not send tool response after client reconnected with Last-Event-ID")]) /\
    PT.with_id "server-sse-disconnect-resume" before = [].
Proof.
  intros Hopen Hend Hnone Hid Hsid Hg Hok Hb events found Hfound.
  assert (PT.reconnects (transportSessionId (PS.session w))
            (foldl PT.advance PS.scan0 (PS.items body)) = true) as Hr
    by (by rewrite reconnects_events, Hnone, Hid, Hsid).
  destruct (clean_stream_exact w body (Probe.Normal ())
              (([PS.info "outgoing-request" "OutgoingRequest";
                 PS.info "incoming-response" "IncomingResponse"] ++
                replicate (length (PT.read_until_response events))
                  (PS.info "incoming-sse-event" "IncomingSseEvent")) ++
               [mkCheck "server-sse-disconnect-resume" "ServerDisconnectResume"
                  (if found then SUCCESS else WARNING)
                  (if found then None
                   else Some "Server did not send tool response after client reconnected with Last-Event-ID")])
              Hopen Hend) as [Hrun _].
  { intros st.
    pose proof (reconnect_resumed w _ _ st getResponse resumed Hr Hg Hok Hb) as H.
    cbv zeta in H. rewrite H. fold events. fold found.
    destruct found; [reflexivity|].
    destruct Hfound as [|Hend']; [discriminate|]. by rewrite Hend'. }
  eexists. split; [|apply post_report_no_resume].
  rewrite Hrun, app_nil_r, <- !app_assoc. reflexivity.
Qed.

Lemma reconnection_is_judged_on_the_result_witness :
  let result := JObject [("jsonrpc", JString "2.0"); ("id", JNumber 1);
                         ("result", JObject [("content", JArray [])])] in
  let priming := mkEvent (Some "e1") None "" (Throw (ErrorObject "Unexpected end of JSON input")) in
  let answer := mkEvent (Some "e2") None "{...}" (Ok result) in
  let body := PS.mkStream [PS.Event priming; PS.OnRetry 500] (Ok ()) in
  let resumed := PS.mkStream [PS.Event answer; PS.Event priming] (Throw (ErrorObject "terminated")) in
  let w :=
    PS.mkWorld (mkSession (Ok ()) (Ok ()) (Ok ()) (Some "abc") (Ok ()))
      (Ok (mkResponse 200 (Some "text/event-stream") (Some body)))
      (Ok (mkResponse 200 (Some "text/event-stream") (Some resumed))) in
  exists before,
    (PS.run w).1 =
      Ok (before ++
          [PS.info "outgoing-request" "OutgoingRequest";
           PS.info "incoming-response" "IncomingResponse";
           PS.info "incoming-sse-event" "IncomingSseEvent";
           mkCheck "server-sse-disconnect-resume" "ServerDisconnectResume" SUCCESS None]) /\
    PT.with_id "server-sse-disconnect-resume" before = [].
Proof.
  intros result priming answer body resumed w.
  assert (PT.stream_opened w body) as Hopen.
  { repeat split. eexists. repeat split. }
  exact (reconnection_is_judged_on_the_result w body
           (mkResponse 200 (Some "text/event-stream") (Some resumed)) resumed
           Hopen eq_refl eq_refl eq_refl eq_refl eq_refl eq_refl eq_refl (or_introl eq_refl)).
Defined.

(** X17. In the same situation, a GET that is answered outside 2xx, or
    without a body, is not read: the run ends with the verdict on the
    reconnection, which is INFO when the status is 405 and otherwise a
    WARNING whose message gives the status. *)
Theorem refused_reconnection_only_warns
    (w : PS.world) (body : PS.stream) (getResponse : Response PS.stream) :
  PT.stream_opened w body ->
  PS.ending body = Ok () ->
  existsb PT.is_tool_response (PT.events (PS.items body)) = false ->
  existsb PT.has_id (PT.events (PS.items body)) = true ->
  truthy (transportSessionId (PS.session w)) = true ->
  PS.get w = Ok getResponse ->
  ok getResponse = false \/ responseBody getResponse = None ->
  exists before,
    (PS.run w).1 =
      Ok (before ++
          [PS.info "outgoing-request" "OutgoingRequest";
           PS.info "incoming-response" "IncomingResponse";
           if bool_decide (status getResponse = 405)
           then mkCheck "server-sse-disconnect-resume" "ServerDisconnectResume" INFO None
           else mkCheck "server-sse-disconnect-resume" "ServerDisconnectResume" WARNING
                  (Some ("Server did not accept reconnection with Last-Event-ID (HTTP " +:+
                         pretty (status getResponse) +:+ ")"))]) /\
    PT.with_id "server-sse-disconnect-resume" before = [].
Proof.
  intros Hopen Hend Hnone Hid Hsid Hg Hno.
  assert (PT.reconnects (transportSessionId (PS.session w))
            (foldl PT.advance PS.scan0 (PS.items body)) = true) as Hr
    by (by rewrite reconnects_events, Hnone, Hid, Hsid).
  assert ((if ok getResponse then responseBody getResponse else None) = None) as Hno'
    by (destruct Hno as [-> | ->]; [reflexivity|by destruct (ok getResponse)]).
  destruct (clean_stream_exact w body (Probe.Normal ()) _ Hopen Hend
              (λ st, reconnect_refused w _ _ st getResponse Hr Hg Hno')) as [Hrun _].
  eexists. split; [|apply post_report_no_resume].
  rewrite Hrun, app_nil_r. reflexivity.
Qed.

Lemma refused_reconnection_only_warns_witness :
  let priming := mkEvent (Some "e1") None "" (Throw (ErrorObject "Unexpected end of JSON input")) in
  let body := PS.mkStream [PS.Event priming; PS.OnRetry 500] (Ok ()) in
  let w :=
    PS.mkWorld (mkSession (Ok ()) (Ok ()) (Ok ()) (Some "abc") (Ok ()))
      (Ok (mkResponse 200 (Some "text/event-stream") (Some body)))
      (Ok (mkResponse 204 None None)) in
  exists before,
    (PS.run w).1 =
      Ok (before ++
          [PS.info "outgoing-request" "OutgoingRequest";
           PS.info "incoming-response" "IncomingResponse";
           mkCheck "server-sse-disconnect-resume" "ServerDisconnectResume" WARNING
             (Some "Server did not accept reconnection with Last-Event-ID (HTTP 204)")]) /\
    PT.with_id "server-sse-disconnect-resume" before = [].
Proof.
  intros priming body w.
  assert (PT.stream_opened w body) as Hopen.
  { repeat split. eexists. repeat split. }
  exact (refused_reconnection_only_warns w body (mkResponse 204 None None)
           Hopen eq_refl eq_refl eq_refl eq_refl eq_refl (or_intror eq_refl)).
Defined.

(** ** Polling: the early exits *)

Lemma probe_early_exit (w : PS.world) (postResponse : Response PS.stream) :
  newClient (PS.session w) = Ok () ->
  newTransport (PS.session w) = Ok () ->
  connect (PS.session w) = Ok () ->
  PS.post w = Ok postResponse ->
  (if ok postResponse
   then if is_event_stream (contentType postResponse) then responseBody postResponse else None
   else None) = None ->
  PS.probe w (Probe.mkLocals [] false 0%nat) =
    (Probe.Returned,
     Probe.mkLocals
       (PT.preamble (transportSessionId (PS.session w)) ++ [PT.early_check postResponse])
       true 0%nat).
Proof.
  intros H1 H2 H3 Hp Hno.
  unfold PS.probe. unfold Probe.bind at 1. rewrite probe_session_ok by done.
  cbv [mbind probe_bind]. unfold Probe.bind at 1.
  assert (Hpre : ∀ k : Probe.M unit,
    (let (c, st') :=
       Probe.when (negb (truthy (transportSessionId (PS.session w))))
         (Probe.push (mkCheck "server-sse-polling-session" "ServerSSEPollingSession" WARNING None))
         (Probe.mkLocals [] true 0%nat) in
     match c with
     | Probe.Normal _ => k st'
     | Probe.Returned => (Probe.Returned, st')
     | Probe.Raised e => (Probe.Raised e, st')
     end) =
    k (Probe.mkLocals
         (if truthy (transportSessionId (PS.session w)) then []
          else [mkCheck "server-sse-polling-session" "ServerSSEPollingSession" WARNING None])
         true 0%nat)).
  { intros k. destruct (truthy (transportSessionId (PS.session w))); reflexivity. }
  cbn [Probe.checks Probe.closeCalls]. rewrite Hpre. clear Hpre.
  unfold Probe.bind at 1. rewrite Hp, loggingFetch_ok.
  change (ProbeTrace.pushed
            [PS.info "outgoing-request" "OutgoingRequest";
             PS.info "incoming-response" "IncomingResponse"]
            (Probe.mkLocals
               (if truthy (transportSessionId (PS.session w)) then []
                else [mkCheck "server-sse-polling-session" "ServerSSEPollingSession"
                        WARNING None])
               true 0%nat))
    with (Probe.mkLocals (PT.preamble (transportSessionId (PS.session w))) true 0%nat).
  unfold PT.early_check.
  destruct (ok postResponse); cbn [negb].
  - destruct (is_event_stream (contentType postResponse)); cbn [negb]; [|reflexivity].
    rewrite Hno. reflexivity.
  - destruct (bool_decide (status postResponse = 400 \/ status postResponse = 404));
      reflexivity.
Qed.

Lemma early_exit_run (w : PS.world) (postResponse : Response PS.stream) :
  newClient (PS.session w) = Ok () ->
  newTransport (PS.session w) = Ok () ->
  connect (PS.session w) = Ok () ->
  PS.post w = Ok postResponse ->
  (if ok postResponse
   then if is_event_stream (contentType postResponse) then responseBody postResponse else None
   else None) = None ->
  (PS.run w).1 =
    Ok (PT.preamble (transportSessionId (PS.session w)) ++ [PT.early_check postResponse]) /\
  Probe.closeCalls (PS.run w).2 = 1%nat /\
  (forall outcome, PS.run (PS.mkWorld (PS.session w) (PS.post w) outcome) = PS.run w).
Proof.
  intros H1 H2 H3 Hp Hno.
  pose proof (probe_early_exit w postResponse H1 H2 H3 Hp Hno) as He.
  destruct (polling_run_of_probe w) as [Hrun Hcalls]. cbv zeta in Hrun, Hcalls.
  rewrite He in Hrun, Hcalls.
  split; [exact Hrun|]. split; [exact Hcalls|].
  intros outcome. unfold PS.run, Probe.async_checks, Probe.try_finally, Probe.try_catch.
  rewrite (probe_early_exit (PS.mkWorld (PS.session w) (PS.post w) outcome) postResponse
             H1 H2 H3 Hp Hno), He.
  reflexivity.
Qed.

(** X18. When the POST of the tool call is answered outside 2xx, the run
    stops there: after the traffic log it returns a single check, a
    WARNING that the server does not implement the tool for status 400
    or 404 and a FAILURE with the status for any other.  The body is not
    read, no verdict on the stream is given, no GET is made, and the
    client is closed once. *)
Theorem refused_call_ends_the_run (w : PS.world) (postResponse : Response PS.stream) :
  newClient (PS.session w) = Ok () ->
  newTransport (PS.session w) = Ok () ->
  connect (PS.session w) = Ok () ->
  PS.post w = Ok postResponse ->
  ok postResponse = false ->
  (PS.run w).1 =
    Ok (PT.preamble (transportSessionId (PS.session w)) ++
        [if bool_decide (status postResponse = 400 \/ status postResponse = 404) then
           mkCheck "server-sse-test-reconnection-tool" "ServerTestReconnectionTool" WARNING
             (Some ("Server does not implement test_reconnection tool (HTTP " +:+
                    pretty (status postResponse) +:+
                    "). This tool is recommended for testing SSE polling behavior."))
         else
           mkCheck "server-sse-post-request" "ServerSSEPostRequest" FAILURE
             (Some ("Server returned HTTP " +:+ pretty (status postResponse)))]) /\
  Probe.closeCalls (PS.run w).2 = 1%nat /\
  (forall outcome, PS.run (PS.mkWorld (PS.session w) (PS.post w) outcome) = PS.run w).
Proof.
  intros H1 H2 H3 Hp Hok.
  assert ((if ok postResponse
           then if is_event_stream (contentType postResponse)
                then responseBody postResponse else None
           else None) = None) as Hno by (by rewrite Hok).
  destruct (early_exit_run w postResponse H1 H2 H3 Hp Hno) as (Hrun & Hcalls & Hget).
  split; [|by split].
  rewrite Hrun. unfold PT.early_check. rewrite Hok. reflexivity.
Qed.

Lemma refused_call_ends_the_run_witness :
  let w :=
    PS.mkWorld (mkSession (Ok ()) (Ok ()) (Ok ()) None (Ok ()))
      (Ok (mkResponse 500 (Some "text/plain") None))
      (Throw (Thrown "unused")) in
  (PS.run w).1 =
    Ok [mkCheck "server-sse-polling-session" "ServerSSEPollingSession" WARNING None;
        PS.info "outgoing-request" "OutgoingRequest";
        PS.info "incoming-response" "IncomingResponse";
        mkCheck "server-sse-post-request" "ServerSSEPostRequest" FAILURE
          (Some "Server returned HTTP 500")].
Proof.
  intros w.
  exact (proj1 (refused_call_ends_the_run w (mkResponse 500 (Some "text/plain") None)
                  eq_refl eq_refl eq_refl eq_refl eq_refl)).
Defined.

(** X19. When the POST is answered 2xx but not as an event stream (the
    content type is absent or does not contain [text/event-stream]), the
    run returns a single INFO check after the traffic log: a server that
    answers with plain JSON gets no WARNING and no FAILURE.  When the
    content type is an event stream but the response has no body, the
    single check is a FAILURE.  In both cases no GET is made. *)
Theorem answer_without_stream_ends_the_run (w : PS.world) (postResponse : Response PS.stream) :
  newClient (PS.session w) = Ok () ->
  newTransport (PS.session w) = Ok () ->
  connect (PS.session w) = Ok () ->
  PS.post w = Ok postResponse ->
  ok postResponse = true ->
  is_event_stream (contentType postResponse) = false \/ responseBody postResponse = None ->
  (PS.run w).1 =
    Ok (PT.preamble (transportSessionId (PS.session w)) ++
        [if is_event_stream (contentType postResponse) then
           mkCheck "server-sse-polling-stream" "ServerSSEPollingStream" FAILURE
             (Some "Response body is null")
         else
           mkCheck "server-sse-content-type" "ServerSSEContentType" INFO None]) /\
  (forall outcome, PS.run (PS.mkWorld (PS.session w) (PS.post w) outcome) = PS.run w).
Proof.
  intros H1 H2 H3 Hp Hok Hcase.
  assert ((if ok postResponse
           then if is_event_stream (contentType postResponse)
                then responseBody postResponse else None
           else None) = None) as Hno.
  { rewrite Hok. destruct Hcase as [-> | ->]; [reflexivity|].
    by destruct (is_event_stream _). }
  destruct (early_exit_run w postResponse H1 H2 H3 Hp Hno) as (Hrun & _ & Hget).
  split; [|exact Hget].
  rewrite Hrun. unfold PT.early_check. rewrite Hok. cbn [negb].
  by destruct (is_event_stream (contentType postResponse)).
Qed.

Lemma answer_without_stream_ends_the_run_witness :
  let w :=
    PS.mkWorld (mkSession (Ok ()) (Ok ()) (Ok ()) (Some "abc") (Ok ()))
      (Ok (mkResponse 200 (Some "application/json") (Some (PS.mkStream [] (Ok ())))))
      (Throw (Thrown "unused")) in
  (PS.run w).1 =
    Ok [PS.info "outgoing-request" "OutgoingRequest";
        PS.info "incoming-response" "IncomingResponse";
        PS.info "server-sse-content-type" "ServerSSEContentType"].
Proof.
  intros w.
  exact (proj1 (answer_without_stream_ends_the_run w
                  (mkResponse 200 (Some "application/json") (Some (PS.mkStream [] (Ok ()))))
                  eq_refl eq_refl eq_refl eq_refl eq_refl (or_introl eq_refl))).
Defined.

(** ** Polling: what can fail a run *)

Lemma open_stream_run (w : PS.world) (body : PS.stream) :
  PT.stream_opened w body ->
  exists rest,
    (PS.run w).1 =
      Ok (PT.preamble (transportSessionId (PS.session w)) ++
          concat (PT.logged <$> PS.items body) ++ rest) /\
    Forall (λ k, ck_status k = FAILURE -> ck_id k = "server-sse-polling-error") rest.
Proof.
  intros Hopen. destruct (PS.ending body) as [[]|e] eqn:Hend.
  - destruct (clean_stream_run w body Hopen Hend) as (tail & Hrun & Htail).
    cbv zeta in Hrun. revert Hrun.
    generalize (foldl PT.advance PS.scan0 (PS.items body)). intros v Hrun.
    exists ([PS.info "stream-closed" "StreamClosed"; PT.priming_verdict v; PT.retry_verdict v] ++
            tail).
    split; [rewrite Hrun, <- app_assoc; reflexivity|].
    apply List.Forall_cons; [discriminate|].
    apply List.Forall_cons.
    { unfold PT.priming_verdict.
      by destruct (PS.hasPrimingEvent v), (PS.primingEventIsFirst v). }
    apply List.Forall_cons.
    { unfold PT.retry_verdict. cbn [ck_status]. by destruct (PS.hasRetryField v). }
    eapply Forall_impl; [exact Htail|]. by intros k [_ Hk].
  - destruct (polling_run_of_probe w) as [Hrun _]. cbv zeta in Hrun.
    pose proof (probe_stream w body Hopen) as Hp. cbv zeta in Hp.
    rewrite Hend in Hp. rewrite Hp in Hrun.
    cbn [fst snd Probe.checks] in Hrun. rewrite <- app_assoc in Hrun.
    eexists. split; [exact Hrun|]. by repeat constructor.
Qed.

Lemma logged_failures (l : list PS.item) (c : ConformanceCheck) :
  c ∈ concat (PT.logged <$> l) ->
  ck_status c = FAILURE ->
  c = mkCheck "incoming-sse-event" "IncomingSseEvent" FAILURE (Some "Tool call failed").
Proof.
  induction l as [|[ms|e] l IH]; cbn [fmap list_fmap concat].
  - by intros ?%elem_of_nil.
  - exact IH.
  - intros [Hc|Hc]%elem_of_app; [|by apply IH].
    unfold PT.logged in Hc. apply elem_of_app in Hc as [Hc|Hc].
    + destruct (truthy (ev_id e)); [|by apply elem_of_nil in Hc].
      apply list_elem_of_singleton in Hc as ->. discriminate.
    + destruct (PS.toolResponse e) as [[]|]; [| |by apply elem_of_nil in Hc].
      * by apply list_elem_of_singleton in Hc as ->.
      * apply list_elem_of_singleton in Hc as ->. discriminate.
Qed.

Lemma logged_tool_error (l : list PS.item) :
  mkCheck "incoming-sse-event" "IncomingSseEvent" FAILURE (Some "Tool call failed")
    ∈ concat (PT.logged <$> l) <->
  exists e, e ∈ PT.events l /\ PS.toolResponse e = Some true.
Proof.
  induction l as [|[ms|e] l IH]; cbn [fmap list_fmap concat].
  - split; [by intros ?%elem_of_nil|]. by intros (e & ?%elem_of_nil & _).
  - exact IH.
  - change (PT.events (PS.Event e :: l)) with (e :: PT.events l).
    rewrite elem_of_app, IH. split.
    + intros [Hc|(e' & He' & Ht)]; [|exists e'; split; [by right|done]].
      exists e. split; [by left|].
      unfold PT.logged in Hc. apply elem_of_app in Hc as [Hc|Hc].
      * destruct (truthy (ev_id e)); [|by apply elem_of_nil in Hc].
        by apply list_elem_of_singleton in Hc.
      * destruct (PS.toolResponse e) as [[]|]; [done| |by apply elem_of_nil in Hc].
        by apply list_elem_of_singleton in Hc.
    + intros (e' & He' & Ht). apply elem_of_cons in He' as [->|He'].
      * left. unfold PT.logged. rewrite Ht. apply elem_of_app. right.
        by apply list_elem_of_singleton.
      * right. by exists e'.
Qed.

(** X20. Once the POST is answered by an event stream, only two things
    make a FAILURE check: an event of the POST stream that carries the
    result of the call with [isError: true] (check [incoming-sse-event],
    message [Tool call failed]), and an exception caught by the [catch]
    block.  There is a tool-error FAILURE exactly when such an event was
    read, however the stream ended.  A missing or late priming event, a
    missing retry field, a refused or fruitless reconnection and a tool
    error that arrives only on the GET stream never give a FAILURE. *)
Theorem only_tool_errors_and_exceptions_fail (w : PS.world) (body : PS.stream) :
  PT.stream_opened w body ->
  let tool_error :=
    mkCheck "incoming-sse-event" "IncomingSseEvent" FAILURE (Some "Tool call failed") in
  exists checks,
    (PS.run w).1 = Ok checks /\
    (forall c, c ∈ checks -> ck_status c = FAILURE ->
       c = tool_error \/ ck_id c = "server-sse-polling-error") /\
    (tool_error ∈ checks <->
     exists e, e ∈ PT.events (PS.items body) /\ PS.toolResponse e = Some true).
Proof.
  intros Hopen tool_error.
  destruct (open_stream_run w body Hopen) as (rest & Hrun & Hrest).
  eexists. split; [exact Hrun|].
  rewrite Forall_forall in Hrest.
  assert (forall c, c ∈ PT.preamble (transportSessionId (PS.session w)) ->
            ck_status c <> FAILURE) as Hpre.
  { intros c Hc. unfold PT.preamble in Hc.
    destruct (truthy _); cbn in Hc;
      repeat (apply elem_of_cons in Hc as [->|Hc]; [discriminate|]);
      by apply elem_of_nil in Hc. }
  split.
  - intros c Hc Hs. apply elem_of_app in Hc as [Hc|Hc]; [by destruct (Hpre c Hc)|].
    apply elem_of_app in Hc as [Hc|Hc].
    + left. by apply (logged_failures (PS.items body)).
    + right. by apply Hrest.
  - rewrite <- logged_tool_error. rewrite !elem_of_app. split; [|tauto].
    intros [Hc|[Hc|Hc]]; [|exact Hc|].
    + by destruct (Hpre _ Hc).
    + by specialize (Hrest _ Hc eq_refl).
Qed.

Lemma only_tool_errors_and_exceptions_fail_witness :
  let failed := JObject [("jsonrpc", JString "2.0"); ("id", JNumber 1);
                         ("result", JObject [("isError", JBool true)])] in
  let priming := mkEvent (Some "e1") None "" (Throw (ErrorObject "Unexpected end of JSON input")) in
  let answer := mkEvent (Some "e2") None "{...}" (Ok failed) in
  let body := PS.mkStream [PS.Event priming; PS.Event answer] (Throw (ErrorObject "terminated")) in
  let w :=
    PS.mkWorld (mkSession (Ok ()) (Ok ()) (Ok ()) (Some "abc") (Ok ()))
      (Ok (mkResponse 200 (Some "text/event-stream") (Some body)))
      (Throw (Thrown "unused")) in
  exists checks,
    (PS.run w).1 = Ok checks /\
    mkCheck "incoming-sse-event" "IncomingSseEvent" FAILURE (Some "Tool call failed") ∈ checks.
Proof.
  intros failed priming answer body w.
  assert (PT.stream_opened w body) as Hopen.
  { repeat split. eexists. repeat split. }
  destruct (only_tool_errors_and_exceptions_fail w body Hopen) as (checks & Hrun & _ & Hiff).
  exists checks. split; [exact Hrun|].
  apply Hiff. exists answer. split; [|reflexivity].
  apply list_elem_of_In. right. left. reflexivity.
Defined.

(** ** Multiple streams: the whole run *)

Lemma streams_run_of_probe (w : MS.world) :
  let body := MS.probe w (Probe.mkLocals [] false 0%nat) in
  (MS.run w).1 = Ok (match body.1 with
                     | Probe.Raised e => Probe.checks body.2 ++ [StreamsTrace.error_check e]
                     | _ => Probe.checks body.2
                     end) /\
  Probe.closeCalls (MS.run w).2 = (if Probe.client body.2 then 1 else 0)%nat.
Proof.
  exact (guarded_run (MS.probe w) StreamsTrace.error_check (MS.session w)
           (keeps_streams_probe w)).
Qed.

Lemma streams_probe_connected (w : MS.world) :
  newClient (MS.session w) = Ok () ->
  newTransport (MS.session w) = Ok () ->
  connect (MS.session w) = Ok () ->
  MS.probe w (Probe.mkLocals [] false 0%nat) =
    if truthy (transportSessionId (MS.session w)) then
      match MS.Promise_all (MS.firstRejected w) (MS.post w <$> seq 0 MS.numStreams) with
      | Ok streamResponses =>
          (Probe.Normal (),
           Probe.mkLocals
             [MS.acceptsCheck streamResponses; MS.functionalCheck streamResponses] true 0%nat)
      | Throw e => (Probe.Raised e, Probe.mkLocals [] true 0%nat)
      end
    else
      (Probe.Returned, Probe.mkLocals [StreamsTrace.session_check] true 0%nat).
Proof.
  intros H1 H2 H3. unfold MS.probe. unfold Probe.bind at 1.
  rewrite probe_session_ok by done.
  destruct (truthy (transportSessionId (MS.session w))); cbn [negb]; [|reflexivity].
  cbv [mbind probe_bind]. unfold Probe.bind at 1.
  destruct (MS.Promise_all _ _); reflexivity.
Qed.

Lemma streams_probe_unconnected (w : MS.world) :
  (newClient (MS.session w) = Ok () ->
   newTransport (MS.session w) = Ok () ->
   connect (MS.session w) = Ok () -> False) ->
  exists e st,
    MS.probe w (Probe.mkLocals [] false 0%nat) = (Probe.Raised e, st) /\
    Probe.checks st = [].
Proof.
  intros Hno. unfold MS.probe, initialize_session.
  cbv [mbind probe_bind Probe.bind mret probe_ret Probe.ret Probe.await Probe.raise
       Probe.assign_client].
  destruct (newClient (MS.session w)) as [[]|e1]; [|by eauto].
  destruct (newTransport (MS.session w)) as [[]|e2]; [|by eauto].
  destruct (connect (MS.session w)) as [[]|e3]; [|by eauto].
  by destruct Hno.
Qed.

(** X21. Without a session id (the transport reports none, or an empty
    one) the multiple-streams scenario does not test anything: the run
    returns the single WARNING check on the session, no POST is sent, so
    that what the server would have answered has no influence, and the
    client is closed once. *)
Theorem no_session_id_no_streams (w : MS.world) :
  newClient (MS.session w) = Ok () ->
  newTransport (MS.session w) = Ok () ->
  connect (MS.session w) = Ok () ->
  truthy (transportSessionId (MS.session w)) = false ->
  (MS.run w).1 =
    Ok [mkCheck "server-sse-multiple-streams-session" "ServerSSEMultipleStreamsSession"
          WARNING None] /\
  Probe.closeCalls (MS.run w).2 = 1%nat /\
  (forall post first, MS.run (MS.mkWorld (MS.session w) post first) = MS.run w).
Proof.
  intros H1 H2 H3 Hsid.
  destruct (streams_run_of_probe w) as [Hrun Hcalls]. cbv zeta in Hrun, Hcalls.
  pose proof (streams_probe_connected w H1 H2 H3) as Hp. rewrite Hsid in Hp.
  rewrite Hp in Hrun, Hcalls.
  split; [exact Hrun|]. split; [exact Hcalls|].
  intros post first.
  pose proof (streams_probe_connected (MS.mkWorld (MS.session w) post first) H1 H2 H3) as Hp'.
  cbn [MS.session] in Hp'. rewrite Hsid in Hp'.
  unfold MS.run, Probe.async_checks, Probe.try_finally, Probe.try_catch.
  rewrite Hp, Hp'. reflexivity.
Qed.

Lemma no_session_id_no_streams_witness :
  let w :=
    MS.mkWorld (mkSession (Ok ()) (Ok ()) (Ok ()) (Some "") (Ok ()))
      (λ _, Throw (Thrown "unused")) 0%nat in
  (MS.run w).1 =
    Ok [mkCheck "server-sse-multiple-streams-session" "ServerSSEMultipleStreamsSession"
          WARNING None].
Proof.
  intros w.
  exact (proj1 (no_session_id_no_streams w eq_refl eq_refl eq_refl eq_refl)).
Defined.

Lemma fulfilled_rejected {A} (promises : list (result A)) (e : exn) :
  MS.fulfilled promises = Throw e -> Throw e ∈ promises.
Proof.
  induction promises as [|[a|e'] rest IH]; cbn [MS.fulfilled]; [done| |].
  - destruct (MS.fulfilled rest); [done|]. intros [= ->]. right. by apply IH.
  - intros [= ->]. left.
Qed.

Lemma fulfilled_all {A} (promises : list (result A)) (values : list A) :
  MS.fulfilled promises = Ok values -> promises = Ok <$> values.
Proof.
  revert values. induction promises as [|[a|e'] rest IH]; intros values; cbn [MS.fulfilled].
  - by intros [= <-].
  - destruct (MS.fulfilled rest) as [vs|]; [|done]. intros [= <-].
    cbn. f_equal. by apply IH.
  - done.
Qed.

(** X22. [Promise.all] waits for every POST, and one rejected fetch
    rejects the whole: the run then returns a single FAILURE check with
    the text of the rejection that came first, and neither the
    acceptance verdict nor the verdict on the streams, whatever the other
    requests were answered. *)
Theorem rejected_post_hides_the_verdicts (w : MS.world) (i : nat) (e : exn) :
  newClient (MS.session w) = Ok () ->
  newTransport (MS.session w) = Ok () ->
  connect (MS.session w) = Ok () ->
  truthy (transportSessionId (MS.session w)) = true ->
  (i < MS.numStreams)%nat ->
  MS.post w i = Throw e ->
  exists j reason,
    (j < MS.numStreams)%nat /\
    MS.post w j = Throw reason /\
    (MS.firstRejected w = i -> reason = e) /\
    (MS.run w).1 =
      Ok [mkCheck "server-sse-multiple-streams-error" "ServerSSEMultipleStreamsTest" FAILURE
            (Some ("Error: " +:+ error_text reason))].
Proof.
  intros H1 H2 H3 Hsid Hi He.
  destruct (streams_run_of_probe w) as [Hrun _]. cbv zeta in Hrun.
  rewrite (streams_probe_connected w H1 H2 H3), Hsid in Hrun.
  assert ((MS.post w <$> seq 0 MS.numStreams) !! i = Some (Throw e)) as Hith.
  { rewrite list_lookup_fmap, lookup_seq_lt by done. cbn. by rewrite He. }
  unfold MS.Promise_all in Hrun.
  destruct (MS.fulfilled (MS.post w <$> seq 0 MS.numStreams)) as [values|e0] eqn:Hf.
  { apply fulfilled_all in Hf. rewrite Hf, list_lookup_fmap in Hith.
    by destruct (values !! i). }
  destruct ((MS.post w <$> seq 0 MS.numStreams) !! MS.firstRejected w)
    as [[r|e']|] eqn:Hfirst.
  - apply fulfilled_rejected in Hf.
    apply list_elem_of_fmap in Hf as (j & Hj & Hin). apply elem_of_seq in Hin.
    exists j, e0. split; [lia|]. split; [done|]. split; [|exact Hrun].
    intros Heq. rewrite Heq, Hith in Hfirst. discriminate.
  - rewrite list_lookup_fmap in Hfirst.
    destruct (seq 0 MS.numStreams !! MS.firstRejected w) as [j|] eqn:Hj; [|done].
    apply lookup_seq in Hj as [-> Hlt]. cbn in Hfirst. injection Hfirst as Hfirst.
    exists (MS.firstRejected w), e'. split; [lia|]. split; [done|]. split; [|exact Hrun].
    intros Heq. rewrite Heq, He in Hfirst. by injection Hfirst.
  - apply fulfilled_rejected in Hf.
    apply list_elem_of_fmap in Hf as (j & Hj & Hin). apply elem_of_seq in Hin.
    exists j, e0. split; [lia|]. split; [done|]. split; [|exact Hrun].
    intros Heq. rewrite Heq, Hith in Hfirst. discriminate.
Qed.

Lemma rejected_post_hides_the_verdicts_witness :
  let fine := mkResponse 200 (Some "text/event-stream")
                (Some (MS.mkBody MS.TimedOut (Ok ()))) in
  let w :=
    MS.mkWorld (mkSession (Ok ()) (Ok ()) (Ok ()) (Some "abc") (Ok ()))
      (λ i, if bool_decide (i = 2%nat) then Throw (ErrorObject "fetch failed") else Ok fine)
      2%nat in
  exists j reason,
    (j < MS.numStreams)%nat /\
    MS.post w j = Throw reason /\
    (MS.firstRejected w = 2%nat -> reason = ErrorObject "fetch failed") /\
    (MS.run w).1 =
      Ok [mkCheck "server-sse-multiple-streams-error" "ServerSSEMultipleStreamsTest" FAILURE
            (Some ("Error: " +:+ error_text reason))].
Proof.
  intros fine w.
  assert (2 < MS.numStreams)%nat as Hlt by (unfold MS.numStreams; lia).
  exact (rejected_post_hides_the_verdicts w 2%nat (ErrorObject "fetch failed")
           eq_refl eq_refl eq_refl eq_refl Hlt eq_refl).
Defined.

(** ** Every verdict is explained *)

Section records.
Context {A B : Type} (P : ConformanceCheck -> Prop).

Lemma records_ret (a : A) : ProbeTrace.records P (Probe.ret a).
Proof. intros st H. exact H. Qed.

Lemma records_mret (a : A) : ProbeTrace.records P (mret a : Probe.M A).
Proof. intros st H. exact H. Qed.

Lemma records_raise (e : exn) : ProbeTrace.records P (Probe.raise e : Probe.M A).
Proof. intros st H. exact H. Qed.

Lemma records_return : ProbeTrace.records P (Probe.return_checks : Probe.M A).
Proof. intros st H. exact H. Qed.

Lemma records_await (r : result A) : ProbeTrace.records P (Probe.await r).
Proof. intros st H. destruct r; exact H. Qed.

Lemma records_bind (m : Probe.M A) (k : A -> Probe.M B) :
  ProbeTrace.records P m -> (forall a, ProbeTrace.records P (k a)) ->
  ProbeTrace.records P (Probe.bind m k).
Proof.
  intros Hm Hk st H. unfold Probe.bind.
  specialize (Hm st H). destruct (m st) as [[a| |e] st']; cbn in Hm |- *; try done.
  by apply Hk.
Qed.

Lemma records_mbind (m : Probe.M A) (k : A -> Probe.M B) :
  ProbeTrace.records P m -> (forall a, ProbeTrace.records P (k a)) ->
  ProbeTrace.records P (m ≫= k).
Proof. apply records_bind. Qed.
End records.

Section records_unit.
Context (P : ConformanceCheck -> Prop).

Lemma records_push (c : ConformanceCheck) : P c -> ProbeTrace.records P (Probe.push c).
Proof.
  intros Hc st H. cbn. apply Forall_app. split; [exact H|]. by constructor.
Qed.

Lemma records_assign_client : ProbeTrace.records P Probe.assign_client.
Proof. intros st H. exact H. Qed.

Lemma records_when (b : bool) (m : Probe.M unit) :
  ProbeTrace.records P m -> ProbeTrace.records P (Probe.when b m).
Proof. intros Hm. destruct b; [done|]. apply records_ret. Qed.

Lemma records_try_catch (body : Probe.M unit) (handler : exn -> Probe.M unit) :
  ProbeTrace.records P body -> (forall e, ProbeTrace.records P (handler e)) ->
  ProbeTrace.records P (Probe.try_catch body handler).
Proof.
  intros Hb Hh st H. unfold Probe.try_catch.
  specialize (Hb st H). destruct (body st) as [[a| |e] st']; cbn in Hb |- *; try done.
  by apply Hh.
Qed.

Lemma records_try_finally (body finalizer : Probe.M unit) :
  ProbeTrace.records P body -> ProbeTrace.records P finalizer ->
  ProbeTrace.records P (Probe.try_finally body finalizer).
Proof.
  intros Hb Hf st H. unfold Probe.try_finally.
  specialize (Hb st H). destruct (body st) as [c st']. cbn in Hb.
  specialize (Hf st' Hb). by destruct (finalizer st') as [[[]| |e] st''].
Qed.

Lemma records_cleanup (w : Session) : ProbeTrace.records P (cleanup w).
Proof.
  intros st H. unfold cleanup.
  cbv [Probe.bind Probe.get_client Probe.when Probe.try_catch Probe.close Probe.ret].
  by destruct (Probe.client st), (closeOutcome w).
Qed.

Lemma records_async (body : Probe.M unit) (cs : list ConformanceCheck) :
  ProbeTrace.records P body ->
  (Probe.async_checks body).1 = Ok cs -> Forall P cs.
Proof.
  intros Hb. unfold Probe.async_checks.
  specialize (Hb (Probe.mkLocals [] false 0%nat) (Forall_nil_2 _)).
  destruct (body _) as [[a| |e] st]; cbn in Hb |- *; [|by intros [= <-]|done].
  by intros [= <-].
Qed.
End records_unit.

Ltac explain :=
  unfold explained; cbv [PS.info]; cbn [ck_status ck_errorMessage];
  repeat match goal with
         | |- context [if ?b then _ else _] =>
             destruct b; cbn [negb ck_status ck_errorMessage]
         end;
  (split; [intros; congruence | intros [|]; congruence]).

Ltac records :=
  repeat first
    [ apply records_push; [explain]
    | apply records_mret | apply records_ret | apply records_raise
    | apply records_return | apply records_await | apply records_assign_client
    | apply records_when
    | apply records_mbind; [|intros ?] | apply records_bind; [|intros ?]
    | assumption
    | match goal with
      | |- ProbeTrace.records _ (if ?b then _ else _) => destruct b
      | |- ProbeTrace.records _ (match ?x with _ => _ end) => destruct x
      end ].

Lemma explained_initialize_session (w : Session) :
  ProbeTrace.records explained (initialize_session w).
Proof. unfold initialize_session. records. Qed.

Lemma explained_loggingFetch (outcome : result (Response PS.stream)) :
  ProbeTrace.records explained (PS.loggingFetch outcome).
Proof. unfold PS.loggingFetch. records. Qed.

Lemma explained_scan_items (l : list PS.item) (v : PS.scan) :
  ProbeTrace.records explained (PS.scan_items v l).
Proof.
  revert v. induction l as [|i l IH]; intros v; cbn [PS.scan_items]; [records|].
  apply records_bind; [|intros ?; apply IH].
  unfold PS.scan_item. records.
Qed.

Lemma explained_resume_items (l : list PS.item) :
  ProbeTrace.records explained (PS.resume_items l).
Proof.
  induction l as [|i l IH]; cbn [PS.resume_items]; records.
Qed.

Lemma explained_reconnect (w : PS.world) (sid : option string) (v : PS.scan) :
  ProbeTrace.records explained (PS.reconnect w sid v).
Proof.
  unfold PS.reconnect.
  destruct (_ && _ && _); [|records].
  apply records_bind; [apply explained_loggingFetch|intros getResponse].
  destruct (if ok getResponse then responseBody getResponse else None); [|records].
  apply records_bind; [|intros received; records].
  unfold PS.resume_stream.
  apply records_bind; [apply explained_resume_items|intros received; records].
Qed.

Lemma explained_polling_probe (w : PS.world) : ProbeTrace.records explained (PS.probe w).
Proof.
  unfold PS.probe.
  apply records_bind; [apply explained_initialize_session|intros sessionId].
  apply records_mbind; [records|intros _].
  apply records_bind; [apply explained_loggingFetch|intros postResponse].
  destruct (negb (ok postResponse)); [records|].
  destruct (negb (is_event_stream (contentType postResponse))); [records|].
  destruct (responseBody postResponse) as [body|]; [|records].
  apply records_bind; [apply explained_scan_items|intros v].
  apply records_mbind; [records|intros _].
  apply records_mbind; [records|intros _].
  apply records_mbind; [records|intros _].
  apply records_mbind; [records|intros _].
  apply explained_reconnect.
Qed.

Lemma explained_acceptsCheck (rs : list (Response MS.body)) : explained (MS.acceptsCheck rs).
Proof. unfold MS.acceptsCheck. cbv zeta. explain. Qed.

Lemma explained_functionalCheck (rs : list (Response MS.body)) :
  explained (MS.functionalCheck rs).
Proof.
  destruct (functionalCheck_counts rs) as (_ & Hs & Hm). cbv zeta in Hs, Hm.
  pose proof (functional_le_sse rs) as Hle.
  unfold explained. rewrite Hs, Hm.
  repeat case_bool_decide; split; (done || lia || intros [|]; (done || lia)).
Qed.

Lemma explained_streams_probe (w : MS.world) : ProbeTrace.records explained (MS.probe w).
Proof.
  unfold MS.probe.
  apply records_bind; [apply explained_initialize_session|intros sessionId].
  destruct (negb (truthy sessionId)); [records|].
  cbv zeta. apply records_bind; [apply records_await|intros rs].
  apply records_mbind; [apply records_push, explained_acceptsCheck|intros _].
  apply records_push, explained_functionalCheck.
Qed.

Lemma polling_probe_unconnected (w : PS.world) :
  (newClient (PS.session w) = Ok () ->
   newTransport (PS.session w) = Ok () ->
   connect (PS.session w) = Ok () -> False) ->
  exists e st, PS.probe w (Probe.mkLocals [] false 0%nat) = (Probe.Raised e, st).
Proof.
  intros Hno. unfold PS.probe, initialize_session.
  cbv [mbind probe_bind]. unfold Probe.bind at 1.
  cbv [Probe.bind mret probe_ret Probe.ret Probe.await Probe.raise Probe.assign_client].
  destruct (newClient (PS.session w)) as [[]|e1]; [|by eauto].
  destruct (newTransport (PS.session w)) as [[]|e2]; [|by eauto].
  destruct (connect (PS.session w)) as [[]|e3]; [|by eauto].
  by destruct Hno.
Qed.

Lemma polling_probe_post_rejected (w : PS.world) (e : exn) :
  newClient (PS.session w) = Ok () ->
  newTransport (PS.session w) = Ok () ->
  connect (PS.session w) = Ok () ->
  PS.post w = Throw e ->
  (PS.probe w (Probe.mkLocals [] false 0%nat)).1 = Probe.Raised e.
Proof.
  intros H1 H2 H3 Hp.
  unfold PS.probe. unfold Probe.bind at 1. rewrite probe_session_ok by done.
  cbv [mbind probe_bind]. unfold Probe.bind at 1.
  destruct (truthy (transportSessionId (PS.session w))); cbn [negb Probe.when];
    cbv [Probe.ret Probe.push]; unfold Probe.bind at 1;
    rewrite Hp, loggingFetch_rejected; reflexivity.
Qed.

(** Unless it throws, the polling probe records something. *)
Lemma polling_probe_progress (w : PS.world) :
  let body := PS.probe w (Probe.mkLocals [] false 0%nat) in
  (exists e, body.1 = Probe.Raised e) \/ Probe.checks body.2 <> [].
Proof.
  cbv zeta.
  destruct (newClient (PS.session w)) as [[]|e1] eqn:H1;
    [|left; destruct (polling_probe_unconnected w) as (e & st & ->);
        [congruence|by eauto]].
  destruct (newTransport (PS.session w)) as [[]|e2] eqn:H2;
    [|left; destruct (polling_probe_unconnected w) as (e & st & ->);
        [congruence|by eauto]].
  destruct (connect (PS.session w)) as [[]|e3] eqn:H3;
    [|left; destruct (polling_probe_unconnected w) as (e & st & ->);
        [congruence|by eauto]].
  destruct (PS.post w) as [r|e] eqn:Hp;
    [|left; exists e; by apply polling_probe_post_rejected].
  destruct (if ok r then if is_event_stream (contentType r) then responseBody r else None
            else None) as [body|] eqn:Hb.
  - assert (PT.stream_opened w body) as Hopen.
    { repeat split; try done. exists r.
      destruct (ok r); [|done]. destruct (is_event_stream (contentType r)); done. }
    pose proof (probe_stream w body Hopen) as Hs. cbv zeta in Hs. rewrite Hs.
    destruct (PS.ending body) as [[]|e]; [|left; by eauto].
    right.
    match goal with
    | |- context [PS.reconnect ?w ?sid ?v ?st] =>
        destruct (reconnect_report w sid v st) as (c & cs & -> & _)
    end.
    unfold ProbeTrace.pushed. cbn [snd Probe.checks].
    intros Hnil. apply app_eq_nil in Hnil as [Hnil _].
    apply app_eq_nil in Hnil as [_ Hnil]. discriminate.
  - right. rewrite (probe_early_exit w r H1 H2 H3 Hp Hb). cbn [snd Probe.checks].
    intros Hnil. apply app_eq_nil in Hnil as [_ Hnil]. discriminate.
Qed.

(** X23. In the two client-role scenarios every run, whatever the server
    does, returns checks whose error message fits the status: each
    FAILURE carries an error message that says why, and no SUCCESS or
    INFO check carries one.  The polling scenario returns at least one
    check and the multiple-streams scenario one or two. *)
Theorem client_verdicts_are_explained :
  (forall w : PS.world,
     exists checks,
       (PS.run w).1 = Ok checks /\ Forall explained checks /\ checks <> []) /\
  (forall w : MS.world,
     exists checks,
       (MS.run w).1 = Ok checks /\ Forall explained checks /\
       (1 <= length checks <= 2)%nat).
Proof.
  split; intros w.
  - destruct (polling_run_of_probe w) as [Hrun _]. cbv zeta in Hrun.
    eexists. split; [exact Hrun|]. split.
    + apply (records_async explained (Probe.try_finally
               (Probe.try_catch (PS.probe w) PS.on_error) (cleanup (PS.session w))));
        [|exact Hrun].
      apply records_try_finally; [|apply records_cleanup].
      apply records_try_catch; [apply explained_polling_probe|].
      intros e. unfold PS.on_error. apply records_push. explain.
    + destruct (polling_probe_progress w) as [[e He]|Hne]; cbv zeta in *.
      * rewrite He. intros Hnil. apply app_eq_nil in Hnil as [_ Hnil]. discriminate.
      * destruct (PS.probe w _).1; [exact Hne| exact Hne|].
        intros Hnil. apply app_eq_nil in Hnil as [_ Hnil]. discriminate.
  - destruct (streams_run_of_probe w) as [Hrun _]. cbv zeta in Hrun.
    eexists. split; [exact Hrun|]. split.
    + apply (records_async explained (Probe.try_finally
               (Probe.try_catch (MS.probe w) MS.on_error) (cleanup (MS.session w))));
        [|exact Hrun].
      apply records_try_finally; [|apply records_cleanup].
      apply records_try_catch; [apply explained_streams_probe|].
      intros e. unfold MS.on_error. apply records_push. explain.
    + destruct (newClient (MS.session w)) as [[]|e1] eqn:H1;
        [|destruct (streams_probe_unconnected w) as (e & st & -> & Hst);
            [congruence|cbn [fst snd]; rewrite Hst; cbn; lia]].
      destruct (newTransport (MS.session w)) as [[]|e2] eqn:H2;
        [|destruct (streams_probe_unconnected w) as (e & st & -> & Hst);
            [congruence|cbn [fst snd]; rewrite Hst; cbn; lia]].
      destruct (connect (MS.session w)) as [[]|e3] eqn:H3;
        [|destruct (streams_probe_unconnected w) as (e & st & -> & Hst);
            [congruence|cbn [fst snd]; rewrite Hst; cbn; lia]].
      rewrite (streams_probe_connected w H1 H2 H3).
      destruct (truthy _); [|cbn; lia].
      destruct (MS.Promise_all _ _); cbn; lia.
Qed.

Lemma retryTiming_explained (s : t) (d : Q) : explained (retryTiming s d).
Proof.
  unfold retryTiming. cbv zeta.
  destruct (Qltb d _); [explain|].
  destruct (Qgtb d (inject_Z (retryValue s * VERY_LATE_MULTIPLIER))); [explain|].
  destruct (Qgtb d _); explain.
Qed.

Lemma generateChecks_explained (s : t) :
  Forall explained (checks s) -> Forall explained (checks (generateChecks s)).
Proof.
  destruct s as [cs close recon count ids rv ctr sid pend stream w tm].
  cbn [checks]. intros Hcs. unfold generateChecks. cbn [getConnectionCount].
  case_bool_decide.
  - fields. apply Forall_app. split; [exact Hcs|]. constructor; [explain|constructor].
  - fields. destruct close, recon; fields; rewrite !Forall_app;
      (split; [split; [split; [exact Hcs|]|]|]);
      (constructor; [first [apply retryTiming_explained | explain]|constructor]).
Qed.

(** X24. Whatever requests and timer callbacks the harness has handled
    since it was created, the checks [getChecks] returns fit their
    status: every FAILURE carries an error message that says why, and no
    SUCCESS or INFO check carries one. *)
Theorem harness_verdicts_are_explained (dateNow : Z) (inputs : list input) :
  Forall explained (getChecks (run (init dateNow) inputs)).1.
Proof.
  unfold getChecks. cbn [fst]. apply generateChecks_explained.
  destruct (run_log inputs (init dateNow)) as (cs & ops & Hc & Hi & _).
  rewrite Hc. cbn [init checks app].
  eapply Forall_impl; [exact Hi|].
  intros c [Hs Hm]. unfold explained. rewrite Hs, Hm. split; [done|by intros _].
Qed.

(** ** The scenario registry *)

Section registry.
Context {Scenario : Type}.

Lemma map_set_keys (name : string) (scenario : Scenario) (m : list (string * Scenario)) :
  Registry.listScenarios (Registry.map_set name scenario m) =
    if bool_decide (name ∈ Registry.listScenarios m) then Registry.listScenarios m
    else Registry.listScenarios m ++ [name].
Proof.
  unfold Registry.listScenarios.
  induction m as [|[k v] m IH]; cbn [Registry.map_set].
  - rewrite bool_decide_eq_false_2 by apply not_elem_of_nil. reflexivity.
  - destruct (decide (k = name)) as [->|Hk].
    + rewrite (bool_decide_eq_true_2 (name = name)) by done.
      rewrite fmap_cons. cbn [fst].
      rewrite bool_decide_eq_true_2 by (rewrite fmap_cons; left). reflexivity.
    + rewrite (bool_decide_eq_false_2 (k = name)) by done.
      rewrite !fmap_cons, IH. cbn [fst]. case_bool_decide as Hin.
      * rewrite bool_decide_eq_true_2 by (by right). reflexivity.
      * rewrite bool_decide_eq_false_2; [reflexivity|].
        intros [?|?]%elem_of_cons; [by subst|done].
Qed.

Lemma map_get_set (name other : string) (scenario : Scenario) (m : list (string * Scenario)) :
  Registry.map_get other (Registry.map_set name scenario m) =
    if bool_decide (other = name) then Some scenario else Registry.map_get other m.
Proof.
  induction m as [|[k v] m IH]; cbn [Registry.map_set Registry.map_get].
  - destruct (decide (other = name)) as [->|Hn].
    + by rewrite !bool_decide_eq_true_2.
    + rewrite !bool_decide_eq_false_2; [done..|]. congruence.
  - destruct (decide (k = name)) as [->|Hk].
    + rewrite (bool_decide_eq_true_2 (name = name)) by done. cbn [Registry.map_get].
      destruct (decide (other = name)) as [->|Hn].
      * by rewrite !bool_decide_eq_true_2.
      * rewrite !(bool_decide_eq_false_2 (name = other)) by congruence.
        by rewrite bool_decide_eq_false_2.
    + rewrite (bool_decide_eq_false_2 (k = name)) by done. cbn [Registry.map_get].
      rewrite IH. destruct (decide (k = other)) as [->|Ho].
      * rewrite bool_decide_eq_true_2 by done. by rewrite bool_decide_eq_false_2.
      * by rewrite (bool_decide_eq_false_2 (k = other)).
Qed.

Lemma registered_snoc (initialize : Scenario) (calls : list (string * Scenario))
    (call : string * Scenario) :
  Registry.registered initialize (calls ++ [call]) =
    Registry.registerScenario call.1 call.2 (Registry.registered initialize calls).
Proof. unfold Registry.registered. by rewrite foldl_app. Qed.
End registry.

(** X25. The registry after any series of [registerScenario] calls:
    [listScenarios] names every scenario once, the built-in [initialize]
    first, and contains exactly [initialize] and the names registered;
    registering a name that is listed leaves the list as it is (the
    scenario is replaced in place) and a new name is added at the end;
    [getScenario] returns for a name the scenario of the latest call with
    that name, the built-in one for [initialize] if it was never
    registered again, and nothing for a name that was never
    registered. *)
Theorem registry_lists_each_name_once {Scenario : Type}
    (initialize : Scenario) (calls : list (string * Scenario)) :
  let m := Registry.registered initialize calls in
  NoDup (Registry.listScenarios m) /\
  head (Registry.listScenarios m) = Some "initialize" /\
  (forall name, name ∈ Registry.listScenarios m <-> name = "initialize" \/ name ∈ calls.*1) /\
  (forall name scenario,
     Registry.listScenarios (Registry.registerScenario name scenario m) =
       if bool_decide (name ∈ Registry.listScenarios m) then Registry.listScenarios m
       else Registry.listScenarios m ++ [name]) /\
  (forall name,
     Registry.getScenario name m =
       match last (filter (λ call, call.1 = name) calls) with
       | Some call => Some call.2
       | None => if bool_decide (name = "initialize") then Some initialize else None
       end).
Proof.
  cbv zeta. split; [|split; [|split; [|split]]].
  - induction calls as [|call calls IH] using rev_ind.
    + apply NoDup_singleton.
    + rewrite registered_snoc. unfold Registry.registerScenario.
      rewrite map_set_keys. case_bool_decide as Hin; [exact IH|].
      apply NoDup_app. split; [exact IH|]. split; [|apply NoDup_singleton].
      intros x Hx ->%list_elem_of_singleton. by apply Hin.
  - induction calls as [|call calls IH] using rev_ind; [reflexivity|].
    rewrite registered_snoc. unfold Registry.registerScenario.
    rewrite map_set_keys. case_bool_decide; [exact IH|].
    destruct (Registry.listScenarios _); [discriminate|exact IH].
  - intros name. induction calls as [|call calls IH] using rev_ind.
    + cbn. rewrite list_elem_of_singleton, elem_of_nil. tauto.
    + rewrite registered_snoc. unfold Registry.registerScenario.
      rewrite map_set_keys, fmap_app, elem_of_app. cbn [fmap list_fmap].
      rewrite list_elem_of_singleton.
      case_bool_decide as Hin.
      * rewrite IH. split; [tauto|]. intros [?|[?| ->]]; [tauto..|]. by apply IH.
      * rewrite elem_of_app, list_elem_of_singleton, IH. tauto.
  - intros name scenario. apply map_set_keys.
  - intros name. unfold Registry.getScenario.
    induction calls as [|call calls IH] using rev_ind.
    + cbn. by rewrite (bool_decide_ext ("initialize" = name) (name = "initialize")).
    + rewrite registered_snoc. unfold Registry.registerScenario.
      rewrite map_get_set, filter_app.
      destruct (decide (name = call.1)) as [Hn|Hn].
      * rewrite bool_decide_eq_true_2 by done.
        rewrite filter_cons_True by done. by rewrite filter_nil, last_snoc.
      * rewrite bool_decide_eq_false_2 by done.
        rewrite filter_cons_False by (intros ?; by apply Hn).
        rewrite filter_nil, app_nil_r. apply IH.
Qed.

(** ** The mock authorization server *)

Module AS := AuthServer.

Lemma split_space_cons (s : string) : exists first others, AS.split_space s = first :: others.
Proof.
  induction s as [|c rest (first & others & IH)]; cbn [AS.split_space]; [by eauto|].
  rewrite IH. case_bool_decide; eauto.
Qed.

Lemma join_step (c : Ascii.ascii) (first : string) (others : list string) :
  foldl (λ acc part, acc +:+ " " +:+ part) (String c first) others =
  String c (foldl (λ acc part, acc +:+ " " +:+ part) first others).
Proof.
  revert first. induction others as [|part others IH]; intros first; [reflexivity|].
  cbn [foldl]. change (String c first +:+ " " +:+ part) with (String c (first +:+ " " +:+ part)).
  apply IH.
Qed.

(** [s.split(' ').join(' ')] is [s]. *)
Lemma join_split_space (s : string) : MS.join " " (AS.split_space s) = s.
Proof.
  induction s as [|c rest IH]; [reflexivity|].
  cbn [AS.split_space].
  destruct (split_space_cons rest) as (first & others & Hrest).
  rewrite Hrest in IH |- *. unfold MS.join in IH.
  case_bool_decide as Hc.
  - assert (c = Ascii.ascii_of_nat 32) as ->
      by (by rewrite <- (Ascii.ascii_nat_embedding c), Hc).
    unfold MS.join. cbn [foldl].
    change ("" +:+ " " +:+ first) with (String (Ascii.ascii_of_nat 32) first).
    by rewrite join_step, IH.
  - unfold MS.join. by rewrite join_step, IH.
Qed.

Lemma serve_snoc (o : AS.AuthServerOptions) (authBaseUrl : string) (s : AS.vars)
    (requests : list AS.request) (r : AS.request) :
  AS.serve o authBaseUrl s (requests ++ [r]) =
    let served := AS.serve o authBaseUrl s requests in
    ((AS.handle o authBaseUrl served.1 r).1,
     served.2 ++ [(AS.handle o authBaseUrl served.1 r).2]).
Proof.
  unfold AS.serve. rewrite foldl_app. cbn [foldl].
  by destruct (AS.handle _ _ _ _).
Qed.

Lemma handle_scopes (o : AS.AuthServerOptions) (authBaseUrl : string) (s : AS.vars)
    (r : AS.request) :
  AS.lastAuthorizationScopes (AS.handle o authBaseUrl s r).1 =
    match r with
    | AS.GetAuthorize _ (Some (AS.QText scope)) _ _ _ =>
        if bool_decide (scope = "") then [] else AS.split_space scope
    | AS.GetAuthorize _ None _ _ _ => []
    | _ => AS.lastAuthorizationScopes s
    end.
Proof.
  destruct r as [|client_id scope state redirect_uri timestamp
                 |body authorization timestamp now|body]; cbn [AS.handle].
  - reflexivity.
  - unfold AS.handleAuthorize.
    assert (AS.split_scope scope =
            match scope with
            | Some (AS.QText scope) =>
                Ok (if bool_decide (scope = "") then [] else AS.split_space scope)
            | None => Ok []
            | _ => Throw (ErrorObject "scopeParam.split is not a function")
            end) as ->.
    { destruct scope as [[scope|items|fields]|]; try reflexivity.
      unfold AS.split_scope, AS.given. by case_bool_decide. }
    destruct scope as [[scope|items|fields]|]; try reflexivity;
      (destruct (match AS.onAuthorizationRequest o with
                 | Some hook => hook client_id _ timestamp
                 | None => Ok ()
                 end) as [[]|e]; [|reflexivity]);
      (destruct redirect_uri as [redirectUrl|e]; [|reflexivity]);
      (destruct state as [st|]; [|reflexivity]);
      (destruct (AS.given (Some st)); [|reflexivity]);
      by destruct (AS.to_text st).
  - unfold AS.handleToken.
    destruct (AS.field "scope" body) as [requestedScope|e]; [|reflexivity].
    destruct (AS.field "grant_type" body) as [grantType|e]; [|reflexivity].
    cbv zeta.
    destruct (match AS.onTokenRequest o with Some _ => _ | None => _ end) as [[r|r]|e];
      [destruct (AS.tokenVerifier o)| |]; reflexivity.
  - unfold AS.handleRegister.
    destruct (AS.field "client_name" body) as [client_name|e]; [|reflexivity].
    by destruct (AS.field "redirect_uris" body).
Qed.

Lemma served_scopes (o : AS.AuthServerOptions) (authBaseUrl : string)
    (checks0 : list ConformanceCheck) (requests : list AS.request) :
  AS.lastAuthorizationScopes (AS.serve o authBaseUrl (AS.init checks0) requests).1 =
    match AS.granted_scope requests with
    | Some scope => AS.split_space scope
    | None => []
    end.
Proof.
  induction requests as [|r requests IH] using rev_ind; [reflexivity|].
  rewrite serve_snoc. cbv zeta. cbn [fst]. rewrite handle_scopes, IH.
  unfold AS.granted_scope, AS.asked_scopes. rewrite omap_app.
  destruct r as [|client_id [[scope|items|fields]|] state redirect_uri timestamp
                 |body authorization timestamp now|body];
    cbn [omap list_omap]; rewrite ?app_nil_r; try reflexivity.
  - rewrite last_snoc. by case_bool_decide.
  - by rewrite last_snoc.
Qed.

Lemma handleToken_readable (o : AS.AuthServerOptions) (authBaseUrl : string)
    (body : jsvalue) (authorization : option string) (timestamp : string) (now : Z)
    (s : AS.vars) (requestedScope grantType : jsvalue) :
  AS.field "scope" body = Ok requestedScope ->
  AS.field "grant_type" body = Ok grantType ->
  AS.onTokenRequest o = None ->
  AS.handleToken o authBaseUrl body authorization timestamp now s =
    let recorded := AS.checks s ++ [AS.success "token-request" "TokenRequest"] in
    let token := "test-token-" +:+ pretty now in
    let scopes := AS.lastAuthorizationScopes s in
    (AS.mkVars recorded scopes
       (if AS.tokenVerifier o then AS.registeredTokens s ++ [(token, scopes)]
        else AS.registeredTokens s),
     AS.Json 200
       (JObject
          ([("access_token", JString token);
            ("token_type", JString "Bearer");
            ("expires_in", JNumber 3600)] ++
           if bool_decide (0 < length scopes)%nat
           then [("scope", JString (MS.join " " scopes))]
           else []))).
Proof.
  intros Hscope Hgrant Hhook. unfold AS.handleToken.
  rewrite Hscope, Hgrant. cbv zeta. rewrite Hhook.
  cbn [AS.lastAuthorizationScopes AS.token AS.scopes AS.checks AS.registeredTokens].
  by destruct (AS.tokenVerifier o).
Qed.

(** X26. The mock authorization server grants what was last asked for:
    without an [onTokenRequest] hook, a token request that has a body
    other than [null] is answered 200 with the token [test-token-<now>],
    after the check [token-request] is recorded, and the [scope] of the
    answer is, character for character, the [scope] parameter of the
    latest authorization request handled before whose [scope] was a
    string or absent, whatever other requests came in between; when that
    request had no scope or an empty one, or when there was no such
    request, the answer has no [scope] field.  An authorization request
    whose [scope] is an array or an object fails before the scopes are
    replaced, and leaves the earlier ones in force.  With a verifier, the
    token is registered with that scope split at the spaces.  A token
    request without a body, or whose body is [null], fails when the
    handler reads the scope from it: nothing is recorded, nothing is
    registered and no token is handed out. *)
Theorem token_scope_follows_last_authorization
    (o : AS.AuthServerOptions) (authBaseUrl : string) (checks0 : list ConformanceCheck)
    (requests : list AS.request)
    (body : jsvalue) (authorization : option string)
    (timestamp : string) (now : Z) :
  AS.onTokenRequest o = None ->
  let s := (AS.serve o authBaseUrl (AS.init checks0) requests).1 in
  let answer := AS.handleToken o authBaseUrl body authorization timestamp now s in
  match body with
  | Undefined =>
      answer =
        (s, AS.Failed (ErrorObject "Cannot read properties of undefined (reading 'scope')"))
  | Value JNull =>
      answer =
        (s, AS.Failed (ErrorObject "Cannot read properties of null (reading 'scope')"))
  | Value _ =>
      answer.2 =
        AS.Json 200
          (JObject
             ([("access_token", JString ("test-token-" +:+ pretty now));
               ("token_type", JString "Bearer");
               ("expires_in", JNumber 3600)] ++
              match AS.granted_scope requests with
              | Some scope => [("scope", JString scope)]
              | None => []
              end)) /\
      AS.checks answer.1 = AS.checks s ++ [AS.success "token-request" "TokenRequest"] /\
      AS.lastAuthorizationScopes answer.1 = AS.lastAuthorizationScopes s /\
      AS.registeredTokens answer.1 =
        AS.registeredTokens s ++
        (if AS.tokenVerifier o
         then [("test-token-" +:+ pretty now,
                match AS.granted_scope requests with
                | Some scope => AS.split_space scope
                | None => []
                end)]
         else [])
  end.
Proof.
  intros Hhook s answer. subst answer.
  pose proof (served_scopes o authBaseUrl checks0 requests) as Hs. fold s in Hs.
  assert ((if bool_decide (0 < length (AS.lastAuthorizationScopes s))%nat
           then [("scope", JString (MS.join " " (AS.lastAuthorizationScopes s)))]
           else []) =
          match AS.granted_scope requests with
          | Some scope => [("scope", JString scope)]
          | None => []
          end) as Hscope.
  { rewrite Hs. destruct (AS.granted_scope requests) as [scope|]; [|reflexivity].
    destruct (split_space_cons scope) as (first & others & Hsplit).
    rewrite bool_decide_eq_true_2 by (rewrite Hsplit; cbn; lia).
    by rewrite join_split_space. }
  destruct body as [|parsed]; [reflexivity|].
  destruct parsed; [reflexivity|..];
    (erewrite handleToken_readable; [|reflexivity|reflexivity|exact Hhook]);
    cbv zeta; cbn [fst snd AS.checks AS.lastAuthorizationScopes AS.registeredTokens];
    rewrite Hscope, Hs;
    (split; [reflexivity|]); (split; [reflexivity|]); (split; [reflexivity|]);
    destruct (AS.tokenVerifier o); rewrite ?app_nil_r; reflexivity.
Qed.

Lemma token_scope_follows_last_authorization_witness :
  let o := AS.mkOptions false "" None [] ["none"] None None true None None in
  let requests :=
    [AS.GetAuthorize (Some (AS.QText "client")) (Some (AS.QText "mcp:read")) None
       (Throw (ErrorObject "Invalid URL")) "t0";
     AS.PostRegister (Value (JObject []));
     AS.GetAuthorize (Some (AS.QText "client")) (Some (AS.QText "mcp:read  mcp:write"))
       (Some (AS.QText "xyz")) (Ok (AS.mkURL "http://localhost/callback" [])) "t1";
     AS.GetAuthorize (Some (AS.QText "client"))
       (Some (AS.QList [AS.QText "admin"; AS.QText "root"])) None
       (Ok (AS.mkURL "http://localhost/callback" [])) "t2";
     AS.PostToken Undefined None "t3" 41;
     AS.GetMetadata] in
  let s := (AS.serve o "http://localhost:1" (AS.init []) requests).1 in
  let answer := AS.handleToken o "http://localhost:1" (Value (JObject [])) None "t4" 42 s in
  let unread := AS.handleToken o "http://localhost:1" Undefined None "t4" 42 s in
  (answer.2 =
     AS.Json 200
       (JObject
          [("access_token", JString "test-token-42");
           ("token_type", JString "Bearer");
           ("expires_in", JNumber 3600);
           ("scope", JString "mcp:read  mcp:write")]) /\
   AS.registeredTokens answer.1 = [("test-token-42", ["mcp:read"; ""; "mcp:write"])]) /\
  unread =
    (s, AS.Failed (ErrorObject "Cannot read properties of undefined (reading 'scope')")).
Proof.
  intros o requests s answer unread.
  pose proof (token_scope_follows_last_authorization o "http://localhost:1" [] requests
                (Value (JObject [])) None "t4" 42 eq_refl) as (Hanswer & _ & _ & Hreg).
  split; [split; [exact Hanswer | exact Hreg]|].
  exact (token_scope_follows_last_authorization o "http://localhost:1" [] requests
           Undefined None "t4" 42 eq_refl).
Defined.

Lemma metadata_issues_nothing (o : AS.AuthServerOptions) (authBaseUrl : string) (s : AS.vars) :
  AS.issued (AS.handleMetadata o authBaseUrl s).2 = None.
Proof.
  unfold AS.handleMetadata. cbv zeta. cbn [snd AS.issued].
  destruct (AS.tokenEndpointAuthSigningAlgValuesSupported o), (AS.scopesSupported o),
    (AS.clientIdMetadataDocumentSupported o), (AS.isOpenIdConfiguration o); reflexivity.
Qed.

Lemma handle_issues (o : AS.AuthServerOptions) (authBaseUrl : string) (s : AS.vars)
    (r : AS.request) :
  AS.tokenVerifier o = true ->
  let answer := AS.handle o authBaseUrl s r in
  exists calls,
    AS.registeredTokens answer.1 = AS.registeredTokens s ++ calls /\
    AS.registration <$> calls =
      match AS.issued answer.2 with Some handed => [handed] | None => [] end.
Proof.
  intros Hv. cbv zeta.
  destruct r as [|client_id scope state redirect_uri timestamp
                 |body authorization timestamp now|body]; cbn [AS.handle].
  - exists []. rewrite metadata_issues_nothing, app_nil_r. done.
  - exists []. rewrite app_nil_r. unfold AS.handleAuthorize.
    destruct (AS.split_scope scope) as [scopes|e]; [|done].
    destruct (match AS.onAuthorizationRequest o with
              | Some hook => hook client_id scope timestamp
              | None => Ok ()
              end) as [[]|e]; [|done].
    destruct redirect_uri as [redirectUrl|e]; [|done].
    destruct state as [st|]; [|done].
    destruct (AS.given (Some st)); [|done].
    by destruct (AS.to_text st).
  - unfold AS.handleToken.
    destruct (AS.field "scope" body) as [requestedScope|e].
    2:{ exists []. by rewrite app_nil_r. }
    destruct (AS.field "grant_type" body) as [grantType|e].
    2:{ exists []. by rewrite app_nil_r. }
    cbv zeta. rewrite Hv.
    destruct (match AS.onTokenRequest o with Some _ => _ | None => _ end) as [[r|r]|e].
    + exists [(AS.token r, AS.scopes r)]. split; [reflexivity|].
      cbn [snd AS.issued fmap list_fmap]. unfold AS.registration. cbn [fst snd].
      by destruct (bool_decide (0 < length (AS.scopes r))%nat).
    + exists []. rewrite app_nil_r. split; [reflexivity|].
      cbn [snd AS.issued fmap list_fmap].
      destruct (match AS.statusCode r with
                | Some code => if bool_decide (code = 0) then 400 else code
                | None => 400
                end) as [|[p|p|]|]; try reflexivity;
        repeat (destruct p as [p|p|]; try reflexivity);
        by destruct (AS.errorDescription r).
    + exists []. by rewrite app_nil_r.
  - exists []. rewrite app_nil_r. unfold AS.handleRegister.
    destruct (AS.field "client_name" body) as [client_name|e]; [|done].
    by destruct (AS.field "redirect_uris" body).
Qed.

(** X27. With a token verifier, the verifier knows exactly the tokens
    the server has handed out: after any series of requests, the
    [registerToken] calls made are, in order, the access tokens of the
    200 answers of the token endpoint, each with the scope that answer
    reports.  In particular a token request that the [onTokenRequest]
    hook refuses, during which it throws, or whose body cannot be read,
    registers nothing, and no other endpoint registers or hands out a
    token. *)
Theorem verifier_knows_the_tokens_handed_out
    (o : AS.AuthServerOptions) (authBaseUrl : string) (checks0 : list ConformanceCheck)
    (requests : list AS.request) :
  AS.tokenVerifier o = true ->
  let served := AS.serve o authBaseUrl (AS.init checks0) requests in
  AS.registration <$> AS.registeredTokens served.1 = omap AS.issued served.2.
Proof.
  intros Hv. cbv zeta.
  induction requests as [|r requests IH] using rev_ind; [done|].
  rewrite serve_snoc. cbv zeta. cbn [fst snd].
  destruct (handle_issues o authBaseUrl
              (AS.serve o authBaseUrl (AS.init checks0) requests).1 r Hv)
    as (calls & Hreg & Hcalls).
  cbv zeta in Hreg, Hcalls.
  rewrite Hreg, fmap_app, IH, Hcalls, omap_app. f_equal.
Qed.

Lemma verifier_knows_the_tokens_handed_out_witness :
  let refuse := λ _ : AS.tokenRequestData,
    Ok (AS.Refused (AS.mkTokenError "invalid_grant" None (Some 200))) in
  let o := AS.mkOptions false "" None [] ["none"] None None true (Some refuse) None in
  let requests :=
    [AS.GetMetadata; AS.PostToken (Value (JObject [])) None "t" 1;
     AS.PostToken Undefined None "t" 2; AS.PostRegister (Value (JObject []))] in
  let served := AS.serve o "http://localhost:1" (AS.init []) requests in
  let o' := AS.mkOptions false "" None [] ["none"] None None true None None in
  let requests' :=
    [AS.GetAuthorize None (Some (AS.QText "a b")) None (Throw (ErrorObject "Invalid URL")) "t";
     AS.PostToken (Value (JObject [])) None "t" 1;
     AS.PostToken Undefined None "t" 2] in
  let served' := AS.serve o' "http://localhost:1" (AS.init []) requests' in
  (AS.registeredTokens served.1 = [] /\
   AS.registration <$> AS.registeredTokens served.1 = omap AS.issued served.2) /\
  (AS.registeredTokens served'.1 = [("test-token-1", ["a"; "b"])] /\
   AS.registration <$> AS.registeredTokens served'.1 = omap AS.issued served'.2).
Proof.
  intros refuse o requests served o' requests' served'.
  split; (split; [reflexivity|]).
  - exact (verifier_knows_the_tokens_handed_out o "http://localhost:1" [] requests eq_refl).
  - exact (verifier_knows_the_tokens_handed_out o' "http://localhost:1" [] requests' eq_refl).
Defined.
